(** * The-Miner: the adaptive decision engine

    A shallow embedding of the four rule engines of the repository:

    - [src/monitoring/alerting_system.py]   (module [Alerting])
    - [src/monitoring/profit_switcher.py]   (module [ProfitSwitch])
    - [src/monitoring/resource_monitor.py]  (module [Scaling])
    - [src/utils/error_recovery.py]         (module [Recovery])

    Modelling conventions.

    - A Python [float] is an exact rational [Q]; comparisons are the boolean
      tests [Qle_bool], [Qlt_bool], [Qeq_bool].  Rounding, infinities and
      NaN are outside the model; every concrete input used below is a
      number on which binary floating point is exact or the comparison has
      a wide margin.  The exception is the module [ProfitSwitch64], which
      takes the switching decision of the profit switcher on binary64
      values (the kernel's primitive floats, rounding to nearest even as
      CPython does), because the threshold comparison depends on the
      rounding.
    - [time.time()] is an input.  Methods of a single object take each clock
      reading as an argument, in the order the source reads it; the loops of
      the engines thread a counter [ticks] through a reading sequence
      [clock : nat -> Q].
    - Exceptions are values of [result]: [Ok v] or [Raise e].
    - Objects that the source shares by reference (alerts, recovery actions)
      live in a heap (a list indexed by reference).
    - A [dict] whose iteration order is observable is an insertion-ordered
      association list ([Py.dict_set] keeps the position of an existing key,
      as CPython does); a [dict] that is only looked up is a [gmap].
    - Logging through the production logger is not modelled; what the
      engines send or run is recorded in explicit traces. *)

From Stdlib Require Import QArith Qabs Lqa ZArith Lia.
From Stdlib Require PrimFloat.
From stdpp Require Import base strings pretty gmap list.

(** ** Python values shared by the four engines *)

Module Py.

Inductive PyExn : Type :=
| ZeroDivisionError
| NotImplementedError
| RecursionError.

Inductive result (A : Type) : Type :=
| Ok (a : A)
| Raise (e : PyExn).

Arguments Ok {A} a.
Arguments Raise {A} e.

(** [x < y] on floats. *)
Definition Qlt_bool (x y : Q) : bool := negb (Qle_bool y x).

(** [x / y] on floats: raises on a zero divisor. *)
Definition truediv (x y : Q) : result Q :=
  if Qeq_bool y 0 then Raise ZeroDivisionError else Ok (x / y)%Q.

(** [int(x)] on a float: truncation towards zero. *)
Definition int_of (x : Q) : Z := Z.quot (Qnum x) (Zpos (Qden x)).

(** [max(a, b)] on floats: the first argument wins a tie. *)
Definition Qmax (a b : Q) : Q := if Qlt_bool a b then b else a.

(** Truthiness of an optional string: [None] and [""] are falsy. *)
Definition truthy (o : option string) : bool :=
  match o with
  | None => false
  | Some s => negb (String.eqb s "")
  end.

(** Insertion-ordered dictionaries with string keys. *)
Definition dict (V : Type) : Type := list (string * V).

Fixpoint dict_get {V} (d : dict V) (k : string) : option V :=
  match d with
  | [] => None
  | (k', v) :: d' => if String.eqb k' k then Some v else dict_get d' k
  end.

(** [d[k] = v]: replaces in place, or appends a new key at the end. *)
Fixpoint dict_set {V} (d : dict V) (k : string) (v : V) : dict V :=
  match d with
  | [] => [(k, v)]
  | (k', v') :: d' =>
      if String.eqb k' k then (k', v) :: d' else (k', v') :: dict_set d' k v
  end.

(** [del d[k]] for a key that is present. *)
Fixpoint dict_del {V} (d : dict V) (k : string) : dict V :=
  match d with
  | [] => []
  | (k', v') :: d' =>
      if String.eqb k' k then d' else (k', v') :: dict_del d' k
  end.

(** [l[-k:]] for an int [k]: the last [k] items when [k] is positive, the
    whole list when [k] is 0, and [l[n:]] for [k = -n]. *)
Definition slice_last {A} (l : list A) (k : Z) : list A :=
  if (0 <? k)%Z then drop (length l - Z.to_nat k) l
  else drop (Z.to_nat (- k)) l.

End Py.

(** ** alerting_system.py *)

Module Alerting.
Import Py.
Local Open Scope Q_scope.

Inductive AlertSeverity : Type := INFO | WARNING | ERROR | CRITICAL.

Inductive AlertStatus : Type := ACTIVE | RESOLVED | SUPPRESSED.

(** Values stored in an alert's metadata dictionary. *)
Inductive MetaValue : Type :=
| MStr (s : string)
| MInt (n : nat)
| MFloat (x : Q).

(** The f-string of [_get_message], kept unrendered. *)
Inductive Message : Type :=
| MsgAlert (name : string)
| MsgCPU (threshold : Q)
| MsgMemory (threshold : Q)
| MsgDisk (threshold : Q)
| MsgTemperature (threshold : Q)
| MsgMining
| MsgText (text : string).

Record Alert : Type := mkAlert {
  alert_id : string;
  alert_title : string;
  alert_message : Message;
  alert_severity : AlertSeverity;
  alert_status : AlertStatus;
  alert_component : string;
  alert_timestamp : Q;
  resolved_timestamp : option Q;
  alert_metadata : option (dict MetaValue);
  suppression_duration : option Q
}.

(** [current.__dict__] of the resource monitor's latest sample. *)
Record ResourceSample : Type := mkSample {
  cpu_percent : Q;
  memory_percent : Q;
  disk_percent : Q;
  temperature : Q
}.

(** The [metrics] dictionary handed to the rules. *)
Record Metrics : Type := mkMetrics {
  current_metrics : option ResourceSample;
  mining_stopped : bool;
  wallet_disconnected : bool;
  pool_connection_lost : bool
}.

(** The subclasses of [AlertRule]. [BaseRule] is the class itself, whose
    [_evaluate_condition] raises; [CustomRule] is a user subclass that
    overrides [_evaluate_condition] only. *)
Inductive RuleKind : Type :=
| BaseRule
| CPUAlertRule (threshold duration : Q)
| MemoryAlertRule (threshold duration : Q)
| DiskAlertRule (threshold : Q)
| TemperatureAlertRule (threshold : Q)
| MiningAlertRule
| CustomRule (cond : Metrics -> bool).

Record AlertRule : Type := mkRule {
  name : string;
  severity : AlertSeverity;
  cooldown : Q;
  last_triggered : Q;
  trigger_count : nat;
  suppressed_until : Q;
  kind : RuleKind
}.

(** [AlertRule.__init__] *)
Definition new_rule (n : string) (sev : AlertSeverity) (cd : Q) (k : RuleKind)
  : AlertRule :=
  mkRule n sev cd 0 0 0 k.

Definition _evaluate_condition (r : AlertRule) (metrics : Metrics) : result bool :=
  match kind r with
  | BaseRule => Raise NotImplementedError
  | CPUAlertRule threshold _ =>
      match current_metrics metrics with
      | None => Ok false
      | Some cm => Ok (Qlt_bool threshold (cpu_percent cm))
      end
  | MemoryAlertRule threshold _ =>
      match current_metrics metrics with
      | None => Ok false
      | Some cm => Ok (Qlt_bool threshold (memory_percent cm))
      end
  | DiskAlertRule threshold =>
      match current_metrics metrics with
      | None => Ok false
      | Some cm => Ok (Qlt_bool threshold (disk_percent cm))
      end
  | TemperatureAlertRule threshold =>
      match current_metrics metrics with
      | None => Ok false
      | Some cm =>
          let temp := temperature cm in
          Ok (Qlt_bool 0 temp && Qlt_bool threshold temp)
      end
  | MiningAlertRule =>
      Ok (mining_stopped metrics || wallet_disconnected metrics
          || pool_connection_lost metrics)
  | CustomRule cond => Ok (cond metrics)
  end.

(** [AlertRule.should_trigger]; [current_time] is its [time.time()]. *)
Definition should_trigger (r : AlertRule) (metrics : Metrics) (current_time : Q)
  : result bool :=
  if Qlt_bool (current_time - last_triggered r) (cooldown r) then Ok false
  else if Qlt_bool current_time (suppressed_until r) then Ok false
  else _evaluate_condition r metrics.

Definition _get_message (r : AlertRule) : Message :=
  match kind r with
  | CPUAlertRule threshold _ => MsgCPU threshold
  | MemoryAlertRule threshold _ => MsgMemory threshold
  | DiskAlertRule threshold => MsgDisk threshold
  | TemperatureAlertRule threshold => MsgTemperature threshold
  | MiningAlertRule => MsgMining
  | BaseRule | CustomRule _ => MsgAlert (name r)
  end.

Definition _get_component (r : AlertRule) : string :=
  match kind r with
  | CPUAlertRule _ _ => "cpu"
  | MemoryAlertRule _ _ => "memory"
  | DiskAlertRule _ => "disk"
  | TemperatureAlertRule _ => "temperature"
  | MiningAlertRule => "mining"
  | BaseRule | CustomRule _ => "system"
  end.

Definition _get_metadata (r : AlertRule) : dict MetaValue :=
  let base := [("rule", MStr (name r)); ("trigger_count", MInt (trigger_count r))] in
  match kind r with
  | CPUAlertRule threshold duration
  | MemoryAlertRule threshold duration =>
      dict_set (dict_set base "threshold" (MFloat threshold))
               "duration" (MFloat duration)
  | DiskAlertRule threshold
  | TemperatureAlertRule threshold =>
      dict_set base "threshold" (MFloat threshold)
  | BaseRule | MiningAlertRule | CustomRule _ => base
  end.

(** The id that [trigger] generates: [f"{self.name}_{int(self.last_triggered)}"]. *)
Definition generated_id (n : string) (t : Q) : string :=
  n +:+ "_" +:+ pretty (int_of t).

(** [AlertRule.trigger]; [now] is its [time.time()].  Returns the mutated
    rule and the new alert. *)
Definition trigger (r : AlertRule) (now : Q) : AlertRule * Alert :=
  let r' := mkRule (name r) (severity r) (cooldown r) now
                   (S (trigger_count r)) (suppressed_until r) (kind r) in
  (r', mkAlert (generated_id (name r') (last_triggered r'))
               (name r')
               (_get_message r')
               (severity r')
               ACTIVE
               (_get_component r')
               (last_triggered r')
               None
               (Some (_get_metadata r'))
               None).

(** [AlertRule.suppress] *)
Definition suppress (r : AlertRule) (now : Q) (duration : Q) : AlertRule :=
  mkRule (name r) (severity r) (cooldown r) (last_triggered r)
         (trigger_count r) (now + duration) (kind r).

(** A notification channel.  What the transport does with an alert is
    external; the engine's side is the call [channel.send_alert(alert)]. *)
Record AlertChannel : Type := mkChannel {
  ch_name : string;
  enabled : bool
}.

(** One call of [channel.send_alert(alert)]: the channel, the alert as it
    was at the time of the call, and whether the transport was reached (a
    disabled channel returns [False] before it). *)
Record Dispatch : Type := mkDispatch {
  d_channel : string;
  d_alert : Alert;
  d_transport : bool
}.

Record SeverityCount : Type := mkSeverityCount {
  n_info : nat;
  n_warning : nat;
  n_error : nat;
  n_critical : nat
}.

Definition bump_severity (c : SeverityCount) (sev : AlertSeverity) : SeverityCount :=
  match sev with
  | INFO => mkSeverityCount (S (n_info c)) (n_warning c) (n_error c) (n_critical c)
  | WARNING => mkSeverityCount (n_info c) (S (n_warning c)) (n_error c) (n_critical c)
  | ERROR => mkSeverityCount (n_info c) (n_warning c) (S (n_error c)) (n_critical c)
  | CRITICAL => mkSeverityCount (n_info c) (n_warning c) (n_error c) (S (n_critical c))
  end.

(** [AlertingSystem].  [alerts] is the heap of alert objects: the active
    set and the history hold references into it, so an alert mutated
    through the active set is the alert the history shows. *)
Record AlertingSystem : Type := mkSystem {
  alert_rules : list AlertRule;
  alert_channels : list AlertChannel;
  alerts : list Alert;
  active_alerts : dict nat;
  alert_history : list nat;
  max_history : nat;
  total_alerts : nat;
  alerts_by_severity : SeverityCount;
  alerts_by_component : gmap string nat;
  dispatched : list Dispatch;
  ticks : nat
}.

(** [AlertingSystem.__init__] with the given rules and channels. *)
Definition new_system (rules : list AlertRule) (channels : list AlertChannel)
  : AlertingSystem :=
  mkSystem rules channels [] [] [] 1000 0 (mkSeverityCount 0 0 0 0) ∅ [] 0.

(** [_setup_default_rules] *)
Definition default_rules : list AlertRule :=
  [ new_rule "High CPU Usage" WARNING 300 (CPUAlertRule 85 300);
    new_rule "High CPU Usage" CRITICAL 300 (CPUAlertRule 95 300);
    new_rule "High Memory Usage" WARNING 300 (MemoryAlertRule 80 300);
    new_rule "High Memory Usage" CRITICAL 300 (MemoryAlertRule 90 300);
    new_rule "Low Disk Space" ERROR 600 (DiskAlertRule 85);
    new_rule "Low Disk Space" CRITICAL 600 (DiskAlertRule 95);
    new_rule "High Temperature" WARNING 300 (TemperatureAlertRule 70);
    new_rule "High Temperature" CRITICAL 300 (TemperatureAlertRule 80);
    new_rule "Mining Issues" ERROR 600 MiningAlertRule ].

Definition with_rules (s : AlertingSystem) (rules : list AlertRule) : AlertingSystem :=
  mkSystem rules (alert_channels s) (alerts s) (active_alerts s)
           (alert_history s) (max_history s) (total_alerts s)
           (alerts_by_severity s) (alerts_by_component s) (dispatched s)
           (ticks s).

Definition with_alerts (s : AlertingSystem) (heap : list Alert) : AlertingSystem :=
  mkSystem (alert_rules s) (alert_channels s) heap (active_alerts s)
           (alert_history s) (max_history s) (total_alerts s)
           (alerts_by_severity s) (alerts_by_component s) (dispatched s)
           (ticks s).

Definition with_active (s : AlertingSystem) (act : dict nat) : AlertingSystem :=
  mkSystem (alert_rules s) (alert_channels s) (alerts s) act
           (alert_history s) (max_history s) (total_alerts s)
           (alerts_by_severity s) (alerts_by_component s) (dispatched s)
           (ticks s).

Definition with_dispatched (s : AlertingSystem) (d : list Dispatch) : AlertingSystem :=
  mkSystem (alert_rules s) (alert_channels s) (alerts s) (active_alerts s)
           (alert_history s) (max_history s) (total_alerts s)
           (alerts_by_severity s) (alerts_by_component s) d (ticks s).

Definition tick (s : AlertingSystem) : AlertingSystem :=
  mkSystem (alert_rules s) (alert_channels s) (alerts s) (active_alerts s)
           (alert_history s) (max_history s) (total_alerts s)
           (alerts_by_severity s) (alerts_by_component s) (dispatched s)
           (S (ticks s)).

(** [add_alert_rule] and [add_alert_channel] *)
Definition add_alert_rule (s : AlertingSystem) (r : AlertRule) : AlertingSystem :=
  with_rules s (alert_rules s ++ [r]).

Definition add_alert_channel (s : AlertingSystem) (c : AlertChannel) : AlertingSystem :=
  mkSystem (alert_rules s) (alert_channels s ++ [c]) (alerts s) (active_alerts s)
           (alert_history s) (max_history s) (total_alerts s)
           (alerts_by_severity s) (alerts_by_component s) (dispatched s)
           (ticks s).

(** [_send_notifications]: one [send_alert] call per channel, in order. *)
Definition _send_notifications (s : AlertingSystem) (a : Alert) : AlertingSystem :=
  with_dispatched s
    (dispatched s ++ map (fun c => mkDispatch (ch_name c) a (enabled c))
                         (alert_channels s)).

(** [_handle_alert]; the new alert object gets the next free reference. *)
Definition _handle_alert (s : AlertingSystem) (alert : Alert) : AlertingSystem :=
  let ref := length (alerts s) in
  let history := alert_history s ++ [ref] in
  let history :=
    if (max_history s <? length history)%nat then tail history else history in
  let s1 :=
    mkSystem (alert_rules s) (alert_channels s) (alerts s ++ [alert])
             (dict_set (active_alerts s) (alert_id alert) ref)
             history (max_history s)
             (S (total_alerts s))
             (bump_severity (alerts_by_severity s) (alert_severity alert))
             (<[alert_component alert :=
                  S (default 0%nat (alerts_by_component s !! alert_component alert))]>
                (alerts_by_component s))
             (dispatched s) (ticks s) in
  _send_notifications s1 alert.

(** The lookup of [_check_resolved_alerts]: the first rule whose name is
    the alert's title. *)
Fixpoint find_rule (rules : list AlertRule) (title : string) : option AlertRule :=
  match rules with
  | [] => None
  | r :: rules' => if String.eqb (name r) title then Some r else find_rule rules' title
  end.

Definition resolve (a : Alert) (now : Q) : Alert :=
  mkAlert (alert_id a) (alert_title a) (alert_message a) (alert_severity a)
          RESOLVED (alert_component a) (alert_timestamp a) (Some now)
          (alert_metadata a) (suppression_duration a).

Section WithClock.

Variable clock : nat -> Q.

(** The [for alert_id, alert in self.active_alerts.items()] loop.  An
    exception of [should_trigger] leaves the loop with whatever was
    mutated so far. *)
Fixpoint check_loop (items : dict nat) (metrics : Metrics)
    (s : AlertingSystem) (resolved_alerts : list string)
  : result (list string) * AlertingSystem :=
  match items with
  | [] => (Ok resolved_alerts, s)
  | (key, ref) :: items' =>
      match alerts s !! ref with
      | None => check_loop items' metrics s resolved_alerts
      | Some alert =>
          match find_rule (alert_rules s) (alert_title alert) with
          | None => check_loop items' metrics s resolved_alerts
          | Some rule =>
              let t := clock (ticks s) in
              let s := tick s in
              match should_trigger rule metrics t with
              | Raise e => (Raise e, s)
              | Ok true => check_loop items' metrics s resolved_alerts
              | Ok false =>
                  let alert' := resolve alert (clock (ticks s)) in
                  let s := tick s in
                  let s := with_alerts s (<[ref := alert']> (alerts s)) in
                  let s := _send_notifications s alert' in
                  check_loop items' metrics s (resolved_alerts ++ [key])
              end
          end
      end
  end.

(** [_check_resolved_alerts] *)
Definition _check_resolved_alerts (s : AlertingSystem) (metrics : Metrics)
  : result unit * AlertingSystem :=
  match check_loop (active_alerts s) metrics s [] with
  | (Raise e, s') => (Raise e, s')
  | (Ok resolved_alerts, s') =>
      (Ok tt, with_active s' (fold_left dict_del resolved_alerts (active_alerts s')))
  end.

(** The [for rule in self.alert_rules] loop of [_monitoring_loop], over
    the positions of the rule list; an exception of a rule is caught and
    the loop goes on. *)
Fixpoint rules_loop (positions : list nat) (metrics : Metrics)
    (s : AlertingSystem) : AlertingSystem :=
  match positions with
  | [] => s
  | i :: positions' =>
      match alert_rules s !! i with
      | None => rules_loop positions' metrics s
      | Some rule =>
          let t := clock (ticks s) in
          let s := tick s in
          match should_trigger rule metrics t with
          | Ok true =>
              let '(rule', alert) := trigger rule (clock (ticks s)) in
              let s := tick s in
              let s := with_rules s (<[i := rule']> (alert_rules s)) in
              rules_loop positions' metrics (_handle_alert s alert)
          | Ok false | Raise _ => rules_loop positions' metrics s
          end
      end
  end.

(** One pass of the body of [_monitoring_loop] on the metrics it got; the
    outer [try] swallows an exception of the reconciliation. *)
Definition monitoring_iteration (s : AlertingSystem) (metrics : Metrics)
  : AlertingSystem :=
  let s := rules_loop (seq 0 (length (alert_rules s))) metrics s in
  snd (_check_resolved_alerts s metrics).

(** [create_manual_alert]: two clock readings, for the id and the
    timestamp. *)
Definition create_manual_alert (s : AlertingSystem) (title : string)
    (text : string) (sev : AlertSeverity) (component : string)
    (metadata : option (dict MetaValue)) : string * AlertingSystem :=
  let t_id := clock (ticks s) in
  let t_stamp := clock (S (ticks s)) in
  let s := tick (tick s) in
  let alert := mkAlert ("manual_" +:+ pretty (int_of t_id)) title (MsgText text)
                       sev ACTIVE component t_stamp None metadata None in
  (alert_id alert, _handle_alert s alert).

(** [suppress_alert_rule]: the first rule of that name is suppressed. *)
Fixpoint suppress_first (rules : list AlertRule) (rule_name : string) (now duration : Q)
  : option (list AlertRule) :=
  match rules with
  | [] => None
  | r :: rules' =>
      if String.eqb (name r) rule_name then Some (suppress r now duration :: rules')
      else option_map (cons r) (suppress_first rules' rule_name now duration)
  end.

Definition suppress_alert_rule (s : AlertingSystem) (rule_name : string)
    (duration : Q) : bool * AlertingSystem :=
  match suppress_first (alert_rules s) rule_name (clock (ticks s)) duration with
  | Some rules' => (true, with_rules (tick s) rules')
  | None => (false, s)
  end.

End WithClock.

(** [acknowledge_alert] *)
Definition acknowledge_alert (s : AlertingSystem) (key : string)
  : bool * AlertingSystem :=
  match dict_get (active_alerts s) key with
  | None => (false, s)
  | Some ref =>
      match alerts s !! ref with
      | None => (false, s)
      | Some a =>
          let a' := mkAlert (alert_id a) (alert_title a) (alert_message a)
                            (alert_severity a) SUPPRESSED (alert_component a)
                            (alert_timestamp a) (resolved_timestamp a)
                            (alert_metadata a) (Some 3600) in
          (true, with_alerts s (<[ref := a']> (alerts s)))
      end
  end.

(** How many alerts of the active set a rule name governs: the rule of an
    alert is found by the alert's title. *)
Definition governs (heap : list Alert) (n : string) (ref : nat) : bool :=
  match heap !! ref with
  | Some a => String.eqb (alert_title a) n
  | None => false
  end.

Definition count_refs (p : nat -> bool) (d : dict nat) : nat :=
  length (List.filter (fun kv => p (snd kv)) d).

Definition active_for_rule (s : AlertingSystem) (n : string) : nat :=
  count_refs (governs (alerts s) n) (active_alerts s).

(** Every reference of the active set points into the heap. *)
Definition active_in_heap (s : AlertingSystem) : Prop :=
  Forall (fun kv : string * nat => (snd kv < length (alerts s))%nat) (active_alerts s).

(** [get_alert_history]: the alerts of the history, oldest first. *)
Definition get_alert_history (s : AlertingSystem) (limit : Z) : list Alert :=
  let recent_alerts :=
    if (limit <? Z.of_nat (length (alert_history s)))%Z
    then slice_last (alert_history s) limit
    else alert_history s in
  omap (fun ref => alerts s !! ref) recent_alerts.

(** [get_active_alerts] *)
Definition get_active_alerts (s : AlertingSystem) : list Alert :=
  omap (fun kv : string * nat => alerts s !! snd kv) (active_alerts s).

(** Every reference of the history points into the heap. *)
Definition history_in_heap (s : AlertingSystem) : Prop :=
  Forall (fun ref : nat => (ref < length (alerts s))%nat) (alert_history s).

(** What the bookkeeping of the alerting system keeps true. *)
Definition consistent (s : AlertingSystem) : Prop :=
  active_in_heap s
  /\ history_in_heap s
  /\ (length (alert_history s) <= max_history s)%nat
  /\ total_alerts s
     = (n_info (alerts_by_severity s) + n_warning (alerts_by_severity s)
        + n_error (alerts_by_severity s) + n_critical (alerts_by_severity s))%nat.

(** No active alert has a rule of its title. *)
Definition ungoverned (s : AlertingSystem) : Prop :=
  Forall (fun kv : string * nat =>
            match alerts s !! snd kv with
            | Some a => find_rule (alert_rules s) (alert_title a) = None
            | None => True
            end) (active_alerts s).

End Alerting.

(** ** profit_switcher.py *)

Module ProfitSwitch.
Import Py.
Local Open Scope Q_scope.

Inductive SwitchStrategy : Type := IMMEDIATE | GRADUAL | THRESHOLD | PREDICTIVE.

Record ProfitabilityData : Type := mkData {
  algorithm : string;
  hashrate : Q;
  power_usage : Q;
  revenue_per_hour : Q;
  cost_per_hour : Q;
  profit_per_hour : Q;
  efficiency : Q;
  timestamp : Q
}.

(** The state of a [ProfitSwitcher]; [default_algorithm] is
    [config.get("default_algorithm", "sha256")]. *)
Record ProfitSwitcher : Type := mkSwitcher {
  switch_strategy : SwitchStrategy;
  switch_threshold : Q;
  min_switch_interval : Q;
  default_algorithm : string;
  current_algorithm : option string;
  profitability_data : dict ProfitabilityData;
  switch_history : list (Q * string * string);
  last_switch_time : Q
}.

(** [ProfitSwitcher.__init__] *)
Definition new_switcher (strategy : SwitchStrategy) (threshold interval : Q)
    (default : string) : ProfitSwitcher :=
  mkSwitcher strategy threshold interval default None [] [] 0.

Definition with_strategy (s : ProfitSwitcher) (strategy : SwitchStrategy)
  : ProfitSwitcher :=
  mkSwitcher strategy (switch_threshold s) (min_switch_interval s)
             (default_algorithm s) (current_algorithm s)
             (profitability_data s) (switch_history s) (last_switch_time s).

(** The assignment of [_update_profitability_data]; the figures come from
    the estimator. *)
Definition update_profitability (s : ProfitSwitcher) (d : ProfitabilityData)
  : ProfitSwitcher :=
  mkSwitcher (switch_strategy s) (switch_threshold s) (min_switch_interval s)
             (default_algorithm s) (current_algorithm s)
             (dict_set (profitability_data s) (algorithm d) d)
             (switch_history s) (last_switch_time s).

(** [_get_algorithm_history] with the default [minutes = 30]; [now] is its
    [time.time()]. *)
Definition _get_algorithm_history (s : ProfitSwitcher) (algo : string) (now : Q)
  : list Q :=
  let cutoff_time := now - (30 * 60) in
  flat_map
    (fun entry : Q * string * string =>
       let '(ts, from_algo, to_algo) := entry in
       if Qle_bool cutoff_time ts
          && (String.eqb from_algo algo || String.eqb to_algo algo)
       then match dict_get (profitability_data s) algo with
            | Some data => [profit_per_hour data]
            | None => []
            end
       else [])
    (switch_history s).

Definition Qsum (l : list Q) : Q := fold_left Qplus l 0.

(** [range(n)] as floats. *)
Definition range (n : nat) : list Q := map (fun i => inject_Z (Z.of_nat i)) (seq 0 n).

(** [_calculate_trend]: the least-squares slope over positions [0 .. n-1]. *)
Definition _calculate_trend (history : list Q) : result Q :=
  if (length history <? 2)%nat then Ok 0
  else
    let n := inject_Z (Z.of_nat (length history)) in
    let x := range (length history) in
    let sum_x := Qsum x in
    let sum_y := Qsum history in
    let sum_xy := Qsum (zip_with Qmult x history) in
    let sum_x2 := Qsum (map (fun xi => xi * xi) x) in
    truediv (n * sum_xy - sum_x * sum_y) (n * sum_x2 - sum_x * sum_x).

(** [_predictive_switch_decision]; [now_current] and [now_new] are the
    clock readings of its two history look-ups. *)
Definition _predictive_switch_decision (s : ProfitSwitcher)
    (current_data new_data : ProfitabilityData) (now_current now_new : Q)
  : result bool :=
  let current_history := _get_algorithm_history s (algorithm current_data) now_current in
  let new_history := _get_algorithm_history s (algorithm new_data) now_new in
  if (length current_history <? 3)%nat || (length new_history <? 3)%nat then
    match truediv (profit_per_hour new_data - profit_per_hour current_data)
                  (profit_per_hour current_data) with
    | Raise e => Raise e
    | Ok improvement => Ok (Qle_bool (switch_threshold s) improvement)
    end
  else
    match _calculate_trend current_history with
    | Raise e => Raise e
    | Ok current_trend =>
        match _calculate_trend new_history with
        | Raise e => Raise e
        | Ok new_trend =>
            let current_predicted := profit_per_hour current_data + current_trend * 10 in
            let new_predicted := profit_per_hour new_data + new_trend * 10 in
            Ok (Qlt_bool (current_predicted * (105 # 100)) new_predicted)
        end
    end.

(** [_should_switch]; [current_time] is the reading of the interval check,
    the two others are handed to the predictive decision. *)
Definition _should_switch (s : ProfitSwitcher) (new_algorithm : string)
    (current_time now_current now_new : Q) : result bool :=
  if negb (truthy (current_algorithm s)) then Ok true
  else if bool_decide (current_algorithm s = Some new_algorithm) then Ok false
  else if Qlt_bool (current_time - last_switch_time s) (min_switch_interval s)
  then Ok false
  else
    match current_algorithm s ≫= dict_get (profitability_data s),
          dict_get (profitability_data s) new_algorithm with
    | Some current_data, Some new_data =>
        match switch_strategy s with
        | IMMEDIATE =>
            Ok (Qlt_bool (profit_per_hour current_data) (profit_per_hour new_data))
        | THRESHOLD =>
            match truediv (profit_per_hour new_data - profit_per_hour current_data)
                          (profit_per_hour current_data) with
            | Raise e => Raise e
            | Ok improvement => Ok (Qle_bool (switch_threshold s) improvement)
            end
        | GRADUAL =>
            match truediv (profit_per_hour new_data - profit_per_hour current_data)
                          (profit_per_hour current_data) with
            | Raise e => Raise e
            | Ok improvement =>
                Ok (Qle_bool (switch_threshold s * (1 # 2)) improvement)
            end
        | PREDICTIVE =>
            _predictive_switch_decision s current_data new_data now_current now_new
        end
    | _, _ => Ok false
    end.

(** The head of [sorted(items, key=profit_per_hour, reverse=True)]: the
    sort is stable, so the first entry with the greatest profit. *)
Fixpoint best_entry (d : dict ProfitabilityData) (best : string * ProfitabilityData)
  : string * ProfitabilityData :=
  match d with
  | [] => best
  | (k, v) :: d' =>
      if Qlt_bool (profit_per_hour (snd best)) (profit_per_hour v)
      then best_entry d' (k, v) else best_entry d' best
  end.

Definition _get_default_algorithm (s : ProfitSwitcher) : string := default_algorithm s.

(** [get_best_algorithm]: it reads the state and records nothing. *)
Definition get_best_algorithm (s : ProfitSwitcher)
    (current_time now_current now_new : Q) : result string :=
  match profitability_data s with
  | [] => Ok (_get_default_algorithm s)
  | first :: rest =>
      let best_algorithm := fst (best_entry rest first) in
      match _should_switch s best_algorithm current_time now_current now_new with
      | Raise e => Raise e
      | Ok true => Ok best_algorithm
      | Ok false =>
          Ok (if truthy (current_algorithm s)
              then default "" (current_algorithm s)
              else _get_default_algorithm s)
      end
  end.

(** [record_switch]; [now_entry] stamps the log entry and [now_last]
    becomes [last_switch_time]. *)
Definition record_switch (s : ProfitSwitcher) (from_algorithm to_algorithm : string)
    (now_entry now_last : Q) : ProfitSwitcher :=
  let history := switch_history s ++ [(now_entry, from_algorithm, to_algorithm)] in
  let history :=
    if (100 <? length history)%nat then drop (length history - 100) history
    else history in
  mkSwitcher (switch_strategy s) (switch_threshold s) (min_switch_interval s)
             (default_algorithm s) (Some to_algorithm)
             (profitability_data s) history now_last.

(** The guards of [_should_switch] that precede the strategy. *)
Definition past_guards (s : ProfitSwitcher) (new_algorithm : string) (t : Q)
    (current_data new_data : ProfitabilityData) : Prop :=
  exists current : string,
    current_algorithm s = Some current /\ current <> ""
    /\ current <> new_algorithm
    /\ min_switch_interval s <= t - last_switch_time s
    /\ dict_get (profitability_data s) current = Some current_data
    /\ dict_get (profitability_data s) new_algorithm = Some new_data.

(** The strategies whose decision divides by the current profit. *)
Definition divides (s : ProfitSwitcher) (new_algorithm : string) (tc tn : Q) : Prop :=
  switch_strategy s = THRESHOLD
  \/ switch_strategy s = GRADUAL
  \/ (switch_strategy s = PREDICTIVE
      /\ forall current current_data new_data,
          current_algorithm s = Some current ->
          dict_get (profitability_data s) current = Some current_data ->
          dict_get (profitability_data s) new_algorithm = Some new_data ->
          (length (_get_algorithm_history s (algorithm current_data) tc) < 3)%nat
          \/ (length (_get_algorithm_history s (algorithm new_data) tn) < 3)%nat).

(** The log entries are at least [gap] apart, in log order. *)
Definition spaced (gap : Q) (history : list (Q * string * string)) : Prop :=
  forall (i j : nat) (e1 e2 : Q * string * string),
    (i < j)%nat -> history !! i = Some e1 -> history !! j = Some e2 ->
    gap <= fst (fst e2) - fst (fst e1).

(** The states a caller reaches who records a switch only after
    [_should_switch] accepted the candidate, with algorithm names that are
    not empty and a clock that does not run backwards. *)
Inductive guarded : ProfitSwitcher -> Prop :=
| guarded_new (strategy : SwitchStrategy) (threshold interval : Q) (default : string) :
    guarded (new_switcher strategy threshold interval default)
| guarded_update (s : ProfitSwitcher) (d : ProfitabilityData) :
    guarded s -> guarded (update_profitability s d)
| guarded_switch (s : ProfitSwitcher) (from_algorithm to_algorithm : string)
    (t now_current now_new t_entry t_last : Q) :
    guarded s ->
    to_algorithm <> "" ->
    _should_switch s to_algorithm t now_current now_new = Ok true ->
    last_switch_time s <= t -> t <= t_entry -> t_entry <= t_last ->
    guarded (record_switch s from_algorithm to_algorithm t_entry t_last).

(** What a guarded caller keeps true: the log is spaced, no entry is
    younger than [last_switch_time], and a log that is not empty comes
    with a current algorithm. *)
Definition log_invariant (s : ProfitSwitcher) : Prop :=
  spaced (min_switch_interval s) (switch_history s)
  /\ Forall (fun e : Q * string * string => fst (fst e) <= last_switch_time s)
            (switch_history s)
  /\ (switch_history s = [] \/ truthy (current_algorithm s) = true).

(** The float of a count, as in [n * sum_xy]. *)
Definition count (n : nat) : Q := inject_Z (Z.of_nat n).

(** [get_switch_history]: the newest entries of the log. *)
Definition get_switch_history (s : ProfitSwitcher) (limit : Z)
  : list (Q * string * string) :=
  slice_last (switch_history s) limit.

End ProfitSwitch.

(** ** profit_switcher.py: the switching decision on binary64 values *)

Module ProfitSwitch64.
Import Py.
Import PrimFloat.
Local Open Scope float_scope.
#[local] Set Warnings "-inexact-float".

(** [x / y] on floats: [ZeroDivisionError] at a zero divisor of either
    sign, the IEEE quotient otherwise. *)
Definition truediv (x y : float) : result float :=
  if y =? 0 then Raise ZeroDivisionError else Ok (x / y).

Record ProfitabilityData : Type := mkData {
  algorithm : string;
  hashrate : float;
  power_usage : float;
  revenue_per_hour : float;
  cost_per_hour : float;
  profit_per_hour : float;
  efficiency : float;
  timestamp : float
}.

(** The state of a [ProfitSwitcher]; a setting given as an [int] (the
    default interval 300, the initial [last_switch_time] 0) is the float
    of the same value. *)
Record ProfitSwitcher : Type := mkSwitcher {
  switch_strategy : ProfitSwitch.SwitchStrategy;
  switch_threshold : float;
  min_switch_interval : float;
  default_algorithm : string;
  current_algorithm : option string;
  profitability_data : dict ProfitabilityData;
  switch_history : list (float * string * string);
  last_switch_time : float
}.

Section Decision.

(** [_predictive_switch_decision] adds floats with the interpreter's
    [sum], whose rounding is the interpreter's own; the decision of the
    other strategies does not depend on it, and it is a parameter here
    ([ProfitSwitch._predictive_switch_decision] is its model over exact
    numbers). *)
Variable _predictive_switch_decision :
  ProfitSwitcher -> ProfitabilityData -> ProfitabilityData -> result bool.

(** [_should_switch]; [current_time] is its [time.time()]. *)
Definition _should_switch (s : ProfitSwitcher) (new_algorithm : string)
    (current_time : float) : result bool :=
  if negb (truthy (current_algorithm s)) then Ok true
  else if bool_decide (current_algorithm s = Some new_algorithm) then Ok false
  else if current_time - last_switch_time s <? min_switch_interval s
  then Ok false
  else
    match current_algorithm s ≫= dict_get (profitability_data s),
          dict_get (profitability_data s) new_algorithm with
    | Some current_data, Some new_data =>
        match switch_strategy s with
        | ProfitSwitch.IMMEDIATE =>
            Ok (profit_per_hour current_data <? profit_per_hour new_data)
        | ProfitSwitch.THRESHOLD =>
            match truediv (profit_per_hour new_data - profit_per_hour current_data)
                          (profit_per_hour current_data) with
            | Raise e => Raise e
            | Ok improvement => Ok (switch_threshold s <=? improvement)
            end
        | ProfitSwitch.GRADUAL =>
            match truediv (profit_per_hour new_data - profit_per_hour current_data)
                          (profit_per_hour current_data) with
            | Raise e => Raise e
            | Ok improvement => Ok (switch_threshold s * 0.5 <=? improvement)
            end
        | ProfitSwitch.PREDICTIVE =>
            _predictive_switch_decision s current_data new_data
        end
    | _, _ => Ok false
    end.

End Decision.

(** The guards of [_should_switch] that precede the strategy. *)
Definition past_guards (s : ProfitSwitcher) (new_algorithm : string) (t : float)
    (current_data new_data : ProfitabilityData) : Prop :=
  exists current : string,
    current_algorithm s = Some current /\ current <> ""
    /\ current <> new_algorithm
    /\ (t - last_switch_time s <? min_switch_interval s) = false
    /\ dict_get (profitability_data s) current = Some current_data
    /\ dict_get (profitability_data s) new_algorithm = Some new_data.

End ProfitSwitch64.

(** ** resource_monitor.py: the scaling policies *)

Module Scaling.
Import Py.
Local Open Scope Q_scope.

(** The fields of [ResourceMetrics] that the policies read. *)
Record ResourceMetrics : Type := mkMetrics {
  timestamp : Q;
  cpu_percent : Q;
  memory_percent : Q;
  disk_percent : Q;
  temperature : Q
}.

(** The miner's configuration object.  [mkConfig] is an object with
    attributes (one may be missing) that accepts [setattr]; [DictConfig]
    is a [dict], as [load_config] returns it and [AdvancedMiner] keeps it:
    it has no attribute of these names and rejects [setattr] with
    [AttributeError]. *)
Inductive MinerConfig : Type :=
| mkConfig (cpu_threads : option Z) (intensity : option Q)
| DictConfig.

(** [getattr(config, 'cpu_threads', None)] and the like. *)
Definition cpu_threads (cfg : MinerConfig) : option Z :=
  match cfg with
  | mkConfig threads _ => threads
  | DictConfig => None
  end.

Definition intensity (cfg : MinerConfig) : option Q :=
  match cfg with
  | mkConfig _ level => level
  | DictConfig => None
  end.

(** [setattr(config, 'cpu_threads', v)] and [setattr(config, 'intensity',
    v)]; [None] when the assignment raises. *)
Definition set_cpu_threads (cfg : MinerConfig) (v : Z) : option MinerConfig :=
  match cfg with
  | mkConfig _ level => Some (mkConfig (Some v) level)
  | DictConfig => None
  end.

Definition set_intensity (cfg : MinerConfig) (v : Q) : option MinerConfig :=
  match cfg with
  | mkConfig threads _ => Some (mkConfig threads (Some v))
  | DictConfig => None
  end.

(** What the actions touch: the miner ([config] is [None] when the miner
    has no such attribute) and the collector. *)
Record Environment : Type := mkEnv {
  config : option MinerConfig;
  gc_passes : nat
}.

Inductive PolicyKind : Type :=
| CPUScalingPolicy (max_threads : Z) (original_threads : option Z)
| MemoryScalingPolicy
| IntensityScalingPolicy (original_intensity : option Q).

(** [miner_instance] tells whether the policy was given a miner. *)
Record ScalingPolicy : Type := mkPolicy {
  name : string;
  threshold : Q;
  cooldown : Q;
  last_action : Q;
  action_count : nat;
  miner_instance : bool;
  kind : PolicyKind
}.

(** The three constructors. *)
Definition new_cpu_policy (miner : bool) (max_threads : Z) : ScalingPolicy :=
  mkPolicy "cpu_scaling" 85 120 0 0 miner (CPUScalingPolicy max_threads None).

Definition new_memory_policy : ScalingPolicy :=
  mkPolicy "memory_scaling" 80 180 0 0 false MemoryScalingPolicy.

Definition new_intensity_policy (miner : bool) : ScalingPolicy :=
  mkPolicy "intensity_scaling" 75 240 0 0 miner (IntensityScalingPolicy None).

Definition with_kind (p : ScalingPolicy) (k : PolicyKind) : ScalingPolicy :=
  mkPolicy (name p) (threshold p) (cooldown p) (last_action p) (action_count p)
           (miner_instance p) k.

Definition _evaluate_condition (p : ScalingPolicy) (metrics : ResourceMetrics) : bool :=
  match kind p with
  | CPUScalingPolicy _ _ => Qlt_bool (threshold p) (cpu_percent metrics)
  | MemoryScalingPolicy => Qlt_bool (threshold p) (memory_percent metrics)
  | IntensityScalingPolicy _ =>
      Qlt_bool (threshold p) (cpu_percent metrics)
      || Qlt_bool (threshold p) (memory_percent metrics)
  end.

(** [should_scale]; [now] is its [time.time()]. *)
Definition should_scale (p : ScalingPolicy) (metrics : ResourceMetrics) (now : Q)
  : bool :=
  if Qlt_bool (now - last_action p) (cooldown p) then false
  else _evaluate_condition p metrics.

(** [_scale_action] of the three subclasses.  When [setattr] raises, the
    [except] clause of the method returns [False]; the original value has
    been stored in the policy by then. *)
Definition _scale_action (p : ScalingPolicy) (metrics : ResourceMetrics)
    (env : Environment) : bool * ScalingPolicy * Environment :=
  match kind p with
  | CPUScalingPolicy max_threads original_threads =>
      match miner_instance p, config env with
      | true, Some cfg =>
          let original_threads :=
            match original_threads with
            | None => Some (default 4%Z (cpu_threads cfg))
            | Some o => Some o
            end in
          let p := with_kind p (CPUScalingPolicy max_threads original_threads) in
          let current_threads := default 4%Z (cpu_threads cfg) in
          let new_threads := Z.max 1 (current_threads - 1) in
          if negb (new_threads =? current_threads)%Z
          then match set_cpu_threads cfg new_threads with
               | Some cfg' => (true, p, mkEnv (Some cfg') (gc_passes env))
               | None => (false, p, env)
               end
          else (false, p, env)
      | _, _ => (false, p, env)
      end
  | MemoryScalingPolicy =>
      (true, p, mkEnv (config env) (S (S (gc_passes env))))
  | IntensityScalingPolicy original_intensity =>
      match miner_instance p, config env with
      | true, Some cfg =>
          let original_intensity :=
            match original_intensity with
            | None => Some (default (8 # 10) (intensity cfg))
            | Some o => Some o
            end in
          let p := with_kind p (IntensityScalingPolicy original_intensity) in
          let current_intensity := default (8 # 10) (intensity cfg) in
          let new_intensity := Qmax (3 # 10) (current_intensity * (9 # 10)) in
          if negb (Qeq_bool new_intensity current_intensity)
          then match set_intensity cfg new_intensity with
               | Some cfg' => (true, p, mkEnv (Some cfg') (gc_passes env))
               | None => (false, p, env)
               end
          else (false, p, env)
      | _, _ => (false, p, env)
      end
  end.

(** [execute_scale]; [now_check] is the reading of [should_scale] and
    [now_done] the one stored in [last_action] after a success. *)
Definition execute_scale (p : ScalingPolicy) (metrics : ResourceMetrics)
    (env : Environment) (now_check now_done : Q)
  : bool * ScalingPolicy * Environment :=
  if should_scale p metrics now_check then
    let '(success, p', env') := _scale_action p metrics env in
    if success
    then (true,
          mkPolicy (name p') (threshold p') (cooldown p') now_done
                   (S (action_count p')) (miner_instance p') (kind p'),
          env')
    else (false, p', env')
  else (false, p, env).

Inductive ResourceStatus : Type := NORMAL | WARNING | CRITICAL | OVERLOADED.

(** One line of [_determine_status]: some reading is above its limit. *)
Definition above (usage_limit temp_limit cpu memory disk temp : Q) : bool :=
  Qlt_bool usage_limit cpu || Qlt_bool usage_limit memory
  || Qlt_bool usage_limit disk || Qlt_bool temp_limit temp.

(** [_determine_status] *)
Definition _determine_status (cpu memory disk temp : Q) : ResourceStatus :=
  if above 95 85 cpu memory disk temp then OVERLOADED
  else if above 85 75 cpu memory disk temp then CRITICAL
  else if above 70 60 cpu memory disk temp then WARNING
  else NORMAL.

(** The monitor: its settings ([has_logger] tells whether a production
    logger is installed), the bounded sample history, the policies, the
    counters, the miner's environment and the clock position. *)
Record ResourceMonitor : Type := mkMonitor {
  enable_auto_scaling : bool;
  has_logger : bool;
  metrics_history : list ResourceMetrics;
  max_history : nat;
  scaling_policies : list ScalingPolicy;
  total_metrics : nat;
  alert_count : nat;
  scale_actions : nat;
  environment : Environment;
  ticks : nat
}.

(** [ResourceMonitor.__init__] *)
Definition new_monitor (auto_scaling logger : bool) (env : Environment)
  : ResourceMonitor :=
  mkMonitor auto_scaling logger [] 3600 [] 0 0 0 env 0.

(** [add_scaling_policy] *)
Definition add_scaling_policy (m : ResourceMonitor) (p : ScalingPolicy)
  : ResourceMonitor :=
  mkMonitor (enable_auto_scaling m) (has_logger m) (metrics_history m)
            (max_history m) (scaling_policies m ++ [p]) (total_metrics m)
            (alert_count m) (scale_actions m) (environment m) (ticks m).

(** The loop of [_execute_scaling_policies]: [execute_scale] reads the
    clock once, and once more after a success. *)
Fixpoint policies_loop (clock : nat -> Q) (todo seen : list ScalingPolicy)
    (metrics : ResourceMetrics) (count : nat) (env : Environment) (n : nat)
  : list ScalingPolicy * nat * Environment * nat :=
  match todo with
  | [] => (seen, count, env, n)
  | p :: todo' =>
      let '(success, p', env') :=
        execute_scale p metrics env (clock n) (clock (S n)) in
      if success
      then policies_loop clock todo' (seen ++ [p']) metrics (S count) env' (S (S n))
      else policies_loop clock todo' (seen ++ [p']) metrics count env' (S n)
  end.

Definition _execute_scaling_policies (clock : nat -> Q) (m : ResourceMonitor)
    (metrics : ResourceMetrics) : ResourceMonitor :=
  let '(policies, count, env, n) :=
    policies_loop clock (scaling_policies m) [] metrics (scale_actions m)
                  (environment m) (ticks m) in
  mkMonitor (enable_auto_scaling m) (has_logger m) (metrics_history m)
            (max_history m) policies (total_metrics m) (alert_count m)
            count env n.

(** [_check_alerts] with the thresholds of [__init__]: whether the list of
    alert texts is not empty. *)
Definition any_alert (metrics : ResourceMetrics) : bool :=
  Qlt_bool 90 (cpu_percent metrics)
  || Qlt_bool 85 (memory_percent metrics)
  || Qlt_bool 90 (disk_percent metrics)
  || (Qlt_bool 0 (temperature metrics) && Qlt_bool 75 (temperature metrics)).

Definition _check_alerts (m : ResourceMonitor) (metrics : ResourceMetrics)
  : ResourceMonitor :=
  if any_alert metrics && has_logger m
  then mkMonitor (enable_auto_scaling m) (has_logger m) (metrics_history m)
                 (max_history m) (scaling_policies m) (total_metrics m)
                 (S (alert_count m)) (scale_actions m) (environment m) (ticks m)
  else m.

(** [_process_metrics] *)
Definition _process_metrics (clock : nat -> Q) (m : ResourceMonitor)
    (metrics : ResourceMetrics) : ResourceMonitor :=
  let history := metrics_history m ++ [metrics] in
  let history :=
    if (max_history m <? length history)%nat then tail history else history in
  let m := mkMonitor (enable_auto_scaling m) (has_logger m) history
                     (max_history m) (scaling_policies m) (S (total_metrics m))
                     (alert_count m) (scale_actions m) (environment m) (ticks m) in
  let m := _check_alerts m metrics in
  if enable_auto_scaling m then _execute_scaling_policies clock m metrics else m.

(** [get_current_metrics] *)
Definition get_current_metrics (m : ResourceMonitor) : option ResourceMetrics :=
  last (metrics_history m).

(** The dictionary that [get_average_metrics] returns. *)
Record Averages : Type := mkAverages {
  avg_cpu_percent : Q;
  avg_memory_percent : Q;
  avg_disk_percent : Q;
  avg_temperature : Q;
  sample_count : nat
}.

(** [sum(...)] over floats and [len(...)] as a float. *)
Definition fsum (l : list Q) : Q := fold_left Qplus l 0.

Definition flen {A} (l : list A) : Q := inject_Z (Z.of_nat (length l)).

(** [get_average_metrics]; [now] is its [time.time()].  The entries of the
    dictionary are computed in order; the temperature entry divides by
    the number of samples with a positive temperature. *)
Definition get_average_metrics (m : ResourceMonitor) (duration_minutes : Q) (now : Q)
  : result (option Averages) :=
  match metrics_history m with
  | [] => Ok None
  | _ =>
      let cutoff_time := now - duration_minutes * 60 in
      let recent_metrics :=
        List.filter (fun x => Qlt_bool cutoff_time (timestamp x)) (metrics_history m) in
      match recent_metrics with
      | [] => Ok None
      | _ =>
          match truediv (fsum (map cpu_percent recent_metrics)) (flen recent_metrics),
                truediv (fsum (map memory_percent recent_metrics)) (flen recent_metrics),
                truediv (fsum (map disk_percent recent_metrics)) (flen recent_metrics)
          with
          | Ok cpu, Ok memory, Ok disk =>
              let warm :=
                List.filter (fun t => Qlt_bool 0 t) (map temperature recent_metrics) in
              match truediv (fsum warm) (flen warm) with
              | Raise e => Raise e
              | Ok temp =>
                  Ok (Some (mkAverages cpu memory disk
                              (if Qeq_bool temp 0 then 0 else temp)
                              (length recent_metrics)))
              end
          | Raise e, _, _ | _, Raise e, _ | _, _, Raise e => Raise e
          end
      end
  end.

(** The order of the four statuses. *)
Definition rank (st : ResourceStatus) : nat :=
  match st with
  | NORMAL => 0
  | WARNING => 1
  | CRITICAL => 2
  | OVERLOADED => 3
  end.

(** The miner has a thread count between 1 and [n] and an intensity between
    0.3 and [x]. *)
Definition within_floors (n : Z) (x : Q) (env : Environment) : Prop :=
  exists (n' : Z) (x' : Q),
    config env = Some (mkConfig (Some n') (Some x'))
    /\ (1 <= n' <= n)%Z /\ 3 # 10 <= x' /\ x' <= x.

End Scaling.

(** ** error_recovery.py *)

Module Recovery.
Import Py.
Local Open Scope Q_scope.

Inductive ErrorSeverity : Type := LOW | MEDIUM | HIGH | CRITICAL.

(** A reported exception: [type(error).__name__], [str(error)] and the
    text of [traceback.format_exc()]. *)
Record PyError : Type := mkError {
  error_type : string;
  error_text : string;
  error_trace : string
}.

Record ErrorEvent : Type := mkEvent {
  timestamp : Q;
  severity : ErrorSeverity;
  component : string;
  message : string;
  exception : PyError;
  traceback_str : string;
  recovery_attempts : nat;
  resolved : bool
}.

(** What a subclass's [_recover] does to the miner, the wallet or the file
    system is external; its outcome is an input. *)
Inductive RecoverOutcome : Type :=
| Recovered
| NotRecovered
| Raised (e : PyExn).

Record RecoveryAction : Type := mkAction {
  name : string;
  max_attempts : Z;
  cooldown : Q;
  last_attempt : Q;
  success_count : nat;
  failure_count : nat
}.

(** [RecoveryAction.__init__] *)
Definition new_action (n : string) (attempts : Z) (cd : Q) : RecoveryAction :=
  mkAction n attempts cd 0 0 0.

(** [can_attempt]; [now] is its [time.time()]. *)
Definition can_attempt (a : RecoveryAction) (now : Q) : bool :=
  Qlt_bool (cooldown a) (now - last_attempt a)
  && (Z.of_nat (failure_count a) <? max_attempts a)%Z.

(** [execute]: [now_check] is the reading of [can_attempt], [now_attempt]
    the one stored in [last_attempt], [outcome] what [_recover] does if it
    is run.  The third component tells whether [_recover] was run. *)
Definition execute (a : RecoveryAction) (now_check now_attempt : Q)
    (outcome : RecoverOutcome) : result bool * RecoveryAction * bool :=
  if negb (can_attempt a now_check) then (Ok false, a, false)
  else
    match outcome with
    | Recovered =>
        (Ok true,
         mkAction (name a) (max_attempts a) (cooldown a) now_attempt
                  (S (success_count a)) (failure_count a), true)
    | NotRecovered =>
        (Ok false,
         mkAction (name a) (max_attempts a) (cooldown a) now_attempt
                  (success_count a) (S (failure_count a)), true)
    | Raised e =>
        (Raise e,
         mkAction (name a) (max_attempts a) (cooldown a) now_attempt
                  (success_count a) (S (failure_count a)), true)
    end.

(** The outside of the manager: the clock, the outcome of each [_recover]
    run and the [psutil] readings ([None]: the probe raised), all indexed by
    the position of the request in the run. *)
Record World : Type := mkWorld {
  clock : nat -> Q;
  recover : string -> nat -> RecoverOutcome;
  probe : nat -> option Q
}.

(** What the manager did with an action for an error: it found the action
    ineligible ([can_attempt] answered [False] in [_attempt_recovery]), it
    called [action.execute(error)] with the given result, or [execute] ran
    [_recover].  [err] identifies the error event by the position of the
    clock reading that stamped it. *)
Inductive Event : Type :=
| Ineligible (action : nat) (err : nat)
| Executed (action : nat) (err : nat) (res : result bool)
| Ran (action : nat) (err : nat) (outcome : RecoverOutcome).

(** [ErrorRecoveryManager].  [actions] is the heap of action objects: an
    action registered for two components is one object. *)
Record ErrorRecoveryManager : Type := mkManager {
  actions : list RecoveryAction;
  recovery_actions : list nat;
  component_recoveries : gmap string (list nat);
  error_history : list ErrorEvent;
  max_history : nat;
  error_patterns : gmap string nat;
  total_errors : nat;
  resolved_errors : nat;
  critical_errors : nat;
  trace : list Event;
  ticks : nat
}.

(** [ErrorRecoveryManager.__init__] *)
Definition new_manager : ErrorRecoveryManager :=
  mkManager [] [] ∅ [] 1000 ∅ 0 0 0 [] 0.

Definition tick (s : ErrorRecoveryManager) : ErrorRecoveryManager :=
  mkManager (actions s) (recovery_actions s) (component_recoveries s)
            (error_history s) (max_history s) (error_patterns s)
            (total_errors s) (resolved_errors s) (critical_errors s)
            (trace s) (S (ticks s)).

Definition with_action (s : ErrorRecoveryManager) (ref : nat) (a : RecoveryAction)
    (events : list Event) : ErrorRecoveryManager :=
  mkManager (<[ref := a]> (actions s)) (recovery_actions s) (component_recoveries s)
            (error_history s) (max_history s) (error_patterns s)
            (total_errors s) (resolved_errors s) (critical_errors s)
            (trace s ++ events) (ticks s).

(** Allocation of an action object, and [register_recovery_action]. *)
Definition allocate (s : ErrorRecoveryManager) (a : RecoveryAction)
  : nat * ErrorRecoveryManager :=
  (length (actions s),
   mkManager (actions s ++ [a]) (recovery_actions s) (component_recoveries s)
             (error_history s) (max_history s) (error_patterns s)
             (total_errors s) (resolved_errors s) (critical_errors s)
             (trace s) (ticks s)).

Definition register_recovery_action (s : ErrorRecoveryManager) (ref : nat)
    (comp : string) : ErrorRecoveryManager :=
  mkManager (actions s) (recovery_actions s ++ [ref])
            (<[comp := default [] (component_recoveries s !! comp) ++ [ref]]>
               (component_recoveries s))
            (error_history s) (max_history s) (error_patterns s)
            (total_errors s) (resolved_errors s) (critical_errors s)
            (trace s) (ticks s).

(** The list comprehension of [_should_attempt_recovery]: the clock is
    read once per history entry. *)
Fixpoint recent_errors (w : World) (history : list ErrorEvent) (n : nat)
  : list ErrorEvent * nat :=
  match history with
  | [] => ([], n)
  | e :: history' =>
      let '(rest, n') := recent_errors w history' (S n) in
      (if Qlt_bool (clock w n - timestamp e) 300 then e :: rest else rest, n')
  end.

(** [_should_attempt_recovery] *)
Definition _should_attempt_recovery (w : World) (s : ErrorRecoveryManager)
    (error : ErrorEvent) : bool * ErrorRecoveryManager :=
  match severity error with
  | CRITICAL => (false, s)
  | _ =>
      let '(recent, n) := recent_errors w (error_history s) (ticks s) in
      let s := mkManager (actions s) (recovery_actions s) (component_recoveries s)
                         (error_history s) (max_history s) (error_patterns s)
                         (total_errors s) (resolved_errors s) (critical_errors s)
                         (trace s) n in
      (negb (10 <? length recent)%nat, s)
  end.

Definition log (s : ErrorRecoveryManager) (events : list Event)
  : ErrorRecoveryManager :=
  mkManager (actions s) (recovery_actions s) (component_recoveries s)
            (error_history s) (max_history s) (error_patterns s)
            (total_errors s) (resolved_errors s) (critical_errors s)
            (trace s ++ events) (ticks s).

(** [action.execute(error)] on the action object [a] at reference [ref],
    for error [err]: three requests to the outside when the remediation
    runs (two clock readings and [_recover]), one otherwise. *)
Definition run_execute (w : World) (ref : nat) (a : RecoveryAction) (err : nat)
    (s : ErrorRecoveryManager) : result bool * ErrorRecoveryManager :=
  let n := ticks s in
  let outcome := recover w (name a) (S (S n)) in
  let '(res, a', ran) := execute a (clock w n) (clock w (S n)) outcome in
  if ran
  then (res, tick (tick (tick
              (with_action s ref a' [Ran ref err outcome; Executed ref err res]))))
  else (res, tick (with_action s ref a' [Executed ref err res])).

(** One of the two [for action in ...] loops of [_attempt_recovery]: [true]
    when an action recovered and the method returned.  A reference without
    an object cannot come out of [register_recovery_action]; it is stepped
    over like an ineligible action. *)
Fixpoint try_actions (w : World) (refs : list nat) (err : nat)
    (s : ErrorRecoveryManager) : bool * ErrorRecoveryManager :=
  match refs with
  | [] => (false, s)
  | ref :: refs' =>
      match actions s !! ref with
      | None => try_actions w refs' err (log s [Ineligible ref err])
      | Some a =>
          let now := clock w (ticks s) in
          let s := tick s in
          if can_attempt a now then
            match run_execute w ref a err s with
            | (Ok true, s') => (true, s')
            | (_, s') => try_actions w refs' err s'
            end
          else try_actions w refs' err (log s [Ineligible ref err])
      end
  end.

(** [error.resolved = True], [self.resolved_errors += 1] and
    [error.recovery_attempts += 1]; the error event being handled is the
    newest entry of the history. *)
Definition mark_resolved (s : ErrorRecoveryManager) : ErrorRecoveryManager :=
  let history :=
    match last (error_history s) with
    | None => error_history s
    | Some e =>
        <[pred (length (error_history s)) :=
            mkEvent (timestamp e) (severity e) (component e) (message e)
                    (exception e) (traceback_str e)
                    (S (recovery_attempts e)) true]> (error_history s)
    end in
  mkManager (actions s) (recovery_actions s) (component_recoveries s)
            history (max_history s) (error_patterns s)
            (total_errors s) (S (resolved_errors s)) (critical_errors s)
            (trace s) (ticks s).

(** [_attempt_recovery]: the component's actions, then the general ones. *)
Definition _attempt_recovery (w : World) (s : ErrorRecoveryManager)
    (error : ErrorEvent) (err : nat) : ErrorRecoveryManager :=
  let component_actions := default [] (component_recoveries s !! component error) in
  let general_actions := default [] (component_recoveries s !! "general") in
  match try_actions w component_actions err s with
  | (true, s') => mark_resolved s'
  | (false, s') =>
      match try_actions w general_actions err s' with
      | (true, s'') => mark_resolved s''
      | (false, s'') => s''
      end
  end.

(** The first part of [handle_error]: counters, the new event stamped by
    the clock, the pattern count and the bounded history. *)
Definition record_error (w : World) (s : ErrorRecoveryManager) (comp : string)
    (error : PyError) (sev : ErrorSeverity) : ErrorEvent * ErrorRecoveryManager :=
  let error_event :=
    mkEvent (clock w (ticks s)) sev comp (error_text error) error
            (error_trace error) 0 false in
  let history := error_history s ++ [error_event] in
  let history :=
    if (max_history s <? length history)%nat then tail history else history in
  (error_event,
   mkManager (actions s) (recovery_actions s) (component_recoveries s)
             history (max_history s)
             (<[error_type error :=
                  S (default 0%nat (error_patterns s !! error_type error))]>
                (error_patterns s))
             (S (total_errors s)) (resolved_errors s)
             (match sev with
              | CRITICAL => S (critical_errors s)
              | _ => critical_errors s
              end)
             (trace s) (S (ticks s))).

(** The recovery step of [handle_error] for the event stamped at [err]. *)
Definition recovery_step (w : World) (s : ErrorRecoveryManager)
    (error_event : ErrorEvent) (err : nat) : ErrorRecoveryManager :=
  match _should_attempt_recovery w s error_event with
  | (true, s') => _attempt_recovery w s' error_event err
  | (false, s') => s'
  end.

(** One probe of [_check_system_health] and the nested report.  [false]:
    an exception reached the [except] of the health check, which ends it. *)
Definition health_probe (w : World)
    (handle : string -> PyError -> ErrorSeverity -> ErrorRecoveryManager ->
              result ErrorRecoveryManager)
    (limit : Q) (text : string) (s : ErrorRecoveryManager)
  : bool * ErrorRecoveryManager :=
  match probe w (ticks s) with
  | None => (false, tick s)
  | Some percent =>
      let s := tick s in
      if Qlt_bool limit percent then
        match handle "system" (mkError "Exception" text "") HIGH s with
        | Ok s' => (true, s')
        | Raise _ => (false, s)
        end
      else (true, s)
  end.

(** [_check_system_health]: memory, CPU, disk; the text of the reported
    exception is kept without the measured percentage. *)
Definition _check_system_health (w : World)
    (handle : string -> PyError -> ErrorSeverity -> ErrorRecoveryManager ->
              result ErrorRecoveryManager)
    (s : ErrorRecoveryManager) : ErrorRecoveryManager :=
  match health_probe w handle 90 "High memory usage" s with
  | (false, s1) => s1
  | (true, s1) =>
      match health_probe w handle 95 "High CPU usage" s1 with
      | (false, s2) => s2
      | (true, s2) => snd (health_probe w handle 95 "Low disk space" s2)
      end
  end.

(** [handle_error].  [depth] is the room left on the interpreter's call
    stack: the health check reports into [handle_error] again, and a
    report that would exceed the stack raises [RecursionError], which the
    health check that made it catches. *)
Fixpoint handle_error (depth : nat) (w : World) (comp : string) (error : PyError)
    (sev : ErrorSeverity) (s : ErrorRecoveryManager) : result ErrorRecoveryManager :=
  match depth with
  | O => Raise RecursionError
  | S depth' =>
      let err := ticks s in
      let '(error_event, s1) := record_error w s comp error sev in
      let s2 := recovery_step w s1 error_event err in
      Ok (_check_system_health w (handle_error depth' w) s2)
  end.

(** A sequence of reports, each at call depth [depth]; a report that the
    stack cannot take leaves the manager as it was. *)
Fixpoint handle_errors (depth : nat) (w : World)
    (reports : list (string * PyError * ErrorSeverity))
    (s : ErrorRecoveryManager) : ErrorRecoveryManager :=
  match reports with
  | [] => s
  | (comp, error, sev) :: reports' =>
      handle_errors depth w reports'
        match handle_error depth w comp error sev s with
        | Ok s' => s'
        | Raise _ => s
        end
  end.

(** Reading the trace. *)
Definition error_of (ev : Event) : nat :=
  match ev with
  | Ineligible _ err | Executed _ err _ | Ran _ err _ => err
  end.

(** The invocations of the action at [ref]: the calls of its [execute] and
    the runs of its [_recover]. *)
Definition invocations_of (ref : nat) (events : list Event) : list Event :=
  List.filter (fun ev => match ev with
                         | Executed r _ _ | Ran r _ _ => (r =? ref)%nat
                         | Ineligible _ _ => false
                         end) events.

(** The actions that [_attempt_recovery] went through for error [err], in
    order, each with whether its [execute] returned success. *)
Definition visit (err : nat) (ev : Event) : option (nat * bool) :=
  match ev with
  | Ineligible r e => if (e =? err)%nat then Some (r, false) else None
  | Executed r e (Ok true) => if (e =? err)%nat then Some (r, true) else None
  | Executed r e _ => if (e =? err)%nat then Some (r, false) else None
  | Ran _ _ _ => None
  end.

Definition visits (err : nat) (events : list Event) : list (nat * bool) :=
  omap (visit err) events.

(** [visited refs vs b]: the visits [vs] go through [refs] in order and stop
    at the first success; [b] tells whether there was one. *)
Inductive visited : list nat -> list (nat * bool) -> bool -> Prop :=
| visited_all : visited [] [] false
| visited_next (r : nat) (refs : list nat) (vs : list (nat * bool)) (b : bool) :
    visited refs vs b -> visited (r :: refs) ((r, false) :: vs) b
| visited_stop (r : nat) (refs : list nat) :
    visited (r :: refs) [(r, true)] true.

(** From [s] to [s'] the action object at [ref] stayed [a] and was not
    invoked. *)
Definition untouched (ref : nat) (a : RecoveryAction)
    (s s' : ErrorRecoveryManager) : Prop :=
  actions s' !! ref = Some a /\ invocations_of ref (trace s') = invocations_of ref (trace s).

(** From [s] to [s'] the clock position did not go back and the trace grew
    by events of errors stamped at position [lo] or later. *)
Definition extends (lo : nat) (s s' : ErrorRecoveryManager) : Prop :=
  (ticks s <= ticks s')%nat
  /\ exists new : list Event,
      trace s' = trace s ++ new
      /\ Forall (fun ev => (lo <= error_of ev)%nat) new.

(** What a step of the recovery for error [err] adds: events of that error,
    with the clock position not going back and the registrations kept. *)
Definition grows (err : nat) (s s' : ErrorRecoveryManager) (new : list Event) : Prop :=
  trace s' = trace s ++ new
  /\ Forall (fun ev => error_of ev = err) new
  /\ (ticks s <= ticks s')%nat
  /\ component_recoveries s' = component_recoveries s.

(** What [action.execute(error)] leaves in the trace. *)
Definition execute_events (ref err : nat) (outcome : RecoverOutcome)
    (res : result bool) (ran : bool) : list Event :=
  if ran then [Ran ref err outcome; Executed ref err res]
  else [Executed ref err res].

(** One pass over the registered actions [refs] for error [err], told by
    the methods of the actions: [heap] holds the action objects and [n] is
    the clock position at the start; [events] is what the manager did,
    [b] whether an action recovered, [heap'] and [n'] the objects and the
    clock position at the end.  An action whose [can_attempt] answers
    [False] is skipped; any other has its [execute] called, which reads
    the clock twice more and runs [_recover]; the pass stops at the first
    [execute] that returns [True]. *)
Inductive attempts (w : World) (err : nat)
  : list nat -> list RecoveryAction -> nat -> list Event -> bool ->
    list RecoveryAction -> nat -> Prop :=
| attempts_done (heap : list RecoveryAction) (n : nat) :
    attempts w err [] heap n [] false heap n
| attempts_skip (r : nat) (refs : list nat) (heap : list RecoveryAction) (n : nat)
    (a : RecoveryAction) (events : list Event) (b : bool)
    (heap' : list RecoveryAction) (n' : nat) :
    heap !! r = Some a ->
    can_attempt a (clock w n) = false ->
    attempts w err refs heap (S n) events b heap' n' ->
    attempts w err (r :: refs) heap n (Ineligible r err :: events) b heap' n'
| attempts_stop (r : nat) (refs : list nat) (heap : list RecoveryAction) (n : nat)
    (a a' : RecoveryAction) (ran : bool) :
    heap !! r = Some a ->
    can_attempt a (clock w n) = true ->
    execute a (clock w (S n)) (clock w (S (S n)))
            (recover w (name a) (S (S (S n))))
    = (Ok true, a', ran) ->
    attempts w err (r :: refs) heap n
             (execute_events r err (recover w (name a) (S (S (S n)))) (Ok true) ran)
             true (<[r := a']> heap) (if ran then 4 + n else 2 + n)
| attempts_next (r : nat) (refs : list nat) (heap : list RecoveryAction) (n : nat)
    (a a' : RecoveryAction) (res : result bool) (ran : bool)
    (events : list Event) (b : bool) (heap' : list RecoveryAction) (n' : nat) :
    heap !! r = Some a ->
    can_attempt a (clock w n) = true ->
    execute a (clock w (S n)) (clock w (S (S n)))
            (recover w (name a) (S (S (S n))))
    = (res, a', ran) ->
    res <> Ok true ->
    attempts w err refs (<[r := a']> heap) (if ran then 4 + n else 2 + n)
             events b heap' n' ->
    attempts w err (r :: refs) heap n
             (execute_events r err (recover w (name a) (S (S (S n)))) res ran
              ++ events)
             b heap' n'.

(** An action whose failures have reached its ceiling. *)
Definition exhausted (a : RecoveryAction) : Prop :=
  (max_attempts a <= Z.of_nat (failure_count a))%Z.

(** The burst count in the specification's words: the events of one
    component within the last 5 minutes. *)
Definition component_recent (comp : string) (now : Q) (history : list ErrorEvent)
  : nat :=
  length (List.filter
            (fun e => String.eqb (component e) comp
                      && Qlt_bool (now - timestamp e) 300)
            history).

(** [ReduceResourceUsageRecovery._recover] on the miner's environment:
    halve the threads (floor division, not below 1) when there are more
    than 1, lower an intensity above 0.5 to 80 %; [miner] tells whether
    the action was given a miner.  On a [dict] both [hasattr] tests fail
    and nothing is assigned. *)
Definition reduce_resources (miner : bool) (env : Scaling.Environment)
  : bool * Scaling.Environment :=
  match miner, Scaling.config env with
  | true, Some (Scaling.mkConfig threads level) =>
      let threads :=
        match threads with
        | Some n => if (1 <? n)%Z then Some (Z.max 1 (n / 2)) else Some n
        | None => None
        end in
      let level :=
        match level with
        | Some x => if Qlt_bool (5 # 10) x then Some (x * (8 # 10)) else Some x
        | None => None
        end in
      (true, Scaling.mkEnv (Some (Scaling.mkConfig threads level))
                           (Scaling.gc_passes env))
  | true, Some Scaling.DictConfig => (true, env)
  | _, _ => (false, env)
  end.

(** The ["recovery_rate"] entry of [get_stats]. *)
Definition recovery_rate (s : ErrorRecoveryManager) : result Q :=
  match truediv (inject_Z (Z.of_nat (resolved_errors s)))
                (inject_Z (Z.of_nat (Nat.max 1 (total_errors s)))) with
  | Ok ratio => Ok (ratio * 100)
  | Raise e => Raise e
  end.

(** What the counters of the manager keep true. *)
Definition counters_ok (s : ErrorRecoveryManager) : Prop :=
  (resolved_errors s <= total_errors s)%nat
  /\ (critical_errors s <= total_errors s)%nat
  /\ (length (error_history s) <= max_history s)%nat.

(** The books of the manager (history and counters) from [s] to [s']: the
    history bound is kept, and neither the resolved nor the critical
    errors have grown by more than the total. *)
Definition books_advance (s s' : ErrorRecoveryManager) : Prop :=
  max_history s' = max_history s
  /\ (total_errors s <= total_errors s')%nat
  /\ (resolved_errors s' + total_errors s <= total_errors s' + resolved_errors s)%nat
  /\ (critical_errors s' + total_errors s <= total_errors s' + critical_errors s)%nat
  /\ ((length (error_history s) <= max_history s)%nat ->
      (length (error_history s') <= max_history s')%nat).

(** The books are the same in [s] and [s']. *)
Definition same_books (s s' : ErrorRecoveryManager) : Prop :=
  error_history s' = error_history s
  /\ max_history s' = max_history s
  /\ total_errors s' = total_errors s
  /\ resolved_errors s' = resolved_errors s
  /\ critical_errors s' = critical_errors s.

(** The error event after a successful recovery. *)
Definition resolved_event (e : ErrorEvent) : ErrorEvent :=
  mkEvent (timestamp e) (severity e) (component e) (message e) (exception e)
          (traceback_str e) (S (recovery_attempts e)) true.

(** Whether an [execute] for error [err] returned success among [events]. *)
Definition succeeded (err : nat) (events : list Event) : bool :=
  existsb (fun ev => match ev with
                     | Executed _ e (Ok true) => (e =? err)%nat
                     | _ => false
                     end) events.

(** The books after a recovery step with outcome [b]: only the newest
    event of the history and [resolved_errors] may differ. *)
Definition books_after (b : bool) (s s' : ErrorRecoveryManager) : Prop :=
  max_history s' = max_history s
  /\ total_errors s' = total_errors s
  /\ critical_errors s' = critical_errors s
  /\ resolved_errors s' = (resolved_errors s + if b then 1 else 0)%nat
  /\ removelast (error_history s') = removelast (error_history s)
  /\ last (error_history s')
     = (if b then resolved_event else id) <$> last (error_history s).

End Recovery.

(** ** Concrete inputs used by the examples and witnesses below *)

Module Examples.
Import Py.
Local Open Scope Q_scope.

(** A clock that starts at [t0] and advances by [step] seconds per reading. *)
Definition clock_from (t0 step : Z) (n : nat) : Q :=
  inject_Z (t0 + step * Z.of_nat n).

(** CPU at 96 %, everything else calm. *)
Definition hot : Alerting.Metrics :=
  Alerting.mkMetrics (Some (Alerting.mkSample 96 50 50 40)) false false false.

(** The default warning rule for the CPU. *)
Definition cpu_warning : Alerting.AlertRule :=
  Alerting.new_rule "High CPU Usage" Alerting.WARNING 300 (Alerting.CPUAlertRule 85 300).

(** A user rule without cooldown that holds on every snapshot. *)
Definition load_rule : Alerting.AlertRule :=
  Alerting.new_rule "load" Alerting.WARNING 0 (Alerting.CustomRule (fun _ => true)).

Definition webhook : Alerting.AlertChannel := Alerting.mkChannel "webhook" true.

Definition load_system : Alerting.AlertingSystem :=
  Alerting.new_system [load_rule] [webhook].

Definition cpu_system : Alerting.AlertingSystem :=
  Alerting.new_system [cpu_warning] [webhook].

Definition figures (algo : string) (profit : Q) : ProfitSwitch.ProfitabilityData :=
  ProfitSwitch.mkData algo 5000 100 (profit + 1) 1 profit 50 900.

(** A switcher that mines sha256 at the given profit and sees ethash at
    another, with a 10 % threshold and the last switch long ago. *)
Definition switcher (strategy : ProfitSwitch.SwitchStrategy) (current candidate : Q)
  : ProfitSwitch.ProfitSwitcher :=
  ProfitSwitch.mkSwitcher strategy (1 # 10) 300 "sha256" (Some "sha256")
    [("sha256", figures "sha256" current); ("ethash", figures "ethash" candidate)]
    [] 0.

Section Binary64.
Import PrimFloat.

(** The same switcher on binary64 values, under the threshold strategy. *)
Definition figures64 (algo : string) (profit : float)
  : ProfitSwitch64.ProfitabilityData :=
  ProfitSwitch64.mkData algo 5000%float 100%float (profit + 1)%float
                        1%float profit 50%float 900%float.

Definition switcher64 (threshold current candidate : float)
  : ProfitSwitch64.ProfitSwitcher :=
  ProfitSwitch64.mkSwitcher ProfitSwitch.THRESHOLD threshold 300%float "sha256"
    (Some "sha256")
    [("sha256", figures64 "sha256" current); ("ethash", figures64 "ethash" candidate)]
    [] 0%float.

End Binary64.

(** A predictive decision that always declines. *)
Definition declining (s : ProfitSwitch64.ProfitSwitcher)
    (current_data new_data : ProfitSwitch64.ProfitabilityData) : Py.result bool :=
  Py.Ok false.

(** A resource sample with the CPU at 96 %. *)
Definition busy : Scaling.ResourceMetrics := Scaling.mkMetrics 1000 96 50 50 40.

(** A resource sample with the memory at 90 %. *)
Definition full : Scaling.ResourceMetrics := Scaling.mkMetrics 1000 50 90 50 40.

(** A miner configured with 4 threads at intensity 0.8. *)
Definition four_threads : Scaling.Environment :=
  Scaling.mkEnv (Some (Scaling.mkConfig (Some 4%Z) (Some (8 # 10)))) 0.

(** A world whose clock advances [step] seconds per reading, whose
    remediations all end the same way and whose probes read 10 %. *)
Definition world (step : Z) (outcome : Recovery.RecoverOutcome) : Recovery.World :=
  Recovery.mkWorld (clock_from 1000 step) (fun _ _ => outcome) (fun _ => Some 10).

Definition connection_lost : Recovery.PyError :=
  Recovery.mkError "ConnectionError" "connection lost" "".

(** A manager with [ReconnectWalletRecovery] registered for the wallet. *)
Definition wallet_manager : Recovery.ErrorRecoveryManager :=
  Recovery.register_recovery_action
    (snd (Recovery.allocate Recovery.new_manager
            (Recovery.new_action "reconnect_wallet" 5 10)))
    0 "wallet".

(** A manager with [RestartMinerRecovery] registered for mining. *)
Definition restart_manager : Recovery.ErrorRecoveryManager :=
  Recovery.register_recovery_action
    (snd (Recovery.allocate Recovery.new_manager
            (Recovery.new_action "restart_miner" 3 30)))
    0 "mining".

(** A predictive switcher whose log holds three recent switches between
    sha256 and ethash. *)
Definition seasoned (current candidate : Q) : ProfitSwitch.ProfitSwitcher :=
  ProfitSwitch.mkSwitcher ProfitSwitch.PREDICTIVE (1 # 10) 300 "sha256" (Some "sha256")
    [("sha256", figures "sha256" current); ("ethash", figures "ethash" candidate)]
    [(100, "sha256", "ethash"); (400, "ethash", "sha256"); (700, "sha256", "ethash")]
    700.

(** A monitor with the three default policies of [start_monitoring] and a
    miner at 4 threads. *)
Definition default_monitor : Scaling.ResourceMonitor :=
  Scaling.mkMonitor true true [] 3600
    [Scaling.new_cpu_policy true 16; Scaling.new_memory_policy;
     Scaling.new_intensity_policy true]
    0 0 0 four_threads 0.

(** A sample without a temperature reading (no sensor). *)
Definition sensorless (t : Q) : Scaling.ResourceMetrics := Scaling.mkMetrics t 40 50 60 0.

End Examples.

(** * Properties *)

(** ** Facts about the shared Python values *)

Module PyFacts.
Import Py.
Local Open Scope Q_scope.

Lemma Qlt_bool_iff (x y : Q) : Qlt_bool x y = true <-> x < y.
Proof.
  unfold Qlt_bool. rewrite negb_true_iff. split.
  - intros H. apply Qnot_le_lt. intros Hle.
    apply Qle_bool_iff in Hle. congruence.
  - intros H. destruct (Qle_bool y x) eqn:E; [|reflexivity].
    apply Qle_bool_iff in E. exfalso. apply (Qlt_not_le _ _ H E).
Qed.

Lemma Qlt_bool_false_iff (x y : Q) : Qlt_bool x y = false <-> y <= x.
Proof.
  unfold Qlt_bool. rewrite negb_false_iff. apply Qle_bool_iff.
Qed.

Lemma truediv_nonzero (x y : Q) : ~ y == 0 -> truediv x y = Ok (x / y).
Proof.
  intros H. unfold truediv. destruct (Qeq_bool y 0) eqn:E; [|reflexivity].
  apply Qeq_bool_iff in E. contradiction.
Qed.

Lemma truediv_zero (x y : Q) : y == 0 -> truediv x y = Raise ZeroDivisionError.
Proof.
  intros H. unfold truediv. apply Qeq_bool_iff in H. now rewrite H.
Qed.

Lemma dict_get_set_eq {V} (d : dict V) (k : string) (v : V) :
  dict_get (dict_set d k v) k = Some v.
Proof.
  induction d as [|[k' v'] d IH]; simpl.
  - now rewrite String.eqb_refl.
  - destruct (String.eqb k' k) eqn:E; simpl; rewrite E; auto.
Qed.

Lemma dict_get_set_ne {V} (d : dict V) (k k' : string) (v : V) :
  k <> k' -> dict_get (dict_set d k v) k' = dict_get d k'.
Proof.
  intros Hne. induction d as [|[k0 v0] d IH]; simpl.
  - destruct (String.eqb k k') eqn:E; [|reflexivity].
    apply String.eqb_eq in E. contradiction.
  - destruct (String.eqb k0 k) eqn:E; simpl.
    + apply String.eqb_eq in E. subst k0.
      destruct (String.eqb k k') eqn:E'; [|reflexivity].
      apply String.eqb_eq in E'. contradiction.
    + now rewrite IH.
Qed.

Lemma slice_last_length {A} (l : list A) (k : Z) :
  length (slice_last l k)
  = if (0 <? k)%Z then Nat.min (Z.to_nat k) (length l)
    else (length l - Z.to_nat (- k))%nat.
Proof.
  unfold slice_last. destruct (0 <? k)%Z; rewrite length_drop; lia.
Qed.

Lemma slice_last_sub {A} (P : A -> Prop) (l : list A) (k : Z) :
  Forall P l -> Forall P (slice_last l k).
Proof.
  intros H. unfold slice_last. destruct (0 <? k)%Z; now apply Forall_drop.
Qed.

Lemma last_drop_lt {A} (l : list A) (k : nat) :
  (k < length l)%nat -> last (drop k l) = last l.
Proof.
  intros H. rewrite !last_lookup, lookup_drop, length_drop.
  f_equal. lia.
Qed.

End PyFacts.

(** ** The alerting system *)

Module AlertingFacts.
Import Py PyFacts Alerting.
Local Open Scope Q_scope.

(** The generated id separates two firings of one rule exactly when their
    integer seconds differ. *)
Lemma generated_id_eq (n : string) (t1 t2 : Q) :
  generated_id n t1 = generated_id n t2 <-> int_of t1 = int_of t2.
Proof.
  unfold generated_id. split.
  - intros H. apply (inj (String.app n)) in H.
    apply (inj (String.app "_")) in H.
    now apply (inj pretty) in H.
  - now intros ->.
Qed.

Lemma count_refs_set (p : nat -> bool) (d : dict nat) (k : string) (v : nat) :
  (count_refs p (dict_set d k v)
   + match dict_get d k with
     | Some old => if p old then 1 else 0
     | None => 0
     end
   = count_refs p d + (if p v then 1 else 0))%nat.
Proof.
  unfold count_refs. induction d as [|[k' v'] d IH]; simpl.
  - destruct (p v); simpl; lia.
  - destruct (String.eqb k' k) eqn:E; simpl.
    + destruct (p v), (p v'); simpl; lia.
    + destruct (p v'); simpl; lia.
Qed.

Lemma count_refs_ext (p q : nat -> bool) (d : dict nat) :
  Forall (fun kv : string * nat => p (snd kv) = q (snd kv)) d ->
  count_refs p d = count_refs q d.
Proof.
  unfold count_refs. induction 1 as [|[k v] d Hkv _ IH]; simpl; [reflexivity|].
  simpl in Hkv. rewrite Hkv. destruct (q v); simpl; congruence.
Qed.

Lemma count_refs_zero (p : nat -> bool) (d : dict nat) (k : string) (v : nat) :
  count_refs p d = 0%nat -> dict_get d k = Some v -> p v = false.
Proof.
  unfold count_refs. induction d as [|[k' v'] d IH]; simpl; [discriminate|].
  intros Hc Hg. destruct (p v') eqn:Ep; simpl in Hc; [discriminate|].
  destruct (String.eqb k' k); [congruence | auto].
Qed.

Lemma governs_old (heap : list Alert) (a : Alert) (n : string) (ref : nat) :
  (ref < length heap)%nat -> governs (heap ++ [a]) n ref = governs heap n ref.
Proof.
  intros H. unfold governs. now rewrite lookup_app_l.
Qed.

Lemma governs_new (heap : list Alert) (a : Alert) (n : string) :
  governs (heap ++ [a]) n (length heap) = String.eqb (alert_title a) n.
Proof.
  unfold governs. rewrite lookup_app_r by lia.
  now rewrite Nat.sub_diag.
Qed.

Lemma dict_get_in_heap (d : dict nat) (k : string) (v bound : nat) :
  Forall (fun kv : string * nat => (snd kv < bound)%nat) d ->
  dict_get d k = Some v -> (v < bound)%nat.
Proof.
  induction 1 as [|[k' v'] d Hkv Hd IH]; simpl; [discriminate|].
  simpl in Hkv. destruct (String.eqb k' k).
  - intros [= <-]. exact Hkv.
  - exact IH.
Qed.

Lemma dict_set_in_heap (d : dict nat) (k : string) (bound : nat) :
  Forall (fun kv : string * nat => (snd kv < bound)%nat) d ->
  Forall (fun kv : string * nat => (snd kv < S bound)%nat) (dict_set d k bound).
Proof.
  induction 1 as [|[k' v'] d Hkv Hd IH]; simpl.
  - constructor; [simpl; lia | constructor].
  - simpl in Hkv. destruct (String.eqb k' k).
    + constructor; [simpl; lia|].
      eapply Forall_impl; [exact Hd|]. intros [? ?]; simpl; lia.
    + constructor; [simpl; lia | exact IH].
Qed.

Lemma _handle_alert_active (s : AlertingSystem) (a : Alert) :
  active_alerts (_handle_alert s a)
  = dict_set (active_alerts s) (alert_id a) (length (alerts s))
  /\ alerts (_handle_alert s a) = alerts s ++ [a].
Proof. split; reflexivity. Qed.

(** The heap invariant survives [_handle_alert]. *)
Lemma _handle_alert_in_heap (s : AlertingSystem) (a : Alert) :
  active_in_heap s -> active_in_heap (_handle_alert s a).
Proof.
  unfold active_in_heap.
  destruct (_handle_alert_active s a) as [-> ->].
  rewrite length_app. simpl. rewrite Nat.add_1_r.
  apply dict_set_in_heap.
Qed.

(** What one [_handle_alert] does to the count of a rule name. *)
Lemma active_for_rule_handle (s : AlertingSystem) (a : Alert) (n : string) :
  active_in_heap s ->
  (active_for_rule (_handle_alert s a) n
   + match dict_get (active_alerts s) (alert_id a) with
     | Some old => if governs (alerts s) n old then 1 else 0
     | None => 0
     end
   = active_for_rule s n + (if String.eqb (alert_title a) n then 1 else 0))%nat.
Proof.
  intros Hwf. unfold active_for_rule.
  destruct (_handle_alert_active s a) as [-> ->].
  pose proof (count_refs_set (governs (alerts s ++ [a]) n) (active_alerts s)
                (alert_id a) (length (alerts s))) as H.
  rewrite governs_new in H.
  rewrite (count_refs_ext (governs (alerts s ++ [a]) n) (governs (alerts s) n)
             (active_alerts s)) in H.
  2:{ eapply Forall_impl; [exact Hwf|]. intros [k v] Hv. simpl in *.
      now apply governs_old. }
  destruct (dict_get (active_alerts s) (alert_id a)) as [old|] eqn:Eg; [|exact H].
  assert (Hold : (old < length (alerts s))%nat)
    by (eapply dict_get_in_heap; [exact Hwf | exact Eg]).
  now rewrite governs_old in H.
Qed.

(** The two gates of [should_trigger] come before the condition. *)
Lemma should_trigger_gated (r : AlertRule) (m : Metrics) (now : Q) :
  now - last_triggered r < cooldown r \/ now < suppressed_until r ->
  should_trigger r m now = Ok false.
Proof.
  intros H. unfold should_trigger.
  destruct (Qlt_bool (now - last_triggered r) (cooldown r)) eqn:Ec; [reflexivity|].
  destruct (Qlt_bool now (suppressed_until r)) eqn:Es; [reflexivity|].
  apply Qlt_bool_false_iff in Ec, Es. destruct H as [H|H]; lra.
Qed.

Lemma should_trigger_condition_false (r : AlertRule) (m : Metrics) (now : Q) :
  _evaluate_condition r m = Ok false -> should_trigger r m now = Ok false.
Proof.
  intros H. unfold should_trigger. rewrite H.
  destruct (Qlt_bool (now - last_triggered r) (cooldown r)); [reflexivity|].
  destruct (Qlt_bool now (suppressed_until r)); reflexivity.
Qed.

(** C4.  [should_trigger] answers [False] whenever the rule is inside its
    cooldown ([now - last_triggered < cooldown]) or suppressed
    ([now < suppressed_until]), whatever the snapshot and the rule's
    condition; hence after a firing at [t1] no call at a time [t2] with
    [t2 - t1 < cooldown] is accepted. *)
Theorem cooldown_gate :
  (forall (r : AlertRule) (m : Metrics) (now : Q),
      now - last_triggered r < cooldown r \/ now < suppressed_until r ->
      should_trigger r m now = Ok false)
  /\ (forall (r : AlertRule) (m : Metrics) (t1 t2 : Q),
        t1 < t2 -> t2 - t1 < cooldown r ->
        should_trigger (fst (trigger r t1)) m t2 = Ok false).
Proof.
  split; [exact should_trigger_gated|].
  intros r m t1 t2 _ H. apply should_trigger_gated. left. exact H.
Qed.

Lemma cooldown_gate_witness :
  should_trigger (mkRule "High CPU Usage" WARNING 300 1000 1 0 (CPUAlertRule 85 300))
                 Examples.hot 1100 = Ok false
  /\ should_trigger (fst (trigger Examples.cpu_warning 1000)) Examples.hot 1299 = Ok false.
Proof.
  split.
  - apply (proj1 cooldown_gate). left. simpl. lra.
  - apply (proj2 cooldown_gate); simpl; lra.
Defined.

(** C1 (amended).  The active set is keyed by the generated id
    [name_int(trigger time)], not by the rule.  Starting from a state with
    no active alert of the rule, the first firing makes the rule's count
    1; a second firing while that alert is still active keeps the count
    at 1 when both firings fall into the same integer second (the entry is
    replaced) and makes it 2 otherwise. *)
Theorem second_firing_keyed_by_id (s : AlertingSystem) (r : AlertRule) (t1 t2 : Q) :
  active_in_heap s ->
  active_for_rule s (name r) = 0%nat ->
  active_for_rule (_handle_alert s (snd (trigger r t1))) (name r) = 1%nat
  /\ active_for_rule
       (_handle_alert (_handle_alert s (snd (trigger r t1)))
                      (snd (trigger (fst (trigger r t1)) t2)))
       (name r)
     = if (int_of t1 =? int_of t2)%Z then 1%nat else 2%nat.
Proof.
  intros Hwf Hzero.
  set (a1 := snd (trigger r t1)). set (a2 := snd (trigger (fst (trigger r t1)) t2)).
  set (s1 := _handle_alert s a1).
  assert (Ht1 : String.eqb (alert_title a1) (name r) = true) by apply String.eqb_refl.
  assert (Ht2 : String.eqb (alert_title a2) (name r) = true) by apply String.eqb_refl.
  assert (Hfresh : forall k old, dict_get (active_alerts s) k = Some old ->
                                 governs (alerts s) (name r) old = false).
  { intros k old Hg. eapply count_refs_zero; [exact Hzero | exact Hg]. }
  pose proof (active_for_rule_handle s a1 (name r) Hwf) as H1.
  rewrite Hzero, Ht1 in H1.
  assert (Hone : active_for_rule s1 (name r) = 1%nat).
  { destruct (dict_get (active_alerts s) (alert_id a1)) as [old|] eqn:Eg.
    - rewrite (Hfresh _ _ Eg) in H1. fold s1 in H1. lia.
    - fold s1 in H1. lia. }
  split; [exact Hone|].
  pose proof (active_for_rule_handle s1 a2 (name r) (_handle_alert_in_heap s a1 Hwf)) as H2.
  rewrite Hone, Ht2 in H2.
  destruct (_handle_alert_active s a1) as [Hact Hheap]. fold s1 in Hact, Hheap.
  rewrite Hact, Hheap in H2.
  destruct (Z.eqb_spec (int_of t1) (int_of t2)) as [Heq|Hne].
  - assert (Hid : alert_id a2 = alert_id a1).
    { symmetry. apply generated_id_eq. exact Heq. }
    rewrite Hid, dict_get_set_eq, governs_new, Ht1 in H2. lia.
  - assert (Hid : alert_id a1 <> alert_id a2).
    { intros E. apply Hne. apply (generated_id_eq (name r)). exact E. }
    rewrite (dict_get_set_ne _ _ _ _ Hid) in H2.
    destruct (dict_get (active_alerts s) (alert_id a2)) as [old|] eqn:Eg; [|lia].
    rewrite governs_old in H2.
    + rewrite (Hfresh _ _ Eg) in H2. lia.
    + eapply dict_get_in_heap; [exact Hwf | exact Eg].
Qed.

Lemma second_firing_keyed_by_id_witness :
  active_for_rule
    (_handle_alert
       (_handle_alert (new_system [] []) (snd (trigger Examples.cpu_warning 1000)))
       (snd (trigger (fst (trigger Examples.cpu_warning 1000)) 1400)))
    "High CPU Usage" = 2%nat.
Proof.
  refine (proj2 (second_firing_keyed_by_id
                   (new_system [] []) Examples.cpu_warning 1000 1400 _ _)).
  - constructor.
  - reflexivity.
Defined.

(** C1, counterexample.  A user rule without cooldown fires in two
    consecutive passes of the monitoring loop; its first alert is still
    active at the second firing, and afterwards the active set holds two
    alerts of that rule. *)
Lemma duplicate_active_alert :
  let clock := Examples.clock_from 1000 10 in
  let s1 := monitoring_iteration clock Examples.load_system Examples.hot in
  let s2 := monitoring_iteration clock s1 Examples.hot in
  map fst (active_alerts s1) = ["load_1010"]
  /\ active_for_rule s1 "load" = 1%nat
  /\ map fst (active_alerts s2) = ["load_1010"; "load_1040"]
  /\ active_for_rule s2 "load" = 2%nat.
Proof. vm_compute. repeat split; reflexivity. Qed.

(** One step of the reconciliation: an active alert whose rule's
    [should_trigger] answers [False] is stamped, marked resolved in the
    heap (so also where the history points to it), notified once to every
    channel and queued for removal. *)
Lemma reconcile_resolves (clock : nat -> Q) (m : Metrics) (s : AlertingSystem)
    (key : string) (ref : nat) (items : dict nat) (acc : list string)
    (alert : Alert) (rule : AlertRule) :
  alerts s !! ref = Some alert ->
  find_rule (alert_rules s) (alert_title alert) = Some rule ->
  should_trigger rule m (clock (ticks s)) = Ok false ->
  check_loop clock ((key, ref) :: items) m s acc
  = check_loop clock items m
      (_send_notifications
         (with_alerts (tick (tick s))
                      (<[ref := resolve alert (clock (S (ticks s)))]> (alerts s)))
         (resolve alert (clock (S (ticks s)))))
      (acc ++ [key]).
Proof.
  intros Ha Hr Hs. simpl. rewrite Ha, Hr, Hs. reflexivity.
Qed.

(** The reconciliation resolves an alert whose condition is false ... *)
Lemma reconcile_condition_false (clock : nat -> Q) (m : Metrics) (s : AlertingSystem)
    (key : string) (ref : nat) (items : dict nat) (acc : list string)
    (alert : Alert) (rule : AlertRule) :
  alerts s !! ref = Some alert ->
  find_rule (alert_rules s) (alert_title alert) = Some rule ->
  _evaluate_condition rule m = Ok false ->
  check_loop clock ((key, ref) :: items) m s acc
  = check_loop clock items m
      (_send_notifications
         (with_alerts (tick (tick s))
                      (<[ref := resolve alert (clock (S (ticks s)))]> (alerts s)))
         (resolve alert (clock (S (ticks s)))))
      (acc ++ [key]).
Proof.
  intros Ha Hr Hc. apply (reconcile_resolves clock m s key ref items acc alert rule Ha Hr).
  now apply should_trigger_condition_false.
Qed.

(** ... and also one whose rule is inside its cooldown or suppressed,
    whatever the condition says. *)
Lemma reconcile_within_cooldown (clock : nat -> Q) (m : Metrics) (s : AlertingSystem)
    (key : string) (ref : nat) (items : dict nat) (acc : list string)
    (alert : Alert) (rule : AlertRule) :
  alerts s !! ref = Some alert ->
  find_rule (alert_rules s) (alert_title alert) = Some rule ->
  clock (ticks s) - last_triggered rule < cooldown rule
  \/ clock (ticks s) < suppressed_until rule ->
  check_loop clock ((key, ref) :: items) m s acc
  = check_loop clock items m
      (_send_notifications
         (with_alerts (tick (tick s))
                      (<[ref := resolve alert (clock (S (ticks s)))]> (alerts s)))
         (resolve alert (clock (S (ticks s)))))
      (acc ++ [key]).
Proof.
  intros Ha Hr Hg. apply (reconcile_resolves clock m s key ref items acc alert rule Ha Hr).
  now apply should_trigger_gated.
Qed.

(** C2, the failing input.  The default CPU rule (threshold 85, cooldown
    300 s) fires on a snapshot with the CPU at 96 %.  The reconciliation of
    the same pass asks [should_trigger], which the cooldown that the
    firing just started answers with [False]: the alert is resolved and
    leaves the active set, and a resolution notice is sent, although the
    rule's condition still holds on the snapshot. *)
Theorem alert_resolved_while_condition_holds :
  let clock := Examples.clock_from 1000 10 in
  let fired := rules_loop clock [0%nat] Examples.hot Examples.cpu_system in
  let reconciled := snd (_check_resolved_alerts clock fired Examples.hot) in
  _evaluate_condition Examples.cpu_warning Examples.hot = Ok true
  /\ map fst (active_alerts fired) = ["High CPU Usage_1010"]
  /\ map alert_status (alerts fired) = [ACTIVE]
  /\ active_alerts reconciled = []
  /\ alert_history reconciled = [0%nat]
  /\ map alert_status (alerts reconciled) = [RESOLVED]
  /\ map resolved_timestamp (alerts reconciled) = [Some 1030]
  /\ map (fun d => (d_channel d, alert_status (d_alert d))) (dispatched reconciled)
     = [("webhook", ACTIVE); ("webhook", RESOLVED)].
Proof. vm_compute. repeat split; reflexivity. Qed.

(** *** Bookkeeping of the alerting system *)

Lemma bump_severity_total (c : SeverityCount) (sev : AlertSeverity) :
  (n_info (bump_severity c sev) + n_warning (bump_severity c sev)
   + n_error (bump_severity c sev) + n_critical (bump_severity c sev)
   = S (n_info c + n_warning c + n_error c + n_critical c))%nat.
Proof. destruct sev; simpl; lia. Qed.

Lemma _handle_alert_consistent (s : AlertingSystem) (a : Alert) :
  consistent s -> consistent (_handle_alert s a).
Proof.
  intros (Hact & Hhist & Hlen & Htot).
  split; [now apply _handle_alert_in_heap|].
  split; [|split].
  - unfold history_in_heap in *. simpl. rewrite length_app. simpl.
    assert (H : Forall (fun ref : nat => (ref < length (alerts s) + 1)%nat)
                       (alert_history s ++ [length (alerts s)])).
    { apply Forall_app. split.
      - eapply Forall_impl; [exact Hhist|]. simpl. intros. lia.
      - constructor; [lia | constructor]. }
    destruct (max_history s <? length (alert_history s ++ [length (alerts s)]))%nat;
      [|exact H].
    destruct (alert_history s ++ [length (alerts s)]); [constructor|].
    simpl. now inversion H.
  - simpl.
    destruct (max_history s <? length (alert_history s ++ [length (alerts s)]))%nat
      eqn:E.
    + rewrite length_app in *. simpl in *.
      destruct (alert_history s ++ [length (alerts s)]) eqn:El; simpl; [lia|].
      apply (f_equal length) in El. rewrite length_app in El. simpl in El. lia.
    + apply Nat.ltb_ge in E. exact E.
  - simpl. rewrite bump_severity_total. lia.
Qed.

Lemma rules_loop_consistent (clock : nat -> Q) (positions : list nat) (m : Metrics)
    (s : AlertingSystem) :
  consistent s -> consistent (rules_loop clock positions m s).
Proof.
  revert s. induction positions as [|i positions IH]; intros s Hs; simpl; [exact Hs|].
  destruct (alert_rules s !! i) as [rule|]; [|auto].
  destruct (should_trigger rule m (clock (ticks s))) as [[|]|e]; try (apply IH; exact Hs).
  apply IH. apply _handle_alert_consistent. exact Hs.
Qed.

(** What the reconciliation loop leaves alone. *)
Lemma check_loop_frame (clock : nat -> Q) (items : dict nat) (m : Metrics)
    (s : AlertingSystem) (acc : list string) :
  let s' := snd (check_loop clock items m s acc) in
  alert_rules s' = alert_rules s
  /\ active_alerts s' = active_alerts s
  /\ alert_history s' = alert_history s
  /\ max_history s' = max_history s
  /\ total_alerts s' = total_alerts s
  /\ alerts_by_severity s' = alerts_by_severity s
  /\ length (alerts s') = length (alerts s).
Proof.
  revert s acc. induction items as [|[key ref] items IH]; intros s acc; simpl.
  - repeat split.
  - destruct (alerts s !! ref) as [alert|]; [|apply IH].
    destruct (find_rule (alert_rules s) (alert_title alert)) as [rule|]; [|apply IH].
    destruct (should_trigger rule m (clock (ticks s))) as [[|]|e].
    + destruct (IH (tick s) acc) as (H1 & H2 & H3 & H4 & H5 & H6 & H7).
      simpl in *. repeat split; assumption.
    + match goal with
      | |- context [check_loop clock items m ?s1 ?acc1] =>
          destruct (IH s1 acc1) as (H1 & H2 & H3 & H4 & H5 & H6 & H7)
      end.
      simpl in *. rewrite length_insert in H7. repeat split; assumption.
    + simpl. repeat split.
Qed.

Lemma fold_dict_del_sub {V} (P : string * V -> Prop) (keys : list string) (d : dict V) :
  Forall P d -> Forall P (fold_left dict_del keys d).
Proof.
  revert d. induction keys as [|k keys IH]; intros d Hd; simpl; [exact Hd|].
  apply IH. clear IH. induction Hd as [|[k' v'] d Hkv Hd IH']; simpl; [constructor|].
  destruct (String.eqb k' k); [exact Hd | now constructor].
Qed.

Lemma _check_resolved_alerts_consistent (clock : nat -> Q) (s : AlertingSystem)
    (m : Metrics) :
  consistent s -> consistent (snd (_check_resolved_alerts clock s m)).
Proof.
  intros (Hact & Hhist & Hlen & Htot). unfold _check_resolved_alerts.
  pose proof (check_loop_frame clock (active_alerts s) m s []) as Hf.
  destruct (check_loop clock (active_alerts s) m s []) as [[keys|e] s'];
    simpl in Hf; destruct Hf as (H1 & H2 & H3 & H4 & H5 & H6 & H7); simpl.
  - unfold consistent, active_in_heap, history_in_heap in *. simpl.
    rewrite H3, H4, H5, H6, H7. split; [|auto].
    apply fold_dict_del_sub. rewrite H2. exact Hact.
  - unfold consistent, active_in_heap, history_in_heap in *.
    rewrite H2, H3, H4, H5, H6, H7. auto.
Qed.

(** X1.  The bookkeeping survives every operation of the alerting system:
    after a pass of the monitoring loop, a manual alert, an
    acknowledgement or a suppression, the references of the active set and
    of the history still point to alert objects, the history holds at most
    [max_history] alerts, and [total_alerts] is the sum of the four
    per-severity counters. *)
Theorem alerting_bookkeeping (clock : nat -> Q) (s : AlertingSystem) :
  consistent s ->
  (forall m : Metrics, consistent (monitoring_iteration clock s m))
  /\ (forall title text sev comp metadata,
        consistent (snd (create_manual_alert clock s title text sev comp metadata)))
  /\ (forall key : string, consistent (snd (acknowledge_alert s key)))
  /\ (forall (n : string) (duration : Q),
        consistent (snd (suppress_alert_rule clock s n duration))).
Proof.
  intros Hs. split; [|split; [|split]].
  - intros m. unfold monitoring_iteration.
    apply _check_resolved_alerts_consistent. apply rules_loop_consistent. exact Hs.
  - intros title text sev comp metadata. unfold create_manual_alert. simpl.
    apply _handle_alert_consistent. exact Hs.
  - intros key. unfold acknowledge_alert.
    destruct (dict_get (active_alerts s) key) as [ref|]; [|exact Hs].
    destruct (alerts s !! ref) as [a|]; [|exact Hs]. simpl.
    destruct Hs as (Hact & Hhist & Hlen & Htot).
    unfold consistent, active_in_heap, history_in_heap in *. simpl.
    rewrite length_insert. auto.
  - intros n duration. unfold suppress_alert_rule.
    destruct (suppress_first (alert_rules s) n (clock (ticks s)) duration);
      [|exact Hs].
    exact Hs.
Qed.

Lemma alerting_bookkeeping_witness :
  consistent (monitoring_iteration (Examples.clock_from 1000 10)
                (new_system default_rules [Examples.webhook]) Examples.hot).
Proof.
  assert (H : consistent (new_system default_rules [Examples.webhook])).
  { split; [constructor|]. split; [constructor|]. split; [simpl; lia | reflexivity]. }
  exact (proj1 (alerting_bookkeeping (Examples.clock_from 1000 10)
                  (new_system default_rules [Examples.webhook]) H) Examples.hot).
Defined.

(** *** Suppression, reconciliation edge cases, history views *)





Lemma with_active_same (s : AlertingSystem) : with_active s (active_alerts s) = s.
Proof. destruct s. reflexivity. Qed.

Lemma check_loop_ungoverned (clock : nat -> Q) (items : dict nat) (m : Metrics)
    (s : AlertingSystem) (acc : list string) :
  Forall (fun kv : string * nat =>
            match alerts s !! snd kv with
            | Some a => find_rule (alert_rules s) (alert_title a) = None
            | None => True
            end) items ->
  check_loop clock items m s acc = (Ok acc, s).
Proof.
  induction 1 as [|[key ref] items Hkv _ IH]; simpl; [reflexivity|].
  simpl in Hkv. destruct (alerts s !! ref) as [a|]; [|exact IH].
  now rewrite Hkv.
Qed.

(** X3.  Alerts without a rule of their title (manual alerts, as a rule)
    are never resolved by the reconciliation: when no active alert has
    such a rule, [_check_resolved_alerts] returns with the system exactly
    as it was, without a clock reading or a notification. *)
Theorem ungoverned_alerts_stay (clock : nat -> Q) (s : AlertingSystem) (m : Metrics) :
  ungoverned s -> _check_resolved_alerts clock s m = (Ok tt, s).
Proof.
  intros H. unfold _check_resolved_alerts.
  rewrite check_loop_ungoverned by exact H. simpl.
  now rewrite with_active_same.
Qed.

Lemma ungoverned_alerts_stay_witness :
  let s := snd (create_manual_alert (Examples.clock_from 1000 10)
                  (new_system default_rules [Examples.webhook])
                  "Pool maintenance" "the pool is down for an hour" INFO "manual" None) in
  _check_resolved_alerts (Examples.clock_from 1000 10) s Examples.hot = (Ok tt, s).
Proof.
  apply ungoverned_alerts_stay. unfold ungoverned. vm_compute.
  constructor; [reflexivity | constructor].
Defined.

(** X4.  When the reconciliation raises (the rule of an active alert has a
    condition that raises), no alert leaves the active set, not even
    those the loop had already marked resolved; rules, history and
    counters are as before. *)
Theorem reconciliation_raise_keeps_active (clock : nat -> Q) (s s' : AlertingSystem)
    (m : Metrics) (e : PyExn) :
  _check_resolved_alerts clock s m = (Raise e, s') ->
  active_alerts s' = active_alerts s
  /\ alert_rules s' = alert_rules s
  /\ alert_history s' = alert_history s
  /\ total_alerts s' = total_alerts s.
Proof.
  unfold _check_resolved_alerts.
  pose proof (check_loop_frame clock (active_alerts s) m s []) as Hf.
  destruct (check_loop clock (active_alerts s) m s []) as [[keys|e0] s0];
    simpl in Hf; [discriminate|].
  intros [= _ <-]. destruct Hf as (H1 & H2 & H3 & _ & H5 & _). auto.
Qed.

Lemma reconciliation_raise_keeps_active_witness :
  let clock := Examples.clock_from 1000 10 in
  let s := snd (create_manual_alert clock
                  (new_system [new_rule "probe" WARNING 0 BaseRule] [])
                  "probe" "manual probe" INFO "manual" None) in
  active_alerts (snd (_check_resolved_alerts clock s Examples.hot)) = active_alerts s.
Proof.
  intros clock s.
  apply (reconciliation_raise_keeps_active clock s
           (snd (_check_resolved_alerts clock s Examples.hot)) Examples.hot
           NotImplementedError).
  reflexivity.
Defined.

Lemma omap_length_in_heap (heap : list Alert) (refs : list nat) :
  Forall (fun ref : nat => (ref < length heap)%nat) refs ->
  length (omap (fun ref => heap !! ref) refs) = length refs.
Proof.
  induction 1 as [|ref refs Href _ IH]; [reflexivity|].
  destruct (lookup_lt_is_Some_2 heap ref Href) as [a Ha].
  cbn. rewrite Ha. cbn. f_equal. exact IH.
Qed.

Lemma omap_in_heap (heap : list Alert) (refs : list nat) :
  Forall (fun ref : nat => (ref < length heap)%nat) refs ->
  Forall2 (fun (a : Alert) (ref : nat) => heap !! ref = Some a)
          (omap (fun ref => heap !! ref) refs) refs.
Proof.
  induction 1 as [|ref refs Href _ IH]; [constructor|].
  destruct (lookup_lt_is_Some_2 heap ref Href) as [a Ha].
  cbn. rewrite Ha. cbn. constructor; assumption.
Qed.

(** X5.  [get_alert_history(limit)] returns the alert objects of the
    newest entries of the history, oldest first: of the last [limit]
    entries for a positive [limit] (all of them when there are fewer), of
    the whole history for [limit = 0] (not an empty list), and of all but
    the oldest [-limit] entries for a negative [limit]. *)
Theorem get_alert_history_limit (s : AlertingSystem) (limit : Z) :
  history_in_heap s ->
  let k := if (0 <? limit)%Z
           then (length (alert_history s) - Z.to_nat limit)%nat
           else Z.to_nat (- limit) in
  Forall2 (fun (a : Alert) (ref : nat) => alerts s !! ref = Some a)
          (get_alert_history s limit) (drop k (alert_history s))
  /\ length (get_alert_history s limit)
     = (if (0 <? limit)%Z
        then Nat.min (Z.to_nat limit) (length (alert_history s))
        else (length (alert_history s) - Z.to_nat (- limit))%nat).
Proof.
  intros H k.
  assert (E : get_alert_history s limit
              = omap (fun ref => alerts s !! ref) (drop k (alert_history s))).
  { unfold get_alert_history, slice_last, k.
    destruct (limit <? Z.of_nat (length (alert_history s)))%Z eqn:E;
      destruct (0 <? limit)%Z eqn:E0; try reflexivity.
    - apply Z.ltb_ge in E.
      replace (length (alert_history s) - Z.to_nat limit)%nat with 0%nat by lia.
      reflexivity.
    - apply Z.ltb_ge in E, E0.
      replace (Z.to_nat (- limit)) with 0%nat by lia. reflexivity. }
  assert (Hk : Forall (fun ref : nat => (ref < length (alerts s))%nat)
                      (drop k (alert_history s))).
  { apply Forall_forall. intros ref Hin.
    apply (proj1 (Forall_forall _ _) H). eapply subseteq_drop. exact Hin. }
  split.
  - rewrite E. apply omap_in_heap. exact Hk.
  - rewrite E, omap_length_in_heap by exact Hk.
    rewrite length_drop. unfold k. destruct (0 <? limit)%Z eqn:E0; [|reflexivity].
    apply Z.ltb_lt in E0. lia.
Qed.

Lemma get_alert_history_limit_witness :
  let s := monitoring_iteration (Examples.clock_from 1000 10)
             (new_system default_rules [Examples.webhook]) Examples.hot in
  Forall2 (fun (a : Alert) (ref : nat) => alerts s !! ref = Some a)
          (get_alert_history s 1) (drop 1 (alert_history s))
  /\ length (get_alert_history s 0) = 2%nat.
Proof.
  intros s.
  assert (H : history_in_heap s).
  { unfold history_in_heap. vm_compute. repeat constructor. }
  split.
  - pose proof (proj1 (get_alert_history_limit s 1 H)) as E.
    vm_compute in E. vm_compute. exact E.
  - pose proof (proj2 (get_alert_history_limit s 0 H)) as E.
    vm_compute in E. vm_compute. exact E.
Defined.

End AlertingFacts.

(** ** The profit switcher *)

Module ProfitSwitchFacts.
Import Py PyFacts ProfitSwitch.
Local Open Scope Q_scope.

Lemma _should_switch_strategy (s : ProfitSwitcher) (new_algorithm : string)
    (t tc tn : Q) (current_data new_data : ProfitabilityData) :
  past_guards s new_algorithm t current_data new_data ->
  _should_switch s new_algorithm t tc tn
  = match switch_strategy s with
    | IMMEDIATE =>
        Ok (Qlt_bool (profit_per_hour current_data) (profit_per_hour new_data))
    | THRESHOLD =>
        match truediv (profit_per_hour new_data - profit_per_hour current_data)
                      (profit_per_hour current_data) with
        | Raise e => Raise e
        | Ok improvement => Ok (Qle_bool (switch_threshold s) improvement)
        end
    | GRADUAL =>
        match truediv (profit_per_hour new_data - profit_per_hour current_data)
                      (profit_per_hour current_data) with
        | Raise e => Raise e
        | Ok improvement => Ok (Qle_bool (switch_threshold s * (1 # 2)) improvement)
        end
    | PREDICTIVE => _predictive_switch_decision s current_data new_data tc tn
    end.
Proof.
  intros (current & Hcur & Hne & Hdiff & Hint & Hcd & Hnd).
  unfold _should_switch. rewrite Hcur. simpl.
  destruct (String.eqb current "") eqn:E.
  { apply String.eqb_eq in E. contradiction. }
  simpl. rewrite bool_decide_eq_false_2 by congruence.
  apply Qlt_bool_false_iff in Hint. rewrite Hint, Hcd, Hnd. reflexivity.
Qed.

(** C8.  When the history retrieved for the current or for the candidate
    algorithm has fewer than 3 samples, the predictive strategy decides as
    the threshold strategy does on the same state and inputs (same result,
    the division error included). *)
Theorem predictive_fallback (s : ProfitSwitcher) (new_algorithm : string)
    (t tc tn : Q) :
  (forall current current_data new_data,
      current_algorithm s = Some current ->
      dict_get (profitability_data s) current = Some current_data ->
      dict_get (profitability_data s) new_algorithm = Some new_data ->
      (length (_get_algorithm_history s (algorithm current_data) tc) < 3)%nat
      \/ (length (_get_algorithm_history s (algorithm new_data) tn) < 3)%nat) ->
  _should_switch (with_strategy s PREDICTIVE) new_algorithm t tc tn
  = _should_switch (with_strategy s THRESHOLD) new_algorithm t tc tn.
Proof.
  intros Hshort. unfold _should_switch. simpl.
  destruct (negb (truthy (current_algorithm s))); [reflexivity|].
  destruct (bool_decide (current_algorithm s = Some new_algorithm)); [reflexivity|].
  destruct (Qlt_bool (t - last_switch_time s) (min_switch_interval s)); [reflexivity|].
  destruct (current_algorithm s) as [current|] eqn:Hcur; [|reflexivity]. simpl.
  destruct (dict_get (profitability_data s) current) as [current_data|] eqn:Hcd;
    [|reflexivity].
  destruct (dict_get (profitability_data s) new_algorithm) as [new_data|] eqn:Hnd;
    [|reflexivity].
  unfold _predictive_switch_decision.
  change (_get_algorithm_history (with_strategy s PREDICTIVE))
    with (_get_algorithm_history s).
  destruct (Hshort _ _ _ eq_refl Hcd eq_refl) as [H|H];
    apply Nat.ltb_lt in H; rewrite H; simpl; rewrite ?orb_true_r; reflexivity.
Qed.

Lemma predictive_fallback_witness :
  _should_switch (Examples.switcher PREDICTIVE 100 115) "ethash" 1000 1000 1000
  = _should_switch (Examples.switcher THRESHOLD 100 115) "ethash" 1000 1000 1000.
Proof.
  apply (predictive_fallback (Examples.switcher IMMEDIATE 100 115) "ethash" 1000 1000 1000).
  intros current current_data new_data _ _ _. left. simpl. lia.
Defined.

Lemma predictive_short (s : ProfitSwitcher) (current_data new_data : ProfitabilityData)
    (tc tn : Q) :
  (length (_get_algorithm_history s (algorithm current_data) tc) < 3)%nat
  \/ (length (_get_algorithm_history s (algorithm new_data) tn) < 3)%nat ->
  _predictive_switch_decision s current_data new_data tc tn
  = match truediv (profit_per_hour new_data - profit_per_hour current_data)
                  (profit_per_hour current_data) with
    | Raise e => Raise e
    | Ok improvement => Ok (Qle_bool (switch_threshold s) improvement)
    end.
Proof.
  intros H. unfold _predictive_switch_decision.
  destruct H as [H|H]; apply Nat.ltb_lt in H; rewrite H;
    rewrite ?orb_true_r; reflexivity.
Qed.

(** C10.  Under the threshold and gradual strategies and in the
    predictive fallback, [_should_switch] divides by the current profit
    without a guard: it returns a boolean whenever the current profit is
    not zero, and once the guards are passed with a current profit of zero
    it raises [ZeroDivisionError]; a threshold switcher whose current
    algorithm earns 0 is such an input. *)
Theorem division_by_current_profit :
  (forall (s : ProfitSwitcher) (new_algorithm : string) (t tc tn : Q),
      divides s new_algorithm tc tn ->
      (forall current current_data,
          current_algorithm s = Some current ->
          dict_get (profitability_data s) current = Some current_data ->
          ~ profit_per_hour current_data == 0) ->
      exists b : bool, _should_switch s new_algorithm t tc tn = Ok b)
  /\ (forall (s : ProfitSwitcher) (new_algorithm : string) (t tc tn : Q)
             (current_data new_data : ProfitabilityData),
        divides s new_algorithm tc tn ->
        past_guards s new_algorithm t current_data new_data ->
        profit_per_hour current_data == 0 ->
        _should_switch s new_algorithm t tc tn = Raise ZeroDivisionError)
  /\ _should_switch (Examples.switcher THRESHOLD 0 115) "ethash" 1000 1000 1000
     = Raise ZeroDivisionError.
Proof.
  split; [|split; [|reflexivity]].
  - intros s new_algorithm t tc tn Hdiv Hnz. unfold _should_switch.
    destruct (negb (truthy (current_algorithm s))); [eauto|].
    destruct (bool_decide (current_algorithm s = Some new_algorithm)); [eauto|].
    destruct (Qlt_bool (t - last_switch_time s) (min_switch_interval s)); [eauto|].
    destruct (current_algorithm s) as [current|] eqn:Hcur; [|simpl; eauto]. simpl.
    destruct (dict_get (profitability_data s) current) as [current_data|] eqn:Hcd;
      [|eauto].
    destruct (dict_get (profitability_data s) new_algorithm) as [new_data|] eqn:Hnd;
      [|eauto].
    specialize (Hnz _ _ eq_refl Hcd).
    destruct Hdiv as [Hs|[Hs|[Hs Hshort]]]; rewrite Hs.
    + rewrite (truediv_nonzero _ _ Hnz). eauto.
    + rewrite (truediv_nonzero _ _ Hnz). eauto.
    + rewrite (predictive_short _ _ _ _ _ (Hshort _ _ _ Hcur Hcd Hnd)).
      rewrite (truediv_nonzero _ _ Hnz). eauto.
  - intros s new_algorithm t tc tn current_data new_data Hdiv Hg Hz.
    rewrite (_should_switch_strategy _ _ _ _ _ _ _ Hg).
    destruct Hg as (current & Hcur & _ & _ & _ & Hcd & Hnd).
    destruct Hdiv as [Hs|[Hs|[Hs Hshort]]]; rewrite Hs.
    + now rewrite (truediv_zero _ _ Hz).
    + now rewrite (truediv_zero _ _ Hz).
    + rewrite (predictive_short _ _ _ _ _ (Hshort _ _ _ Hcur Hcd Hnd)).
      now rewrite (truediv_zero _ _ Hz).
Qed.

Lemma division_by_current_profit_witness :
  (exists b : bool,
      _should_switch (Examples.switcher GRADUAL 100 104) "ethash" 1000 1000 1000 = Ok b)
  /\ _should_switch (Examples.switcher GRADUAL 0 104) "ethash" 1000 1000 1000
     = Raise ZeroDivisionError.
Proof.
  split.
  - apply (proj1 division_by_current_profit).
    + right. left. reflexivity.
    + intros current current_data [= <-] [= <-]. simpl. lra.
  - apply (proj1 (proj2 division_by_current_profit) _ _ _ _ _
             (Examples.figures "sha256" 0) (Examples.figures "ethash" 104)).
    + right. left. reflexivity.
    + exists "sha256". repeat split; discriminate.
    + reflexivity.
Defined.

Lemma spaced_drop (gap : Q) (n : nat) (history : list (Q * string * string)) :
  spaced gap history -> spaced gap (drop n history).
Proof.
  intros H i j e1 e2 Hij H1 H2. rewrite lookup_drop in H1, H2.
  apply (H (n + i)%nat (n + j)%nat); [lia | assumption | assumption].
Qed.

Lemma spaced_snoc (gap : Q) (history : list (Q * string * string))
    (e : Q * string * string) :
  spaced gap history ->
  Forall (fun e1 : Q * string * string => gap <= fst (fst e) - fst (fst e1)) history ->
  spaced gap (history ++ [e]).
Proof.
  intros Hsp Hall i j e1 e2 Hij H1 H2.
  destruct (decide (j < length history)%nat) as [Hj|Hj].
  - rewrite lookup_app_l in H1, H2 by lia. now apply (Hsp i j).
  - rewrite lookup_app_l in H1.
    2:{ apply lookup_lt_Some in H2. rewrite length_app in H2. simpl in H2. lia. }
    rewrite lookup_app_r in H2 by lia.
    destruct (j - length history)%nat eqn:E; simpl in H2; [|destruct n; discriminate].
    injection H2 as <-.
    rewrite Forall_forall in Hall. apply Hall.
    eapply list_elem_of_lookup_2. exact H1.
Qed.

(** An accepted switch away from a current algorithm has waited for the
    interval, whatever the strategy and the profits. *)
Lemma accepted_after_interval (s : ProfitSwitcher) (new_algorithm : string)
    (t tc tn : Q) :
  truthy (current_algorithm s) = true ->
  _should_switch s new_algorithm t tc tn = Ok true ->
  min_switch_interval s <= t - last_switch_time s.
Proof.
  intros Htr H. unfold _should_switch in H. rewrite Htr in H. simpl in H.
  destruct (bool_decide (current_algorithm s = Some new_algorithm)); [discriminate|].
  destruct (Qlt_bool (t - last_switch_time s) (min_switch_interval s)) eqn:E;
    [discriminate|].
  now apply Qlt_bool_false_iff.
Qed.

Lemma guarded_log_invariant (s : ProfitSwitcher) : guarded s -> log_invariant s.
Proof.
  induction 1 as [strategy threshold interval default
                 | s d Hg IH
                 | s from_algorithm to_algorithm t tc tn t_entry t_last
                     Hg IH Hto Hacc Hmono Hentry Hlast].
  - split; [|split; [constructor | left; reflexivity]].
    intros i j e1 e2 _ H1. simpl in H1. rewrite lookup_nil in H1. discriminate.
  - exact IH.
  - destruct IH as (Hsp & Hold & Hcur).
    unfold log_invariant, record_switch. simpl.
    set (entry := (t_entry, from_algorithm, to_algorithm)).
    assert (Hsp' : spaced (min_switch_interval s) (switch_history s ++ [entry])).
    { apply spaced_snoc; [exact Hsp|].
      destruct Hcur as [Hnil|Htr]; [rewrite Hnil; constructor|].
      pose proof (accepted_after_interval _ _ _ _ _ Htr Hacc) as Hint.
      eapply Forall_impl; [exact Hold|]. intros e1 He1. simpl in *. lra. }
    assert (Hold' : Forall (fun e : Q * string * string => fst (fst e) <= t_last)
                           (switch_history s ++ [entry])).
    { apply Forall_app. split.
      - eapply Forall_impl; [exact Hold|]. intros e1 He1. simpl in *. lra.
      - constructor; [simpl; lra | constructor]. }
    assert (Htruthy : truthy (Some to_algorithm) = true).
    { simpl. destruct (String.eqb to_algorithm "") eqn:E; [|reflexivity].
      apply String.eqb_eq in E. contradiction. }
    destruct (100 <? length (switch_history s ++ [entry]))%nat.
    + split; [now apply spaced_drop|]. split; [now apply Forall_drop|].
      right. exact Htruthy.
    + split; [exact Hsp'|]. split; [exact Hold'|]. right. exact Htruthy.
Qed.

(** C3 (amended).  [record_switch] appends without looking at the clock;
    the interval is checked by [_should_switch] alone.  In every state
    reached by a caller who records a switch only after [_should_switch]
    accepted the candidate (names not empty, clock not running backwards),
    any two distinct entries of the switch-history log lie at least
    [min_switch_interval] apart, whatever the strategy and the profits. *)
Theorem guarded_switches_spaced (s : ProfitSwitcher) (i j : nat)
    (e1 e2 : Q * string * string) :
  guarded s -> i <> j ->
  switch_history s !! i = Some e1 -> switch_history s !! j = Some e2 ->
  min_switch_interval s <= Qabs (fst (fst e1) - fst (fst e2)).
Proof.
  intros Hg Hij H1 H2.
  destruct (guarded_log_invariant s Hg) as (Hsp & _ & _).
  destruct (Nat.lt_total i j) as [Hlt|[Heq|Hgt]]; [| contradiction |].
  - pose proof (Hsp i j e1 e2 Hlt H1 H2) as H.
    rewrite Qabs_Qminus. eapply Qle_trans; [exact H | apply Qle_Qabs].
  - pose proof (Hsp j i e2 e1 Hgt H2 H1) as H.
    eapply Qle_trans; [exact H | apply Qle_Qabs].
Qed.

Lemma guarded_switches_spaced_witness :
  300 <= Qabs (1000 - 1400).
Proof.
  pose (s0 := new_switcher THRESHOLD (1 # 10) 300 "sha256").
  pose (s1 := record_switch s0 "" "sha256" 1000 1000).
  pose (s2 := update_profitability
                (update_profitability s1 (Examples.figures "sha256" 100))
                (Examples.figures "ethash" 115)).
  pose (s3 := record_switch s2 "sha256" "ethash" 1400 1400).
  assert (G1 : guarded s1).
  { apply (guarded_switch s0 "" "sha256" 1000 1000 1000 1000 1000).
    - constructor.
    - discriminate.
    - reflexivity.
    - discriminate.
    - discriminate.
    - discriminate. }
  assert (G3 : guarded s3).
  { apply (guarded_switch s2 "sha256" "ethash" 1400 1400 1400 1400 1400).
    - do 2 constructor. exact G1.
    - discriminate.
    - reflexivity.
    - discriminate.
    - discriminate.
    - discriminate. }
  exact (guarded_switches_spaced s3 0 1 (1000, "", "sha256") (1400, "sha256", "ethash")
           G3 (O_S 0) eq_refl eq_refl).
Defined.

(** C3, counterexample.  Two calls of [record_switch] one second apart,
    with a minimum interval of 300 s: both are logged. *)
Lemma unguarded_record_switch :
  let s0 := new_switcher THRESHOLD (1 # 10) 300 "sha256" in
  let s1 := record_switch s0 "sha256" "ethash" 1000 1000 in
  let s2 := record_switch s1 "ethash" "sha256" 1001 1001 in
  switch_history s2 = [(1000, "sha256", "ethash"); (1001, "ethash", "sha256")]
  /\ ~ min_switch_interval s2 <= Qabs (1000 - 1001).
Proof.
  split; [reflexivity|]. vm_compute. intros H. apply H. reflexivity.
Qed.

(** *** Sums and the trend *)

Lemma fold_Qplus (l : list Q) (a : Q) : fold_left Qplus l a == a + Qsum l.
Proof.
  unfold Qsum. revert a. induction l as [|x l IH]; intros a; simpl.
  - ring.
  - rewrite (IH (a + x)), (IH (0 + x)). ring.
Qed.

Lemma Qsum_cons (x : Q) (l : list Q) : Qsum (x :: l) == x + Qsum l.
Proof.
  unfold Qsum at 1. simpl. rewrite fold_Qplus. ring.
Qed.

Lemma Qsum_app (l1 l2 : list Q) : Qsum (l1 ++ l2) == Qsum l1 + Qsum l2.
Proof.
  induction l1 as [|x l1 IH]; simpl.
  - unfold Qsum at 2. simpl. ring.
  - rewrite !Qsum_cons, IH. ring.
Qed.

Lemma Qsum_snoc (l : list Q) (x : Q) : Qsum (l ++ [x]) == Qsum l + x.
Proof.
  rewrite Qsum_app, Qsum_cons. unfold Qsum at 2. simpl. ring.
Qed.

Lemma count_S (n : nat) : count (S n) == count n + 1.
Proof.
  unfold count. rewrite Nat2Z.inj_succ, <- Z.add_1_r, inject_Z_plus. reflexivity.
Qed.

Lemma count_ge (n m : nat) : (m <= n)%nat -> count m <= count n.
Proof.
  intros H. unfold count. rewrite <- Zle_Qle. lia.
Qed.

Lemma range_S (n : nat) : range (S n) = range n ++ [count n].
Proof.
  unfold range. rewrite seq_S, map_app. reflexivity.
Qed.

Lemma range_length (n : nat) : length (range n) = n.
Proof. unfold range. now rewrite length_map, length_seq. Qed.

Lemma sum_range (n : nat) : 2 * Qsum (range n) == count n * (count n - 1).
Proof.
  induction n as [|n IH].
  - reflexivity.
  - rewrite range_S, Qsum_snoc, count_S.
    assert (E : 2 * (Qsum (range n) + count n)
                == 2 * Qsum (range n) + 2 * count n) by ring.
    rewrite E, IH. ring.
Qed.

Lemma sum_squares (n : nat) :
  6 * Qsum (map (fun xi => xi * xi) (range n))
  == (count n - 1) * count n * (2 * count n - 1).
Proof.
  induction n as [|n IH].
  - reflexivity.
  - rewrite range_S, map_app.
    change (map (fun xi => xi * xi) [count n]) with [count n * count n].
    rewrite Qsum_snoc, count_S.
    assert (E : 6 * (Qsum (map (fun xi => xi * xi) (range n)) + count n * count n)
                == 6 * Qsum (map (fun xi => xi * xi) (range n))
                   + 6 * (count n * count n)) by ring.
    rewrite E, IH. ring.
Qed.

(** The divisor of the slope is positive from two samples on. *)
Lemma trend_divisor (n : nat) :
  (2 <= n)%nat ->
  ~ count n * Qsum (map (fun xi => xi * xi) (range n))
    - Qsum (range n) * Qsum (range n) == 0.
Proof.
  intros Hn.
  pose proof (sum_range n) as H1. pose proof (sum_squares n) as H2.
  pose proof (count_ge n 2 Hn) as Hc. change (count 2) with 2 in Hc.
  set (N := count n) in *. set (S1 := Qsum (range n)) in *.
  set (S2 := Qsum (map (fun xi => xi * xi) (range n))) in *.
  assert (E1 : S1 == N * (N - 1) * (1 # 2)) by lra.
  assert (E2 : S2 == (N - 1) * N * (2 * N - 1) * (1 # 6)) by lra.
  rewrite E1, E2.
  assert (E3 : N * ((N - 1) * N * (2 * N - 1) * (1 # 6))
               - N * (N - 1) * (1 # 2) * (N * (N - 1) * (1 # 2))
               == (1 # 12) * (N * N) * ((N - 1) * (N + 1))) by ring.
  rewrite E3.
  assert (P1 : 0 < N * N) by (apply Qmult_lt_0_compat; lra).
  assert (P2 : 0 < (N - 1) * (N + 1)) by (apply Qmult_lt_0_compat; lra).
  assert (P3 : 0 < (1 # 12) * (N * N)) by (apply Qmult_lt_0_compat; [reflexivity | exact P1]).
  pose proof (Qmult_lt_0_compat _ _ P3 P2) as P.
  intros E. rewrite E in P. apply (Qlt_irrefl 0). exact P.
Qed.

Lemma Qsum_replicate (k : nat) (p : Q) : Qsum (replicate k p) == count k * p.
Proof.
  induction k as [|k IH].
  - unfold Qsum, count. simpl. ring.
  - simpl replicate. rewrite Qsum_cons, IH, count_S. ring.
Qed.

Lemma Qsum_scaled (x : list Q) (p : Q) :
  Qsum (zip_with Qmult x (replicate (length x) p)) == Qsum x * p.
Proof.
  induction x as [|xi x IH]; simpl.
  - unfold Qsum. simpl. ring.
  - rewrite !Qsum_cons, IH. ring.
Qed.

Lemma Qlt_bool_proper (a a' b b' : Q) :
  a == a' -> b == b' -> Qlt_bool a b = Qlt_bool a' b'.
Proof.
  intros Ha Hb. unfold Qlt_bool. now rewrite Ha, Hb.
Qed.

(** The slope of a constant series. *)
Lemma trend_constant (k : nat) (p : Q) :
  exists slope : Q, _calculate_trend (replicate k p) = Ok slope /\ slope == 0.
Proof.
  unfold _calculate_trend. rewrite length_replicate.
  destruct (k <? 2)%nat eqn:E.
  - exists 0. split; reflexivity.
  - apply Nat.ltb_ge in E.
    rewrite truediv_nonzero by (apply (trend_divisor k E)).
    eexists. split; [reflexivity|].
    pose proof (Qsum_scaled (range k) p) as Hxy. rewrite range_length in Hxy.
    fold (count k). rewrite Hxy, Qsum_replicate.
    unfold Qdiv.
    assert (Ez : count k * (Qsum (range k) * p) - Qsum (range k) * (count k * p) == 0)
      by ring.
    rewrite Ez. ring.
Qed.

Lemma flat_map_constant {A} (f : A -> list Q) (p : Q) (l : list A) :
  (forall x : A, f x = [p] \/ f x = []) ->
  exists k : nat, flat_map f l = replicate k p.
Proof.
  intros Hf. induction l as [|x l [k IH]]; simpl.
  - exists 0%nat. reflexivity.
  - rewrite IH. destruct (Hf x) as [-> | ->].
    + exists (S k). reflexivity.
    + exists k. reflexivity.
Qed.

(** The retrieved history holds copies of one value: the profit that the
    algorithm has now. *)
Lemma history_constant (s : ProfitSwitcher) (algo : string) (now : Q) :
  exists (k : nat) (p : Q), _get_algorithm_history s algo now = replicate k p.
Proof.
  unfold _get_algorithm_history.
  destruct (dict_get (profitability_data s) algo) as [data|].
  - destruct (flat_map_constant
                (fun entry : Q * string * string =>
                   let '(ts, from_algo, to_algo) := entry in
                   if Qle_bool (now - 30 * 60) ts
                      && (String.eqb from_algo algo || String.eqb to_algo algo)
                   then [profit_per_hour data] else [])
                (profit_per_hour data) (switch_history s)) as [k Hk].
    + intros [[ts f] t]. destruct (Qle_bool _ _ && _); auto.
    + exists k, (profit_per_hour data). exact Hk.
  - destruct (flat_map_constant
                (fun entry : Q * string * string =>
                   let '(ts, from_algo, to_algo) := entry in
                   if Qle_bool (now - 30 * 60) ts
                      && (String.eqb from_algo algo || String.eqb to_algo algo)
                   then @nil Q else [])
                0 (switch_history s)) as [k Hk].
    + intros [[ts f] t]. destruct (Qle_bool _ _ && _); auto.
    + exists k, 0. exact Hk.
Qed.

(** X6.  [_calculate_trend] never raises.  With fewer than two samples
    it returns 0.  From two samples on, the divisor
    [n * sum_x2 - sum_x ** 2] is [n^2 (n^2 - 1) / 12], which is positive,
    and the result is the least-squares slope over the positions
    [0 .. n-1]: [slope * n^2 (n^2 - 1) = 12 n sum_xy - 6 n (n - 1) sum_y]. *)
Theorem trend_never_raises (history : list Q) :
  let n := count (length history) in
  ((length history < 2)%nat -> _calculate_trend history = Ok 0)
  /\ ((2 <= length history)%nat ->
      exists slope : Q,
        _calculate_trend history = Ok slope
        /\ 0 < n * n * (n * n - 1)
        /\ slope * (n * n * (n * n - 1))
           == 12 * (n * Qsum (zip_with Qmult (range (length history)) history))
              - 6 * (n * (n - 1)) * Qsum history).
Proof.
  intros n. unfold _calculate_trend. split.
  - intros H. apply Nat.ltb_lt in H. now rewrite H.
  - intros H. pose proof H as Hlt. apply Nat.ltb_ge in Hlt. rewrite Hlt.
    pose proof (trend_divisor (length history) H) as HD.
    rewrite truediv_nonzero by exact HD.
    eexists. split; [reflexivity|].
    pose proof (sum_range (length history)) as H1.
    pose proof (sum_squares (length history)) as H2.
    pose proof (count_ge (length history) 2 H) as Hc. change (count 2) with 2 in Hc.
    fold (count (length history)) in *. fold n in H1, H2, Hc, HD |- *.
    set (S1 := Qsum (range (length history))) in *.
    set (S2 := Qsum (map (fun xi => xi * xi) (range (length history)))) in *.
    set (Sxy := Qsum (zip_with Qmult (range (length history)) history)) in *.
    set (Sy := Qsum history) in *.
    assert (E1 : S1 == n * (n - 1) * (1 # 2)) by lra.
    assert (E2 : S2 == (n - 1) * n * (2 * n - 1) * (1 # 6)) by lra.
    assert (E12 : n * n * (n * n - 1) == 12 * (n * S2 - S1 * S1))
      by (rewrite E1, E2; ring).
    split.
    + assert (Hn2 : 0 < n * n) by (apply Qmult_lt_0_compat; lra).
      assert (Hn3 : 1 < n * n).
      { assert (E : n * n == 1 + ((n - 1) * (n - 1) + 2 * (n - 1))) by ring.
        assert (0 <= (n - 1) * (n - 1)) by (apply Qmult_le_0_compat; lra).
        lra. }
      apply Qmult_lt_0_compat; lra.
    + rewrite E12.
      assert (Es : (n * Sxy - S1 * Sy) / (n * S2 - S1 * S1)
                   * (12 * (n * S2 - S1 * S1))
                   == 12 * (n * Sxy - S1 * Sy)) by (field; exact HD).
      rewrite Es, E1. ring.
Qed.

Lemma trend_never_raises_witness :
  exists slope : Q,
    _calculate_trend [1; 3; 5] = Ok slope
    /\ 0 < 3 * 3 * (3 * 3 - 1)
    /\ slope * (3 * 3 * (3 * 3 - 1)) == 12 * (3 * (0 * 1 + 1 * 3 + 2 * 5)) - 6 * (3 * 2) * 9.
Proof.
  assert (H : (2 <= length [1; 3; 5])%nat) by (simpl; lia).
  destruct (proj2 (trend_never_raises [1; 3; 5]) H) as (slope & E & Hp & Hs).
  exists slope. split; [exact E|].
  injection E as <-. split; reflexivity.
Defined.

(** X7.  With at least 3 samples for both algorithms, the predictive
    strategy decides by the present profits alone: the history that
    [_get_algorithm_history] retrieves holds copies of the algorithm's
    present profit, so both trends are 0 and the decision is
    [new profit > current profit * 1.05]; it never raises. *)
Theorem predictive_ignores_history (s : ProfitSwitcher)
    (current_data new_data : ProfitabilityData) (tc tn : Q) :
  (3 <= length (_get_algorithm_history s (algorithm current_data) tc))%nat ->
  (3 <= length (_get_algorithm_history s (algorithm new_data) tn))%nat ->
  _predictive_switch_decision s current_data new_data tc tn
  = Ok (Qlt_bool (profit_per_hour current_data * (105 # 100))
                 (profit_per_hour new_data)).
Proof.
  intros Hc Hn. unfold _predictive_switch_decision.
  apply Nat.ltb_ge in Hc, Hn. rewrite Hc, Hn. simpl.
  destruct (history_constant s (algorithm current_data) tc) as (kc & pc & ->).
  destruct (history_constant s (algorithm new_data) tn) as (kn & pn & ->).
  destruct (trend_constant kc pc) as (sc & -> & Ec).
  destruct (trend_constant kn pn) as (sn & -> & En).
  f_equal. apply Qlt_bool_proper; rewrite ?Ec, ?En; ring.
Qed.

Lemma predictive_ignores_history_witness :
  _predictive_switch_decision (Examples.seasoned 100 104)
    (Examples.figures "sha256" 100) (Examples.figures "ethash" 104) 1000 1000
  = Ok false.
Proof.
  exact (predictive_ignores_history (Examples.seasoned 100 104)
           (Examples.figures "sha256" 100) (Examples.figures "ethash" 104) 1000 1000
           (le_n 3) (le_n 3)).
Defined.

(** *** The choice of the best algorithm *)

Lemma best_entry_spec (d : dict ProfitabilityData) (best : string * ProfitabilityData) :
  (best_entry d best = best \/ best_entry d best ∈ d)
  /\ profit_per_hour (snd best) <= profit_per_hour (snd (best_entry d best))
  /\ Forall (fun kv : string * ProfitabilityData =>
               profit_per_hour (snd kv) <= profit_per_hour (snd (best_entry d best))) d.
Proof.
  revert best. induction d as [|[k v] d IH]; intros best; simpl.
  - split; [now left|]. split; [apply Qle_refl | constructor].
  - destruct (Qlt_bool (profit_per_hour (snd best)) (profit_per_hour v)) eqn:E.
    + apply Qlt_bool_iff in E.
      destruct (IH (k, v)) as (Hin & Hle & Hall). simpl in Hle.
      split; [|split].
      * right. destruct Hin as [-> | Hin]; [left | now right].
      * lra.
      * constructor; [exact Hle | exact Hall].
    + apply Qlt_bool_false_iff in E.
      destruct (IH best) as (Hin & Hle & Hall).
      split; [|split].
      * destruct Hin as [-> | Hin]; [now left | right; now right].
      * exact Hle.
      * constructor; [simpl; lra | exact Hall].
Qed.

(** X8.  As long as no switch has been recorded (no current algorithm),
    [get_best_algorithm] returns an algorithm of the profitability table
    whose profit per hour no other entry exceeds, under every strategy and
    without raising. *)
Theorem best_without_current (s : ProfitSwitcher) (t tc tn : Q) :
  truthy (current_algorithm s) = false ->
  profitability_data s <> [] ->
  exists (k : string) (v : ProfitabilityData),
    get_best_algorithm s t tc tn = Ok k
    /\ (k, v) ∈ profitability_data s
    /\ Forall (fun kv : string * ProfitabilityData =>
                 profit_per_hour (snd kv) <= profit_per_hour v)
              (profitability_data s).
Proof.
  intros Hcur Hdata. unfold get_best_algorithm.
  destruct (profitability_data s) as [|first rest]; [contradiction|].
  unfold _should_switch. rewrite Hcur. simpl.
  destruct (best_entry_spec rest first) as (Hin & Hle & Hall).
  destruct (best_entry rest first) as [k v] eqn:E. simpl in *.
  exists k, v. split; [reflexivity|]. split.
  - destruct Hin as [<- | Hin]; [left | now right].
  - constructor; [exact Hle | exact Hall].
Qed.

Lemma best_without_current_witness :
  exists (k : string) (v : ProfitabilityData),
    get_best_algorithm
      (update_profitability
         (update_profitability (new_switcher THRESHOLD (1 # 10) 300 "sha256")
                               (Examples.figures "sha256" 100))
         (Examples.figures "ethash" 115)) 1000 1000 1000 = Ok k
    /\ (k, v) ∈ [("sha256", Examples.figures "sha256" 100);
                 ("ethash", Examples.figures "ethash" 115)]
    /\ Forall (fun kv : string * ProfitabilityData =>
                 profit_per_hour (snd kv) <= profit_per_hour v)
              [("sha256", Examples.figures "sha256" 100);
               ("ethash", Examples.figures "ethash" 115)].
Proof.
  apply (best_without_current
           (update_profitability
              (update_profitability (new_switcher THRESHOLD (1 # 10) 300 "sha256")
                                    (Examples.figures "sha256" 100))
              (Examples.figures "ethash" 115)) 1000 1000 1000).
  - reflexivity.
  - discriminate.
Defined.

(** X9.  Hysteresis at the entry point: with a current algorithm set and
    less than [min_switch_interval] since the last switch,
    [get_best_algorithm] returns the current algorithm, whatever the
    strategy and the profits, and does not raise (not even when the
    current profit is 0). *)
Theorem hysteresis_keeps_current (s : ProfitSwitcher) (current : string) (t tc tn : Q) :
  current_algorithm s = Some current -> current <> "" ->
  profitability_data s <> [] ->
  t - last_switch_time s < min_switch_interval s ->
  get_best_algorithm s t tc tn = Ok current.
Proof.
  intros Hcur Hne Hdata Hint. unfold get_best_algorithm.
  destruct (profitability_data s) as [|first rest]; [contradiction|].
  assert (Htr : truthy (current_algorithm s) = true).
  { rewrite Hcur. simpl. destruct (String.eqb current "") eqn:E; [|reflexivity].
    apply String.eqb_eq in E. contradiction. }
  unfold _should_switch. rewrite Htr. simpl.
  apply Qlt_bool_iff in Hint. rewrite Hint.
  destruct (bool_decide (current_algorithm s = Some (fst (best_entry rest first))));
    rewrite Hcur; reflexivity.
Qed.

Lemma hysteresis_keeps_current_witness :
  get_best_algorithm
    (record_switch (Examples.switcher THRESHOLD 0 115) "ethash" "sha256" 1000 1000)
    1200 1200 1200
  = Ok "sha256".
Proof.
  apply (hysteresis_keeps_current
           (record_switch (Examples.switcher THRESHOLD 0 115) "ethash" "sha256" 1000 1000)
           "sha256" 1200 1200 1200).
  - reflexivity.
  - discriminate.
  - discriminate.
  - reflexivity.
Defined.

(** X10.  The gradual strategy is at least as willing as the threshold
    strategy: with a threshold that is not negative, every candidate that
    the threshold strategy accepts is accepted by the gradual strategy on
    the same state and inputs. *)
Theorem gradual_accepts_more (s : ProfitSwitcher) (new_algorithm : string)
    (t tc tn : Q) :
  0 <= switch_threshold s ->
  _should_switch (with_strategy s THRESHOLD) new_algorithm t tc tn = Ok true ->
  _should_switch (with_strategy s GRADUAL) new_algorithm t tc tn = Ok true.
Proof.
  intros Hthr. unfold _should_switch. simpl.
  destruct (negb (truthy (current_algorithm s))); [auto|].
  destruct (bool_decide (current_algorithm s = Some new_algorithm)); [auto|].
  destruct (Qlt_bool (t - last_switch_time s) (min_switch_interval s)); [auto|].
  destruct (current_algorithm s ≫= dict_get (profitability_data s))
    as [current_data|]; [|auto].
  destruct (dict_get (profitability_data s) new_algorithm) as [new_data|]; [|auto].
  destruct (truediv _ _) as [improvement|e]; [|auto].
  intros [= H]. f_equal. apply Qle_bool_iff in H. apply Qle_bool_iff. lra.
Qed.

Lemma gradual_accepts_more_witness :
  _should_switch (Examples.switcher GRADUAL 100 115) "ethash" 1000 1000 1000 = Ok true.
Proof.
  apply (gradual_accepts_more (Examples.switcher IMMEDIATE 100 115) "ethash"
           1000 1000 1000).
  - discriminate.
  - reflexivity.
Defined.

(** *** The switch log *)

(** X11.  [record_switch] keeps the log bounded and ordered: afterwards
    the log holds [min (n + 1) 100] entries for a log of [n] before, it is
    the tail of the old log followed by the new entry, its newest entry
    is the switch just recorded, and asking [get_switch_history(1)]
    returns exactly that switch. *)
Theorem record_switch_log (s : ProfitSwitcher) (from_algorithm to_algorithm : string)
    (now_entry now_last : Q) :
  let s' := record_switch s from_algorithm to_algorithm now_entry now_last in
  length (switch_history s') = Nat.min (S (length (switch_history s))) 100
  /\ (exists k : nat,
        switch_history s'
        = drop k (switch_history s ++ [(now_entry, from_algorithm, to_algorithm)]))
  /\ last (switch_history s') = Some (now_entry, from_algorithm, to_algorithm)
  /\ get_switch_history s' 1 = [(now_entry, from_algorithm, to_algorithm)].
Proof.
  set (entry := (now_entry, from_algorithm, to_algorithm)).
  assert (Hlen : length (switch_history s ++ [entry]) = S (length (switch_history s)))
    by (rewrite length_app; simpl; lia).
  assert (Hlast : last (switch_history s ++ [entry]) = Some entry) by apply last_snoc.
  assert (Hone : forall l : list (Q * string * string),
             last l = Some entry -> slice_last l 1 = [entry]).
  { intros l Hl. unfold slice_last.
    change (0 <? 1)%Z with true. cbv iota. change (Z.to_nat 1) with 1%nat.
    destruct l as [|x l _] using rev_ind; [discriminate|].
    rewrite last_snoc in Hl. injection Hl as ->.
    rewrite length_app. simpl length.
    replace (length l + 1 - 1)%nat with (length l) by lia.
    apply drop_app_length. }
  unfold get_switch_history, record_switch. simpl. fold entry.
  destruct (100 <? length (switch_history s ++ [entry]))%nat eqn:E.
  - apply Nat.ltb_lt in E.
    assert (Hl : last (drop (length (switch_history s ++ [entry]) - 100)
                            (switch_history s ++ [entry])) = Some entry)
      by (rewrite last_drop_lt by lia; exact Hlast).
    split; [rewrite length_drop; lia|]. split; [eauto|]. split; [exact Hl|].
    apply Hone. exact Hl.
  - apply Nat.ltb_ge in E.
    split; [lia|]. split; [exists 0%nat; reflexivity|]. split; [exact Hlast|].
    apply Hone. exact Hlast.
Qed.

End ProfitSwitchFacts.

(** ** The switching decision on binary64 values *)

Module ProfitSwitch64Facts.
Import Py ProfitSwitch64.
Import PrimFloat.
Local Open Scope float_scope.
#[local] Set Warnings "-inexact-float".

(** C7 (amended).  Under the threshold strategy, once the guards are
    passed and the current profit is not zero, [_should_switch] returns
    [True] exactly when the binary64 value of
    [(candidate - current) / current], one rounded subtraction followed by
    one rounded division, is at least [switch_threshold]; at profits 100
    and 115 with threshold 0.1 it returns [True], at 100 and 105
    [False]. *)
Theorem threshold_rule :
  (forall (predictive : ProfitSwitcher -> ProfitabilityData -> ProfitabilityData ->
                        result bool)
          (s : ProfitSwitcher) (new_algorithm : string) (t : float)
          (current_data new_data : ProfitabilityData),
      switch_strategy s = ProfitSwitch.THRESHOLD ->
      past_guards s new_algorithm t current_data new_data ->
      (profit_per_hour current_data =? 0) = false ->
      exists b : bool,
        _should_switch predictive s new_algorithm t = Ok b
        /\ (b = true <->
            (switch_threshold s
             <=? (profit_per_hour new_data - profit_per_hour current_data)
                 / profit_per_hour current_data) = true))
  /\ (forall predictive,
        _should_switch predictive (Examples.switcher64 0.1 100 115) "ethash" 1000
        = Ok true)
  /\ (forall predictive,
        _should_switch predictive (Examples.switcher64 0.1 100 105) "ethash" 1000
        = Ok false).
Proof.
  split; [|split; intros predictive; reflexivity].
  intros predictive s new_algorithm t current_data new_data Hs
         (current & Hcur & Hne & Hdiff & Hint & Hcd & Hnd) Hnz.
  unfold _should_switch. rewrite Hcur. simpl.
  destruct (String.eqb current "") eqn:E.
  { apply String.eqb_eq in E. contradiction. }
  simpl. rewrite bool_decide_eq_false_2 by congruence.
  rewrite Hint, Hcd, Hnd, Hs. unfold truediv. rewrite Hnz.
  eexists. split; [reflexivity|]. reflexivity.
Qed.

Lemma threshold_rule_witness :
  exists b : bool,
    _should_switch Examples.declining (Examples.switcher64 0.1 100 115) "ethash" 1000
    = Ok b
    /\ (b = true <-> (0.1 <=? (115 - 100) / 100) = true).
Proof.
  apply (proj1 threshold_rule Examples.declining (Examples.switcher64 0.1 100 115)
           "ethash" 1000 (Examples.figures64 "sha256" 100)
           (Examples.figures64 "ethash" 115)).
  - reflexivity.
  - exists "sha256". repeat split; discriminate.
  - reflexivity.
Defined.

(** C7, counterexample.  At current profit 3.0, candidate profit 3.3 and
    threshold 0.1 the improvement in exact numbers is the threshold,
    [(33/10 - 3) / 3 = 1/10], and the decision over exact numbers is to
    switch; the code computes [0.09999999999999994] and declines. *)
Lemma threshold_rounding :
  (forall predictive,
      _should_switch predictive (Examples.switcher64 0.1 3.0 3.3) "ethash" 1000
      = Ok false)
  /\ ((1 # 10) <= ((33 # 10) - 3) / 3)%Q
  /\ ProfitSwitch._should_switch
       (Examples.switcher ProfitSwitch.THRESHOLD 3 (33 # 10)) "ethash" 1000 1000 1000
     = Ok true.
Proof.
  split; [intros predictive; reflexivity|]. split; [|reflexivity].
  vm_compute. discriminate.
Qed.

End ProfitSwitch64Facts.

(** ** The scaling policies *)

Module ScalingFacts.
Import Py PyFacts Scaling.
Local Open Scope Q_scope.

Lemma should_scale_cooldown (p : ScalingPolicy) (metrics : ResourceMetrics) (now : Q) :
  now - last_action p < cooldown p -> should_scale p metrics now = false.
Proof.
  intros H. unfold should_scale. apply Qlt_bool_iff in H. now rewrite H.
Qed.

(** A CPU action that reports success has written a new thread count. *)
Lemma cpu_action_success (p p' : ScalingPolicy) (metrics : ResourceMetrics)
    (env env' : Environment) (max_threads : Z) (original : option Z) :
  kind p = CPUScalingPolicy max_threads original ->
  _scale_action p metrics env = (true, p', env') ->
  exists cfg : MinerConfig,
    config env = Some cfg
    /\ config env'
       = Some (mkConfig (Some (Z.max 1 (default 4%Z (cpu_threads cfg) - 1)))
                        (intensity cfg))
    /\ Z.max 1 (default 4%Z (cpu_threads cfg) - 1) <> default 4%Z (cpu_threads cfg).
Proof.
  intros Hk H. unfold _scale_action in H. rewrite Hk in H.
  destruct (miner_instance p); [|discriminate].
  destruct (config env) as [cfg|]; [|discriminate].
  destruct (Z.eqb_spec (Z.max 1 (default 4%Z (cpu_threads cfg) - 1))
                       (default 4%Z (cpu_threads cfg))) as [E|E];
    simpl in H; [discriminate|].
  destruct cfg as [threads level|]; simpl in H; [|discriminate].
  injection H as _ <-. exists (mkConfig threads level). simpl. auto.
Qed.

(** An intensity action that reports success has written a new intensity. *)
Lemma intensity_action_success (p p' : ScalingPolicy) (metrics : ResourceMetrics)
    (env env' : Environment) (original : option Q) :
  kind p = IntensityScalingPolicy original ->
  _scale_action p metrics env = (true, p', env') ->
  exists cfg : MinerConfig,
    config env = Some cfg
    /\ config env'
       = Some (mkConfig (cpu_threads cfg)
                        (Some (Qmax (3 # 10) (default (8 # 10) (intensity cfg) * (9 # 10)))))
    /\ ~ Qmax (3 # 10) (default (8 # 10) (intensity cfg) * (9 # 10))
         == default (8 # 10) (intensity cfg).
Proof.
  intros Hk H. unfold _scale_action in H. rewrite Hk in H.
  destruct (miner_instance p); [|discriminate].
  destruct (config env) as [cfg|]; [|discriminate].
  destruct (Qeq_bool (Qmax (3 # 10) (default (8 # 10) (intensity cfg) * (9 # 10)))
                     (default (8 # 10) (intensity cfg))) eqn:E;
    simpl in H; [discriminate|].
  destruct cfg as [threads level|]; simpl in H; [|discriminate].
  injection H as _ <-. exists (mkConfig threads level). simpl.
  split; [reflexivity|]. split; [reflexivity|].
  now apply Qeq_bool_neq.
Qed.

Lemma execute_scale_success (p p' : ScalingPolicy) (metrics : ResourceMetrics)
    (env env' : Environment) (t1 t2 : Q) :
  execute_scale p metrics env t1 t2 = (true, p', env') ->
  exists p0, _scale_action p metrics env = (true, p0, env').
Proof.
  unfold execute_scale. destruct (should_scale p metrics t1); [|discriminate].
  destruct (_scale_action p metrics env) as [[success p0] env0].
  destruct success; [|discriminate]. intros [= _ <-]. eauto.
Qed.

(** C9 (amended).  A fresh CPU policy (threshold 85, cooldown 120 s) with
    a miner whose configuration object accepts attribute assignment and
    holds at least 2 threads, fed a sample with the CPU at 96 % at a clock
    reading of at least 120: the first [execute_scale] lowers the thread
    count by exactly 1 and returns success; a second call 0 seconds later
    is rejected by the cooldown, returns failure and changes nothing.
    When the configuration is a [dict] (what [AdvancedMiner] keeps), the
    assignment raises inside the action: the first call returns failure,
    the configuration, [last_action] and [action_count] are as before,
    and only the policy's record of the original value is set.  The CPU
    and the intensity policies return success only when they changed the
    configuration; at the floor (1 thread, intensity 0.3) they return
    failure and keep [last_action] and [action_count]. *)
Theorem cpu_and_intensity_scaling :
  (forall (max_threads n : Z) (level : option Q) (gc : nat)
          (metrics : ResourceMetrics) (t1 t2 t3 : Q),
      cpu_percent metrics = 96 -> (2 <= n)%Z -> 120 <= t1 ->
      exists p1 : ScalingPolicy,
        execute_scale (new_cpu_policy true max_threads) metrics
                      (mkEnv (Some (mkConfig (Some n) level)) gc) t1 t2
        = (true, p1, mkEnv (Some (mkConfig (Some (n - 1)%Z) level)) gc)
        /\ execute_scale p1 metrics
                         (mkEnv (Some (mkConfig (Some (n - 1)%Z) level)) gc) t2 t3
           = (false, p1, mkEnv (Some (mkConfig (Some (n - 1)%Z) level)) gc))
  /\ (forall (max_threads : Z) (gc : nat) (metrics : ResourceMetrics) (t1 t2 : Q),
        cpu_percent metrics = 96 -> 120 <= t1 ->
        execute_scale (new_cpu_policy true max_threads) metrics
                      (mkEnv (Some DictConfig) gc) t1 t2
        = (false,
           with_kind (new_cpu_policy true max_threads)
                     (CPUScalingPolicy max_threads (Some 4%Z)),
           mkEnv (Some DictConfig) gc))
  /\ (forall (p p' : ScalingPolicy) (metrics : ResourceMetrics)
             (env env' : Environment) (t1 t2 : Q),
        kind p <> MemoryScalingPolicy ->
        execute_scale p metrics env t1 t2 = (true, p', env') ->
        config env' <> config env)
  /\ (forall (p : ScalingPolicy) (metrics : ResourceMetrics) (env : Environment)
             (cfg : MinerConfig) (t1 t2 : Q),
        config env = Some cfg ->
        (exists m o, kind p = CPUScalingPolicy m o /\ cpu_threads cfg = Some 1%Z)
        \/ (exists o x, kind p = IntensityScalingPolicy o
                        /\ intensity cfg = Some x /\ x == 3 # 10) ->
        exists p' : ScalingPolicy,
          execute_scale p metrics env t1 t2 = (false, p', env)
          /\ last_action p' = last_action p
          /\ action_count p' = action_count p).
Proof.
  split; [|split; [|split]].
  - intros max_threads n level gc metrics t1 t2 t3 Hcpu Hn Ht1.
    assert (Hmax : Z.max 1 (n - 1) = (n - 1)%Z) by lia.
    assert (Hneq : (n - 1 =? n)%Z = false) by (apply Z.eqb_neq; lia).
    assert (Hcool : Qlt_bool (t1 - 0) 120 = false)
      by (apply Qlt_bool_false_iff; lra).
    eexists. split.
    + unfold execute_scale, should_scale, _evaluate_condition, _scale_action; simpl.
      rewrite Hcool, Hcpu. simpl. rewrite Hmax, Hneq. simpl. reflexivity.
    + unfold execute_scale. rewrite should_scale_cooldown; [reflexivity|].
      simpl. lra.
  - intros max_threads gc metrics t1 t2 Hcpu Ht1.
    assert (Hcool : Qlt_bool (t1 - 0) 120 = false)
      by (apply Qlt_bool_false_iff; lra).
    unfold execute_scale, should_scale, _evaluate_condition, _scale_action; simpl.
    rewrite Hcool, Hcpu. reflexivity.
  - intros p p' metrics env env' t1 t2 Hk H.
    destruct (execute_scale_success _ _ _ _ _ _ _ H) as [p0 Hact].
    destruct (kind p) as [max_threads original| |original] eqn:Ek;
      [|contradiction|].
    + destruct (cpu_action_success _ _ _ _ _ _ _ Ek Hact) as (cfg & Hc & Hc' & Hne).
      rewrite Hc, Hc'. intros [= E].
      destruct cfg as [[z|] lv|]; simpl in *; try discriminate.
      injection E as E. contradiction.
    + destruct (intensity_action_success _ _ _ _ _ _ Ek Hact) as (cfg & Hc & Hc' & Hne).
      rewrite Hc, Hc'. intros [= E].
      destruct cfg as [threads [x|]|]; simpl in *; try discriminate.
      injection E as E. apply Hne. rewrite E. reflexivity.
  - intros p metrics env cfg t1 t2 Hc Hfloor.
    unfold execute_scale. destruct (should_scale p metrics t1); [|eauto].
    unfold _scale_action.
    destruct Hfloor as [(m & o & Hk & Hth)|(o & x & Hk & Hin & Hx)]; rewrite Hk.
    + destruct (miner_instance p); [|eauto]. rewrite Hc, Hth. simpl. eauto.
    + destruct (miner_instance p); [|eauto]. rewrite Hc, Hin. simpl.
      assert (E : Qeq_bool (Qmax (3 # 10) (x * (9 # 10))) x = true).
      { apply Qeq_bool_iff. unfold Qmax.
        destruct (Qlt_bool (3 # 10) (x * (9 # 10))) eqn:El.
        - apply Qlt_bool_iff in El. lra.
        - lra. }
      rewrite E. simpl. eauto.
Qed.

Lemma cpu_and_intensity_scaling_witness :
  (exists p1 : ScalingPolicy,
     execute_scale (new_cpu_policy true 16) Examples.busy Examples.four_threads 1000 1001
     = (true, p1, mkEnv (Some (mkConfig (Some 3%Z) (Some (8 # 10)))) 0)
     /\ execute_scale p1 Examples.busy
                      (mkEnv (Some (mkConfig (Some 3%Z) (Some (8 # 10)))) 0) 1001 1002
        = (false, p1, mkEnv (Some (mkConfig (Some 3%Z) (Some (8 # 10)))) 0))
  /\ execute_scale (new_cpu_policy true 16) Examples.busy
                   (mkEnv (Some DictConfig) 0) 1000 1001
     = (false,
        with_kind (new_cpu_policy true 16) (CPUScalingPolicy 16 (Some 4%Z)),
        mkEnv (Some DictConfig) 0).
Proof.
  split.
  - apply (proj1 cpu_and_intensity_scaling 16%Z 4%Z (Some (8 # 10)) 0%nat
             Examples.busy 1000 1001 1002).
    + reflexivity.
    + lia.
    + discriminate.
  - apply (proj1 (proj2 cpu_and_intensity_scaling) 16%Z 0%nat Examples.busy 1000 1001).
    + reflexivity.
    + discriminate.
Defined.

(** C9, counterexample.  The memory policy reports success after its
    collection pass although the configuration is what it was. *)
Lemma memory_policy_success_without_change :
  let '(success, p', env') :=
    execute_scale new_memory_policy Examples.full Examples.four_threads 1000 1001 in
  success = true /\ config env' = config Examples.four_threads
  /\ last_action p' = 1001.
Proof. vm_compute. repeat split; reflexivity. Qed.

(** *** Floors, cooldowns and counters of the policies *)

(** [_scale_action] changes the subclass state of a policy only. *)
Lemma _scale_action_policy (p : ScalingPolicy) (metrics : ResourceMetrics)
    (env : Environment) :
  let p' := snd (fst (_scale_action p metrics env)) in
  name p' = name p /\ threshold p' = threshold p /\ cooldown p' = cooldown p
  /\ last_action p' = last_action p /\ action_count p' = action_count p.
Proof.
  unfold _scale_action.
  destruct (kind p) as [mx o| |o]; simpl; auto;
    destruct (miner_instance p); simpl; auto;
    destruct (config env) as [cfg|]; simpl; auto.
  - destruct (negb _); simpl; auto.
    destruct (set_cpu_threads cfg _); simpl; auto.
  - destruct (negb _); simpl; auto.
    destruct (set_intensity cfg _); simpl; auto.
Qed.

Lemma _scale_action_floors (p : ScalingPolicy) (metrics : ResourceMetrics)
    (env : Environment) (n : Z) (x : Q) :
  within_floors n x env ->
  within_floors n x (snd (_scale_action p metrics env)).
Proof.
  intros (n' & x' & Hc & Hn & Hx1 & Hx2). unfold _scale_action.
  destruct (kind p) as [mx o| |o].
  - destruct (miner_instance p); [|exists n', x'; auto].
    rewrite Hc. simpl.
    destruct (negb (Z.max 1 (n' - 1) =? n')%Z); simpl.
    + exists (Z.max 1 (n' - 1)), x'. repeat split; auto; lia.
    + exists n', x'. auto.
  - exists n', x'. auto.
  - destruct (miner_instance p); [|exists n', x'; auto].
    rewrite Hc. simpl.
    destruct (negb (Qeq_bool (Qmax (3 # 10) (x' * (9 # 10))) x')); simpl.
    + exists n', (Qmax (3 # 10) (x' * (9 # 10))). split; [reflexivity|].
      split; [exact Hn|]. unfold Qmax.
      destruct (Qlt_bool (3 # 10) (x' * (9 # 10))) eqn:E.
      * apply Qlt_bool_iff in E. split; lra.
      * split; lra.
    + exists n', x'. auto.
Qed.

Lemma execute_scale_floors (p : ScalingPolicy) (metrics : ResourceMetrics)
    (env : Environment) (t1 t2 : Q) (n : Z) (x : Q) :
  within_floors n x env ->
  within_floors n x (snd (execute_scale p metrics env t1 t2)).
Proof.
  intros H. unfold execute_scale.
  destruct (should_scale p metrics t1); [|exact H].
  pose proof (_scale_action_floors p metrics env n x H) as H'.
  destruct (_scale_action p metrics env) as [[success p'] env'].
  destruct success; exact H'.
Qed.

Lemma policies_loop_floors (clock : nat -> Q) (todo seen : list ScalingPolicy)
    (metrics : ResourceMetrics) (count : nat) (env : Environment) (k : nat)
    (n : Z) (x : Q) :
  within_floors n x env ->
  within_floors n x (snd (fst (policies_loop clock todo seen metrics count env k))).
Proof.
  revert seen count env k. induction todo as [|p todo IH]; intros seen count env k H;
    simpl; [exact H|].
  pose proof (execute_scale_floors p metrics env (clock k) (clock (S k)) n x H) as H'.
  destruct (execute_scale p metrics env (clock k) (clock (S k))) as [[success p'] env'].
  destruct success; apply IH; exact H'.
Qed.

(** What [_execute_scaling_policies] and [_check_alerts] leave alone. *)
Lemma _execute_scaling_policies_frame (clock : nat -> Q) (m : ResourceMonitor)
    (metrics : ResourceMetrics) :
  let m' := _execute_scaling_policies clock m metrics in
  metrics_history m' = metrics_history m /\ max_history m' = max_history m
  /\ total_metrics m' = total_metrics m /\ alert_count m' = alert_count m.
Proof.
  unfold _execute_scaling_policies.
  destruct (policies_loop _ _ _ _ _ _ _) as [[[policies count] env] k].
  simpl. auto.
Qed.

Lemma _check_alerts_frame (m : ResourceMonitor) (metrics : ResourceMetrics) :
  let m' := _check_alerts m metrics in
  metrics_history m' = metrics_history m /\ max_history m' = max_history m
  /\ total_metrics m' = total_metrics m /\ environment m' = environment m
  /\ scaling_policies m' = scaling_policies m /\ scale_actions m' = scale_actions m
  /\ enable_auto_scaling m' = enable_auto_scaling m.
Proof.
  unfold _check_alerts. destruct (any_alert metrics && has_logger m); simpl; auto 10.
Qed.

(** X12.  No pass of the monitor pushes the miner below its floors or
    back up: a miner with [n >= 1] threads at intensity [x >= 0.3] has,
    after [_process_metrics] with any policies, any sample and any clock,
    between 1 and [n] threads and an intensity between 0.3 and [x]. *)
Theorem scaling_keeps_floors (clock : nat -> Q) (m : ResourceMonitor)
    (metrics : ResourceMetrics) (n : Z) (x : Q) :
  config (environment m) = Some (mkConfig (Some n) (Some x)) ->
  (1 <= n)%Z -> 3 # 10 <= x ->
  within_floors n x (environment (_process_metrics clock m metrics)).
Proof.
  intros Hc Hn Hx.
  assert (H0 : within_floors n x (environment m)).
  { exists n, x. repeat split; auto; try lia; lra. }
  unfold _process_metrics.
  match goal with
  | |- context [_check_alerts ?m0 metrics] =>
      destruct (_check_alerts_frame m0 metrics) as (_ & _ & _ & He & Hp & _ & _);
      set (m1 := _check_alerts m0 metrics) in *
  end.
  simpl in He.
  destruct (enable_auto_scaling m1); [|now rewrite He].
  unfold _execute_scaling_policies.
  assert (H1 : within_floors n x (environment m1)) by (rewrite He; exact H0).
  pose proof (policies_loop_floors clock (scaling_policies m1) [] metrics
                (scale_actions m1) (environment m1) (ticks m1) n x H1) as H.
  destruct (policies_loop clock (scaling_policies m1) [] metrics
              (scale_actions m1) (environment m1) (ticks m1))
    as [[[policies count] env] k].
  exact H.
Qed.

Lemma scaling_keeps_floors_witness :
  within_floors 4 (8 # 10)
    (environment (_process_metrics (Examples.clock_from 1000 1)
                    Examples.default_monitor Examples.busy)).
Proof.
  apply (scaling_keeps_floors (Examples.clock_from 1000 1) Examples.default_monitor
           Examples.busy 4%Z (8 # 10)).
  - reflexivity.
  - lia.
  - discriminate.
Defined.

Lemma _scale_action_failure (p : ScalingPolicy) (metrics : ResourceMetrics)
    (env : Environment) :
  fst (fst (_scale_action p metrics env)) = false ->
  snd (_scale_action p metrics env) = env.
Proof.
  unfold _scale_action.
  destruct (kind p) as [mx o| |o]; destruct (miner_instance p);
    destruct (config env) as [cfg|]; simpl; try discriminate; auto;
    match goal with
    | |- context [if ?b then _ else _] => destruct b
    end; simpl; try discriminate; auto;
    destruct cfg; simpl; try discriminate; auto.
Qed.

(** X13.  A success starts the cooldown for every kind of policy: after
    [execute_scale] succeeded with [last_action] set to [t2], any call
    whose clock reading [t] has [t - t2 < cooldown] returns failure and
    leaves the policy and the environment as they are, whatever the
    sample. *)
Theorem success_starts_cooldown (p p' : ScalingPolicy) (metrics metrics2 : ResourceMetrics)
    (env env' env2 : Environment) (t1 t2 t t' : Q) :
  execute_scale p metrics env t1 t2 = (true, p', env') ->
  t - t2 < cooldown p ->
  execute_scale p' metrics2 env2 t t' = (false, p', env2).
Proof.
  intros H Ht. unfold execute_scale in H.
  destruct (should_scale p metrics t1); [|discriminate].
  destruct (_scale_action_policy p metrics env) as (_ & _ & Hcd & _ & _).
  destruct (_scale_action p metrics env) as [[success p0] env0].
  destruct success; [|discriminate]. injection H as <- _. simpl in Hcd.
  unfold execute_scale. rewrite should_scale_cooldown; [reflexivity|].
  simpl. rewrite Hcd. exact Ht.
Qed.

Lemma success_starts_cooldown_witness :
  execute_scale
    (snd (fst (execute_scale new_memory_policy Examples.full Examples.four_threads
                             1000 1001)))
    Examples.full Examples.four_threads 1100 1101
  = (false,
     snd (fst (execute_scale new_memory_policy Examples.full Examples.four_threads
                             1000 1001)),
     Examples.four_threads).
Proof.
  apply (success_starts_cooldown new_memory_policy _ Examples.full Examples.full
           Examples.four_threads
           (snd (execute_scale new_memory_policy Examples.full Examples.four_threads
                               1000 1001))
           Examples.four_threads 1000 1001 1100 1101).
  - reflexivity.
  - reflexivity.
Defined.

Lemma execute_scale_failure (p p' : ScalingPolicy) (metrics : ResourceMetrics)
    (env env' : Environment) (t1 t2 : Q) :
  execute_scale p metrics env t1 t2 = (false, p', env') ->
  env' = env
  /\ last_action p' = last_action p /\ action_count p' = action_count p
  /\ name p' = name p /\ threshold p' = threshold p /\ cooldown p' = cooldown p.
Proof.
  intros H. unfold execute_scale in H.
  destruct (should_scale p metrics t1).
  - destruct (_scale_action_policy p metrics env) as (Hn & Hth & Hcd & Hla & Hac).
    pose proof (_scale_action_failure p metrics env) as Henv.
    destruct (_scale_action p metrics env) as [[success p0] env0].
    destruct success; [discriminate|]. injection H as <- <-. simpl in *.
    split; [now apply Henv | auto 6].
  - injection H as <- <-. auto 6.
Qed.

(** X14.  A failed [execute_scale] costs nothing: the environment is
    untouched and the policy keeps its [last_action] and [action_count]
    (and its name, threshold and cooldown), so the cooldown is not
    restarted. *)
Theorem failure_costs_nothing (p p' : ScalingPolicy) (metrics : ResourceMetrics)
    (env env' : Environment) (t1 t2 : Q) :
  execute_scale p metrics env t1 t2 = (false, p', env') ->
  env' = env
  /\ last_action p' = last_action p /\ action_count p' = action_count p
  /\ name p' = name p /\ threshold p' = threshold p /\ cooldown p' = cooldown p.
Proof. apply execute_scale_failure. Qed.

Lemma failure_costs_nothing_witness :
  let outcome :=
    execute_scale (new_cpu_policy true 16) Examples.busy
      (mkEnv (Some (mkConfig (Some 1%Z) (Some (8 # 10)))) 0) 1000 1001 in
  snd outcome = mkEnv (Some (mkConfig (Some 1%Z) (Some (8 # 10)))) 0
  /\ last_action (snd (fst outcome)) = 0.
Proof.
  intros outcome.
  destruct (failure_costs_nothing (new_cpu_policy true 16) (snd (fst outcome))
              Examples.busy (mkEnv (Some (mkConfig (Some 1%Z) (Some (8 # 10)))) 0)
              (snd outcome) 1000 1001 eq_refl) as (He & Hl & _).
  split; [exact He | exact Hl].
Defined.

Lemma policies_loop_counts (clock : nat -> Q) (todo seen : list ScalingPolicy)
    (metrics : ResourceMetrics) (count : nat) (env : Environment) (k : nat) :
  let '(policies, count', _, k') :=
    policies_loop clock todo seen metrics count env k in
  map name policies = map name (seen ++ todo)
  /\ (count' + list_sum (map action_count (seen ++ todo))
      = count + list_sum (map action_count policies))%nat
  /\ (k <= k')%nat.
Proof.
  revert seen count env k. induction todo as [|p todo IH]; intros seen count env k;
    simpl.
  - rewrite app_nil_r. auto.
  - assert (Hexec : forall success p' env',
               execute_scale p metrics env (clock k) (clock (S k)) = (success, p', env') ->
               name p' = name p
               /\ action_count p' = (if success then S (action_count p)
                                     else action_count p)).
    { intros success p' env' H. destruct success.
      - unfold execute_scale in H.
        destruct (should_scale p metrics (clock k)); [|discriminate].
        destruct (_scale_action_policy p metrics env) as (Hn & _ & _ & _ & Hac).
        destruct (_scale_action p metrics env) as [[success p0] env0].
        destruct success; [|discriminate]. injection H as <- _. simpl in *.
        split; congruence.
      - destruct (execute_scale_failure _ _ _ _ _ _ _ H) as (_ & _ & Hac & Hn & _).
        auto. }
    destruct (execute_scale p metrics env (clock k) (clock (S k)))
      as [[success p'] env'] eqn:E.
    destruct (Hexec success p' env' eq_refl) as (Hn & Hac).
    assert (Hsum : forall q : ScalingPolicy,
               list_sum (map action_count (seen ++ q :: todo))
               = (list_sum (map action_count (seen ++ [q] ++ todo)))%nat) by reflexivity.
    destruct success.
    + specialize (IH (seen ++ [p']) (S count) env' (S (S k))).
      destruct (policies_loop clock todo (seen ++ [p']) metrics (S count) env' (S (S k)))
        as [[[policies count'] env''] k'].
      destruct IH as (I1 & I2 & I3). split; [|split; [|lia]].
      * rewrite I1, <- !app_assoc, !map_app. simpl. now rewrite Hn.
      * rewrite <- app_assoc, !map_app, !list_sum_app in I2. simpl in I2.
        rewrite !map_app, !list_sum_app. simpl. lia.
    + specialize (IH (seen ++ [p']) count env' (S k)).
      destruct (policies_loop clock todo (seen ++ [p']) metrics count env' (S k))
        as [[[policies count'] env''] k'].
      destruct IH as (I1 & I2 & I3). split; [|split; [|lia]].
      * rewrite I1, <- !app_assoc, !map_app. simpl. now rewrite Hn.
      * rewrite <- app_assoc, !map_app, !list_sum_app in I2. simpl in I2.
        rewrite !map_app, !list_sum_app. simpl. lia.
Qed.

(** X15.  [_execute_scaling_policies] accounts for every success: the
    policies keep their order and names, the monitor's [scale_actions]
    grows by exactly as much as the [action_count]s of the policies do
    together, and the clock position does not go back. *)
Theorem scale_actions_accounted (clock : nat -> Q) (m : ResourceMonitor)
    (metrics : ResourceMetrics) :
  let m' := _execute_scaling_policies clock m metrics in
  map name (scaling_policies m') = map name (scaling_policies m)
  /\ (scale_actions m' + list_sum (map action_count (scaling_policies m))
      = scale_actions m + list_sum (map action_count (scaling_policies m')))%nat
  /\ (ticks m <= ticks m')%nat.
Proof.
  unfold _execute_scaling_policies.
  pose proof (policies_loop_counts clock (scaling_policies m) [] metrics
                (scale_actions m) (environment m) (ticks m)) as H.
  destruct (policies_loop clock (scaling_policies m) [] metrics
              (scale_actions m) (environment m) (ticks m))
    as [[[policies count] env] k].
  simpl in *. exact H.
Qed.

(** *** Samples: history, averages and status *)

(** X16.  A processed sample is the current one: with room for at least
    one sample, [get_current_metrics] after [_process_metrics] returns the
    sample just processed, [total_metrics] has grown by one, and a history
    within [max_history] stays within it, whatever the policies do. *)
Theorem processed_sample_is_current (clock : nat -> Q) (m : ResourceMonitor)
    (metrics : ResourceMetrics) :
  (1 <= max_history m)%nat ->
  let m' := _process_metrics clock m metrics in
  get_current_metrics m' = Some metrics
  /\ total_metrics m' = S (total_metrics m)
  /\ ((length (metrics_history m) <= max_history m)%nat ->
      (length (metrics_history m') <= max_history m')%nat).
Proof.
  intros Hmax. unfold _process_metrics.
  set (history := if (max_history m <? length (metrics_history m ++ [metrics]))%nat
                  then tail (metrics_history m ++ [metrics])
                  else metrics_history m ++ [metrics]).
  set (m0 := mkMonitor (enable_auto_scaling m) (has_logger m) history (max_history m)
                       (scaling_policies m) (S (total_metrics m)) (alert_count m)
                       (scale_actions m) (environment m) (ticks m)).
  destruct (_check_alerts_frame m0 metrics) as (A1 & A2 & A3 & _).
  set (m1 := _check_alerts m0 metrics) in *.
  assert (Hfinal : forall m2 : ResourceMonitor,
             metrics_history m2 = metrics_history m1 ->
             max_history m2 = max_history m1 ->
             total_metrics m2 = total_metrics m1 ->
             get_current_metrics m2 = Some metrics
             /\ total_metrics m2 = S (total_metrics m)
             /\ ((length (metrics_history m) <= max_history m)%nat ->
                 (length (metrics_history m2) <= max_history m2)%nat)).
  { intros m2 E1 E2 E3. unfold get_current_metrics.
    rewrite E1, E2, E3, A1, A2, A3. simpl. subst history.
    assert (Hlen : length (metrics_history m ++ [metrics])
                   = S (length (metrics_history m)))
      by (rewrite length_app; simpl; lia).
    destruct (max_history m <? length (metrics_history m ++ [metrics]))%nat eqn:E.
    - apply Nat.ltb_lt in E. split; [|split; [reflexivity|]].
      + change (tail (metrics_history m ++ [metrics]))
          with (drop 1 (metrics_history m ++ [metrics])).
        rewrite last_drop_lt by lia. apply last_snoc.
      + intros Hb. change (tail (metrics_history m ++ [metrics]))
          with (drop 1 (metrics_history m ++ [metrics])).
        rewrite length_drop. lia.
    - apply Nat.ltb_ge in E. split; [apply last_snoc|]. split; [reflexivity|].
      intros _. exact E. }
  destruct (enable_auto_scaling m1).
  - destruct (_execute_scaling_policies_frame clock m1 metrics) as (B1 & B2 & B3 & _).
    apply Hfinal; assumption.
  - apply Hfinal; reflexivity.
Qed.

Lemma processed_sample_is_current_witness :
  get_current_metrics
    (_process_metrics (Examples.clock_from 1000 1) Examples.default_monitor Examples.busy)
  = Some Examples.busy.
Proof.
  apply (processed_sample_is_current (Examples.clock_from 1000 1)
           Examples.default_monitor Examples.busy).
  simpl. lia.
Defined.

Lemma flen_nonzero {A} (l : list A) : l <> [] -> ~ flen l == 0.
Proof.
  intros Hl. unfold flen. destruct l as [|x l]; [contradiction|].
  intros E. unfold Qeq in E. simpl in E. lia.
Qed.

Lemma warm_none (l : list ResourceMetrics) :
  Forall (fun x => temperature x <= 0) l ->
  List.filter (fun t => Qlt_bool 0 t) (map temperature l) = [].
Proof.
  induction 1 as [|x l Hx _ IH]; simpl; [reflexivity|].
  apply Qlt_bool_false_iff in Hx. now rewrite Hx.
Qed.

Lemma warm_some (l : list ResourceMetrics) :
  Exists (fun x => 0 < temperature x) l ->
  List.filter (fun t => Qlt_bool 0 t) (map temperature l) <> [].
Proof.
  induction 1 as [x l Hx|x l _ IH]; simpl.
  - apply Qlt_bool_iff in Hx. rewrite Hx. discriminate.
  - destruct (Qlt_bool 0 (temperature x)); [discriminate | exact IH].
Qed.

(** X17.  [get_average_metrics] and its corner cases: with no sample in
    the window it returns [None]; with samples in the window of which none
    has a positive temperature (a machine without sensor reports 0) it
    raises [ZeroDivisionError]; with at least one positive temperature it
    returns the averages of CPU, memory and disk over all samples of the
    window, with their number as the sample count. *)
Theorem average_metrics_corner_cases (m : ResourceMonitor) (duration now : Q) :
  let recent :=
    List.filter (fun x => Qlt_bool (now - duration * 60) (timestamp x))
                (metrics_history m) in
  (recent = [] -> get_average_metrics m duration now = Ok None)
  /\ (recent <> [] -> Forall (fun x => temperature x <= 0) recent ->
      get_average_metrics m duration now = Raise ZeroDivisionError)
  /\ (Exists (fun x => 0 < temperature x) recent ->
      exists avg : Averages,
        get_average_metrics m duration now = Ok (Some avg)
        /\ avg_cpu_percent avg = fsum (map cpu_percent recent) / flen recent
        /\ avg_memory_percent avg = fsum (map memory_percent recent) / flen recent
        /\ avg_disk_percent avg = fsum (map disk_percent recent) / flen recent
        /\ sample_count avg = length recent).
Proof.
  intros recent.
  pose proof (warm_none recent) as Hwarm_none.
  pose proof (warm_some recent) as Hwarm_some.
  unfold get_average_metrics. fold recent.
  split; [|split].
  - intros E. rewrite E. destruct (metrics_history m); reflexivity.
  - intros Hne Hcold.
    destruct (metrics_history m) as [|x0 h] eqn:Eh; [subst recent; contradiction|].
    destruct recent as [|r recent'] eqn:Er; [contradiction|].
    rewrite !truediv_nonzero by (apply flen_nonzero; discriminate).
    rewrite Hwarm_none by exact Hcold.
    reflexivity.
  - intros Hwarm.
    destruct (metrics_history m) as [|x0 h] eqn:Eh;
      [subst recent; simpl in Hwarm; inversion Hwarm|].
    destruct recent as [|r recent'] eqn:Er; [inversion Hwarm|].
    rewrite !truediv_nonzero by (apply flen_nonzero; discriminate).
    rewrite truediv_nonzero by (apply flen_nonzero; apply Hwarm_some; exact Hwarm).
    eexists. repeat split; reflexivity.
Qed.

Lemma average_metrics_corner_cases_witness :
  get_average_metrics
    (_process_metrics (Examples.clock_from 1000 1)
       (new_monitor false true Examples.four_threads) (Examples.sensorless 990))
    5 1000
  = Raise ZeroDivisionError.
Proof.
  apply (proj1 (proj2 (average_metrics_corner_cases
                         (_process_metrics (Examples.clock_from 1000 1)
                            (new_monitor false true Examples.four_threads)
                            (Examples.sensorless 990))
                         5 1000))).
  - discriminate.
  - repeat constructor. discriminate.
Defined.

Lemma above_mono (usage_limit temp_limit c m d t c' m' d' t' : Q) :
  c <= c' -> m <= m' -> d <= d' -> t <= t' ->
  above usage_limit temp_limit c m d t = true ->
  above usage_limit temp_limit c' m' d' t' = true.
Proof.
  intros Hc Hm Hd Ht. unfold above.
  rewrite !orb_true_iff, !Qlt_bool_iff. intros [[[H|H]|H]|H]; [| | |right];
    [left; left; left | left; left; right | left; right |]; lra.
Qed.

Lemma above_nested (c m d t : Q) :
  (above 95 85 c m d t = true -> above 85 75 c m d t = true)
  /\ (above 85 75 c m d t = true -> above 70 60 c m d t = true).
Proof.
  unfold above. rewrite !orb_true_iff, !Qlt_bool_iff.
  split; (intros [[[H|H]|H]|H]; [| | |right];
          [left; left; left | left; left; right | left; right |]; lra).
Qed.

(** X18.  [_determine_status] is monotone: when no reading goes down, the
    status does not improve (NORMAL < WARNING < CRITICAL < OVERLOADED). *)
Theorem status_monotone (c m d t c' m' d' t' : Q) :
  c <= c' -> m <= m' -> d <= d' -> t <= t' ->
  (rank (_determine_status c m d t) <= rank (_determine_status c' m' d' t'))%nat.
Proof.
  intros Hc Hm Hd Ht.
  pose proof (above_mono 95 85 _ _ _ _ _ _ _ _ Hc Hm Hd Ht) as M1.
  pose proof (above_mono 85 75 _ _ _ _ _ _ _ _ Hc Hm Hd Ht) as M2.
  pose proof (above_mono 70 60 _ _ _ _ _ _ _ _ Hc Hm Hd Ht) as M3.
  unfold _determine_status.
  destruct (above 95 85 c m d t), (above 85 75 c m d t), (above 70 60 c m d t),
    (above 95 85 c' m' d' t'), (above 85 75 c' m' d' t'), (above 70 60 c' m' d' t');
    simpl; try lia;
    try (specialize (M1 eq_refl); discriminate);
    try (specialize (M2 eq_refl); discriminate);
    try (specialize (M3 eq_refl); discriminate).
Qed.

Lemma status_monotone_witness :
  (rank (_determine_status 50 50 50 40) <= rank (_determine_status 96 50 50 40))%nat.
Proof.
  apply status_monotone; discriminate.
Defined.

End ScalingFacts.

(** ** The recovery manager *)

Module RecoveryFacts.
Import Py PyFacts Recovery.
Local Open Scope Q_scope.

Lemma invocations_of_app (ref : nat) (l1 l2 : list Event) :
  invocations_of ref (l1 ++ l2) = invocations_of ref l1 ++ invocations_of ref l2.
Proof. apply List.filter_app. Qed.

Lemma untouched_refl (ref : nat) (a : RecoveryAction) (s : ErrorRecoveryManager) :
  actions s !! ref = Some a -> untouched ref a s s.
Proof. intros H. split; [exact H | reflexivity]. Qed.

Lemma untouched_trans (ref : nat) (a : RecoveryAction)
    (s1 s2 s3 : ErrorRecoveryManager) :
  untouched ref a s1 s2 -> untouched ref a s2 s3 -> untouched ref a s1 s3.
Proof. intros [_ H1] [H2 H3]. split; [exact H2 | congruence]. Qed.

(** A step that keeps the heap and adds no run of the action. *)
Lemma untouched_same (ref : nat) (a : RecoveryAction)
    (s s' : ErrorRecoveryManager) (events : list Event) :
  actions s !! ref = Some a ->
  actions s' = actions s -> trace s' = trace s ++ events ->
  invocations_of ref events = [] ->
  untouched ref a s s'.
Proof.
  intros Ha Hact Htr Hev. split; [now rewrite Hact|].
  rewrite Htr, invocations_of_app, Hev. apply app_nil_r.
Qed.

Lemma can_attempt_exhausted (a : RecoveryAction) (now : Q) :
  exhausted a -> can_attempt a now = false.
Proof.
  intros H. unfold can_attempt.
  replace (Z.of_nat (failure_count a) <? max_attempts a)%Z with false.
  - apply andb_false_r.
  - symmetry. apply Z.ltb_ge. exact H.
Qed.

Lemma execute_exhausted (a : RecoveryAction) (t1 t2 : Q) (outcome : RecoverOutcome) :
  exhausted a -> execute a t1 t2 outcome = (Ok false, a, false).
Proof.
  intros H. unfold execute. now rewrite can_attempt_exhausted.
Qed.

Lemma handle_error_S (depth : nat) (w : World) (comp : string) (error : PyError)
    (sev : ErrorSeverity) (s : ErrorRecoveryManager) :
  handle_error (S depth) w comp error sev s
  = Ok (_check_system_health w (handle_error depth w)
          (recovery_step w (snd (record_error w s comp error sev))
                         (fst (record_error w s comp error sev)) (ticks s))).
Proof. reflexivity. Qed.

Lemma recent_errors_ticks (w : World) (history : list ErrorEvent) (n : nat) :
  (n <= snd (recent_errors w history n))%nat.
Proof.
  revert n. induction history as [|e history IH]; intros n; simpl; [lia|].
  specialize (IH (S n)). destruct (recent_errors w history (S n)) as [rest n'].
  simpl in *. lia.
Qed.

(** [_should_attempt_recovery] reads the clock and nothing else. *)
Lemma _should_attempt_recovery_frame (w : World) (s : ErrorRecoveryManager)
    (error : ErrorEvent) :
  actions (snd (_should_attempt_recovery w s error)) = actions s
  /\ trace (snd (_should_attempt_recovery w s error)) = trace s
  /\ component_recoveries (snd (_should_attempt_recovery w s error))
     = component_recoveries s
  /\ (ticks s <= ticks (snd (_should_attempt_recovery w s error)))%nat.
Proof.
  unfold _should_attempt_recovery.
  pose proof (recent_errors_ticks w (error_history s) (ticks s)) as Ht.
  destruct (recent_errors w (error_history s) (ticks s)) as [recent n].
  destruct (severity error); simpl in *; auto.
Qed.

Section Exhausted.

Variable ref : nat.
Variable a : RecoveryAction.
Hypothesis a_exhausted : exhausted a.

Lemma run_execute_untouched (w : World) (r : nat) (a0 : RecoveryAction) (err : nat)
    (s : ErrorRecoveryManager) :
  r <> ref -> actions s !! ref = Some a ->
  untouched ref a s (snd (run_execute w r a0 err s)).
Proof.
  intros Hne Ha. unfold run_execute.
  destruct (execute a0 _ _ _) as [[res a'] ran].
  assert (Hb : (r =? ref)%nat = false) by now apply Nat.eqb_neq.
  destruct ran; simpl; (split; simpl;
    [ now rewrite list_lookup_insert_ne
    | rewrite invocations_of_app; simpl; rewrite ?Hb; apply app_nil_r ]).
Qed.

Lemma try_actions_untouched (w : World) (refs : list nat) (err : nat)
    (s : ErrorRecoveryManager) :
  actions s !! ref = Some a ->
  untouched ref a s (snd (try_actions w refs err s)).
Proof.
  revert s. induction refs as [|r refs IH]; intros s Ha; simpl.
  - now apply untouched_refl.
  - destruct (actions s !! r) as [a0|] eqn:Hr.
    + destruct (can_attempt a0 (clock w (ticks s))) eqn:Hcan.
      * assert (Hne : r <> ref).
        { intros ->. assert (a0 = a) by congruence. subst a0.
          rewrite can_attempt_exhausted in Hcan by exact a_exhausted.
          discriminate. }
        pose proof (run_execute_untouched w r a0 err (tick s) Hne Ha) as Hrun.
        destruct (run_execute w r a0 err (tick s)) as [res s1]. simpl in Hrun.
        assert (Hstep : untouched ref a s s1) by exact Hrun.
        destruct res as [[|]|e]; simpl; [exact Hstep| |];
          (eapply untouched_trans; [exact Hstep | apply IH; apply Hstep]).
      * eapply untouched_trans; [|apply IH; exact Ha].
        apply (untouched_same ref a s _ [Ineligible r err]); auto.
    + eapply untouched_trans; [|apply IH; exact Ha].
      apply (untouched_same ref a s _ [Ineligible r err]); auto.
Qed.

Lemma mark_resolved_untouched (s : ErrorRecoveryManager) :
  actions s !! ref = Some a -> untouched ref a s (mark_resolved s).
Proof. intros Ha. split; [exact Ha | reflexivity]. Qed.

Lemma _attempt_recovery_untouched (w : World) (s : ErrorRecoveryManager)
    (error : ErrorEvent) (err : nat) :
  actions s !! ref = Some a ->
  untouched ref a s (_attempt_recovery w s error err).
Proof.
  intros Ha. unfold _attempt_recovery.
  pose proof (try_actions_untouched w
                (default [] (component_recoveries s !! component error)) err s Ha) as H1.
  destruct (try_actions w (default [] (component_recoveries s !! component error)) err s)
    as [[|] s1]; simpl in H1.
  - eapply untouched_trans; [exact H1 | apply mark_resolved_untouched, H1].
  - pose proof (try_actions_untouched w
                  (default [] (component_recoveries s !! "general")) err s1 (proj1 H1))
      as H2.
    destruct (try_actions w (default [] (component_recoveries s !! "general")) err s1)
      as [[|] s2]; simpl in H2.
    + eapply untouched_trans; [exact H1|].
      eapply untouched_trans; [exact H2 | apply mark_resolved_untouched, H2].
    + eapply untouched_trans; [exact H1 | exact H2].
Qed.

Lemma recovery_step_untouched (w : World) (s : ErrorRecoveryManager)
    (error : ErrorEvent) (err : nat) :
  actions s !! ref = Some a ->
  untouched ref a s (recovery_step w s error err).
Proof.
  intros Ha. unfold recovery_step.
  destruct (_should_attempt_recovery_frame w s error) as (Hact & Htr & _).
  destruct (_should_attempt_recovery w s error) as [b s0]. simpl in Hact, Htr.
  assert (H0 : untouched ref a s s0).
  { split; [now rewrite Hact | now rewrite Htr]. }
  destruct b; [|exact H0].
  eapply untouched_trans; [exact H0|].
  apply _attempt_recovery_untouched. exact (proj1 H0).
Qed.

Lemma health_probe_untouched (w : World)
    (handle : string -> PyError -> ErrorSeverity -> ErrorRecoveryManager ->
              result ErrorRecoveryManager)
    (limit : Q) (text : string) (s : ErrorRecoveryManager) :
  (forall c e sev s0 s1, actions s0 !! ref = Some a ->
                         handle c e sev s0 = Ok s1 -> untouched ref a s0 s1) ->
  actions s !! ref = Some a ->
  untouched ref a s (snd (health_probe w handle limit text s)).
Proof.
  intros Hh Ha. unfold health_probe.
  destruct (probe w (ticks s)) as [percent|]; [|split; [exact Ha | reflexivity]].
  destruct (Qlt_bool limit percent); [|split; [exact Ha | reflexivity]].
  destruct (handle "system" _ HIGH (tick s)) as [s1|e] eqn:E; simpl.
  - apply (Hh _ _ _ (tick s) s1 Ha) in E. exact E.
  - split; [exact Ha | reflexivity].
Qed.

Lemma _check_system_health_untouched (w : World)
    (handle : string -> PyError -> ErrorSeverity -> ErrorRecoveryManager ->
              result ErrorRecoveryManager)
    (s : ErrorRecoveryManager) :
  (forall c e sev s0 s1, actions s0 !! ref = Some a ->
                         handle c e sev s0 = Ok s1 -> untouched ref a s0 s1) ->
  actions s !! ref = Some a ->
  untouched ref a s (_check_system_health w handle s).
Proof.
  intros Hh Ha. unfold _check_system_health.
  pose proof (health_probe_untouched w handle 90 "High memory usage" s Hh Ha) as H1.
  destruct (health_probe w handle 90 "High memory usage" s) as [[|] s1];
    simpl in H1; [|exact H1].
  pose proof (health_probe_untouched w handle 95 "High CPU usage" s1 Hh (proj1 H1)) as H2.
  destruct (health_probe w handle 95 "High CPU usage" s1) as [[|] s2];
    simpl in H2; [|eapply untouched_trans; eassumption].
  pose proof (health_probe_untouched w handle 95 "Low disk space" s2 Hh (proj1 H2)) as H3.
  eapply untouched_trans; [exact H1|]. eapply untouched_trans; eassumption.
Qed.

Lemma handle_error_untouched (depth : nat) (w : World) (comp : string)
    (error : PyError) (sev : ErrorSeverity) (s s' : ErrorRecoveryManager) :
  actions s !! ref = Some a ->
  handle_error depth w comp error sev s = Ok s' ->
  untouched ref a s s'.
Proof.
  revert comp error sev s s'.
  induction depth as [|depth IH]; intros comp error sev s s' Ha H; simpl in H;
    [discriminate|].
  injection H as <-.
  set (s1 := snd (record_error w s comp error sev)).
  assert (H1 : untouched ref a s s1) by (split; [exact Ha | reflexivity]).
  pose proof (recovery_step_untouched w s1
                (fst (record_error w s comp error sev)) (ticks s) (proj1 H1)) as H2.
  eapply untouched_trans; [exact H1|]. eapply untouched_trans; [exact H2|].
  apply _check_system_health_untouched; [|exact (proj1 H2)].
  intros c e sv s0 s3 Ha0 E. exact (IH c e sv s0 s3 Ha0 E).
Qed.

Lemma handle_errors_untouched (depth : nat) (w : World)
    (reports : list (string * PyError * ErrorSeverity)) (s : ErrorRecoveryManager) :
  actions s !! ref = Some a ->
  untouched ref a s (handle_errors depth w reports s).
Proof.
  revert s. induction reports as [|[[comp error] sev] reports IH]; intros s Ha; simpl.
  - now apply untouched_refl.
  - destruct (handle_error depth w comp error sev s) as [s1|e] eqn:E.
    + pose proof (handle_error_untouched _ _ _ _ _ _ _ Ha E) as H1.
      eapply untouched_trans; [exact H1 | apply IH, H1].
    + apply IH, Ha.
Qed.

End Exhausted.

(** C6.  An action whose [failure_count] has reached [max_attempts] (3 of
    3 in particular) is never run again: [execute] returns [False] without
    running [_recover], whatever the clock says, and through any sequence
    of [handle_error] calls, for any component, at any time and in any
    world, the action object stays as it is ([failure_count] is not reset)
    and the trace gains no call of its [execute] and no run of its
    [_recover]. *)
Theorem exhausted_action_never_runs :
  (forall (a : RecoveryAction) (t1 t2 : Q) (outcome : RecoverOutcome),
      exhausted a -> execute a t1 t2 outcome = (Ok false, a, false))
  /\ (forall (depth : nat) (w : World)
             (reports : list (string * PyError * ErrorSeverity))
             (s : ErrorRecoveryManager) (ref : nat) (a : RecoveryAction),
        actions s !! ref = Some a -> exhausted a ->
        actions (handle_errors depth w reports s) !! ref = Some a
        /\ invocations_of ref (trace (handle_errors depth w reports s))
           = invocations_of ref (trace s)).
Proof.
  split.
  - intros a t1 t2 outcome H. now apply execute_exhausted.
  - intros depth w reports s ref a Ha Hex.
    exact (handle_errors_untouched ref a Hex depth w reports s Ha).
Qed.

Lemma exhausted_action_never_runs_witness :
  let failed :=
    handle_errors 5 (Examples.world 100 NotRecovered)
      (replicate 3 ("mining", Examples.connection_lost, MEDIUM))
      Examples.restart_manager in
  let later :=
    handle_errors 5 (Examples.world 1000 Recovered)
      [("mining", Examples.connection_lost, MEDIUM)] failed in
  actions failed !! 0%nat = Some (mkAction "restart_miner" 3 30 3500 0 3)
  /\ actions later !! 0%nat = Some (mkAction "restart_miner" 3 30 3500 0 3)
  /\ invocations_of 0 (trace later) = invocations_of 0 (trace failed).
Proof.
  intros failed later.
  assert (H : actions failed !! 0%nat = Some (mkAction "restart_miner" 3 30 3500 0 3))
    by (vm_compute; reflexivity).
  split; [exact H|].
  apply (proj2 exhausted_action_never_runs 5%nat (Examples.world 1000 Recovered)
           [("mining", Examples.connection_lost, MEDIUM)] failed 0%nat
           (mkAction "restart_miner" 3 30 3500 0 3) H).
  unfold exhausted. simpl. lia.
Defined.

(** *** Eligibility and the order of attempts *)

Lemma visits_app (err : nat) (l1 l2 : list Event) :
  visits err (l1 ++ l2) = visits err l1 ++ visits err l2.
Proof. apply omap_app. Qed.

Lemma visits_cons (err : nat) (ev : Event) (events : list Event) :
  visits err (ev :: events)
  = match visit err ev with
    | Some v => v :: visits err events
    | None => visits err events
    end.
Proof. reflexivity. Qed.

Lemma visits_other (err : nat) (events : list Event) :
  Forall (fun ev => error_of ev <> err) events -> visits err events = [].
Proof.
  induction 1 as [|ev events Hev _ IH]; [reflexivity|].
  rewrite visits_cons, IH.
  destruct ev as [r e|r e res|r e o]; simpl in *;
    try (apply Nat.eqb_neq in Hev; rewrite Hev);
    try reflexivity.
  destruct res as [[|]|]; reflexivity.
Qed.

Lemma visited_app_true (refs1 refs2 : list nat) (vs : list (nat * bool)) :
  visited refs1 vs true -> visited (refs1 ++ refs2) vs true.
Proof.
  intros H. remember true as b eqn:Eb.
  induction H as [|r refs vs b H IH|r refs]; simpl.
  - discriminate.
  - constructor. auto.
  - constructor.
Qed.

Lemma visited_app_false (refs1 refs2 : list nat) (vs1 vs2 : list (nat * bool))
    (b : bool) :
  visited refs1 vs1 false -> visited refs2 vs2 b ->
  visited (refs1 ++ refs2) (vs1 ++ vs2) b.
Proof.
  intros H1 H2. remember false as b1 eqn:Eb.
  induction H1 as [|r refs vs b1 H IH|r refs]; simpl.
  - exact H2.
  - constructor. auto.
  - discriminate.
Qed.

Lemma run_execute_grows (w : World) (ref : nat) (a : RecoveryAction) (err : nat)
    (s : ErrorRecoveryManager) :
  exists new : list Event,
    grows err s (snd (run_execute w ref a err s)) new
    /\ visits err new
       = [(ref, match fst (run_execute w ref a err s) with
                | Ok true => true
                | _ => false
                end)].
Proof.
  unfold run_execute.
  destruct (execute a _ _ _) as [[res a'] ran].
  destruct ran; simpl; eexists; (split; [split; [reflexivity|split; [|split]]|]);
    simpl; try (repeat constructor); try lia;
    unfold visits; simpl; rewrite Nat.eqb_refl; destruct res as [[|]|]; reflexivity.
Qed.

Lemma try_actions_grows (w : World) (refs : list nat) (err : nat)
    (s : ErrorRecoveryManager) :
  exists new : list Event,
    grows err s (snd (try_actions w refs err s)) new
    /\ visited refs (visits err new) (fst (try_actions w refs err s)).
Proof.
  revert s. induction refs as [|r refs IH]; intros s; simpl.
  - exists []. split; [|constructor].
    split; [now rewrite app_nil_r|]. split; [constructor|]. split; [lia|reflexivity].
  - assert (Hskip : forall s0 : ErrorRecoveryManager,
               trace s0 = trace s -> (ticks s <= ticks s0)%nat ->
               component_recoveries s0 = component_recoveries s ->
               exists new : list Event,
                 grows err s (snd (try_actions w refs err (log s0 [Ineligible r err]))) new
                 /\ visited (r :: refs) (visits err new)
                      (fst (try_actions w refs err (log s0 [Ineligible r err])))).
    { intros s0 Htr Htk Hcr.
      destruct (IH (log s0 [Ineligible r err])) as (new & (H1 & H2 & H3 & H4) & Hv).
      exists (Ineligible r err :: new). split.
      - split; [|split; [|split]].
        + rewrite H1. simpl. rewrite Htr, <- app_assoc. reflexivity.
        + constructor; [reflexivity | exact H2].
        + simpl in H3. lia.
        + rewrite H4. exact Hcr.
      - rewrite visits_cons. simpl. rewrite Nat.eqb_refl. constructor. exact Hv. }
    destruct (actions s !! r) as [a|]; [|apply Hskip; auto].
    destruct (can_attempt a (clock w (ticks s))); [|apply Hskip; simpl; auto].
    destruct (run_execute_grows w r a err (tick s)) as (new1 & (G1 & G2 & G3 & G4) & V1).
    destruct (run_execute w r a err (tick s)) as [res s1]. simpl in *.
    assert (Hcont :
      exists new : list Event,
        grows err s (snd (try_actions w refs err s1)) new
        /\ (visits err new1 = [(r, false)] ->
            visited (r :: refs) (visits err new) (fst (try_actions w refs err s1)))).
    { destruct (IH s1) as (new & (H1 & H2 & H3 & H4) & Hv).
      exists (new1 ++ new). split.
      - split; [|split; [|split]].
        + rewrite H1, G1, <- app_assoc. reflexivity.
        + apply Forall_app. split; assumption.
        + lia.
        + congruence.
      - intros E. rewrite visits_app, E. simpl. constructor. exact Hv. }
    destruct res as [[|]|e].
    + exists new1. split.
      * split; [exact G1|]. split; [exact G2|]. split; [simpl; lia | exact G4].
      * simpl. rewrite V1. constructor.
    + destruct Hcont as (new & Hg & Hv). exists new. split; [exact Hg | exact (Hv V1)].
    + destruct Hcont as (new & Hg & Hv). exists new. split; [exact Hg | exact (Hv V1)].
Qed.

Lemma _attempt_recovery_grows (w : World) (s : ErrorRecoveryManager)
    (error : ErrorEvent) (err : nat) :
  exists (new : list Event) (b : bool),
    grows err s (_attempt_recovery w s error err) new
    /\ visited (default [] (component_recoveries s !! component error)
                ++ default [] (component_recoveries s !! "general"))
               (visits err new) b.
Proof.
  unfold _attempt_recovery.
  set (component_actions := default [] (component_recoveries s !! component error)).
  set (general_actions := default [] (component_recoveries s !! "general")).
  destruct (try_actions_grows w component_actions err s) as (new1 & G1 & V1).
  destruct (try_actions w component_actions err s) as [[|] s1]; simpl in G1, V1.
  - exists new1, true. split; [exact G1 | now apply visited_app_true].
  - destruct (try_actions_grows w general_actions err s1) as (new2 & G2 & V2).
    destruct G1 as (A1 & A2 & A3 & A4).
    assert (Hg : forall s2 : ErrorRecoveryManager,
               grows err s1 s2 new2 -> grows err s s2 (new1 ++ new2)).
    { intros s2 (B1 & B2 & B3 & B4). split; [|split; [|split]].
      - rewrite B1, A1, <- app_assoc. reflexivity.
      - apply Forall_app. split; assumption.
      - lia.
      - congruence. }
    destruct (try_actions w general_actions err s1) as [b s2]; simpl in G2, V2.
    exists (new1 ++ new2), b. split.
    + destruct b; apply Hg; exact G2.
    + rewrite visits_app. now apply visited_app_false.
Qed.

Lemma record_error_frame (w : World) (s : ErrorRecoveryManager) (comp : string)
    (error : PyError) (sev : ErrorSeverity) :
  trace (snd (record_error w s comp error sev)) = trace s
  /\ ticks (snd (record_error w s comp error sev)) = S (ticks s)
  /\ component_recoveries (snd (record_error w s comp error sev))
     = component_recoveries s
  /\ severity (fst (record_error w s comp error sev)) = sev
  /\ component (fst (record_error w s comp error sev)) = comp.
Proof. repeat split. Qed.

(** The recovery step of a call that is not eligible adds nothing. *)
Lemma recovery_step_refused (w : World) (s : ErrorRecoveryManager)
    (error : ErrorEvent) (err : nat) :
  severity error = CRITICAL
  \/ (10 < length (fst (recent_errors w (error_history s) (ticks s))))%nat ->
  grows err s (recovery_step w s error err) [].
Proof.
  intros H. unfold recovery_step.
  destruct (_should_attempt_recovery_frame w s error) as (_ & Htr & Hcr & Htk).
  assert (Hb : fst (_should_attempt_recovery w s error) = false).
  { unfold _should_attempt_recovery.
    destruct H as [H|H].
    - now rewrite H.
    - destruct (recent_errors w (error_history s) (ticks s)) as [recent n].
      simpl in H. apply Nat.ltb_lt in H.
      destruct (severity error); simpl; rewrite ?H; reflexivity. }
  destruct (_should_attempt_recovery w s error) as [b s0]. simpl in *. subst b.
  split; [now rewrite app_nil_r|]. split; [constructor|]. split; assumption.
Qed.

(** The recovery step of an eligible call goes through the component's
    actions and then the general ones, up to the first success. *)
Lemma recovery_step_attempted (w : World) (s : ErrorRecoveryManager)
    (error : ErrorEvent) (err : nat) :
  severity error <> CRITICAL ->
  (length (fst (recent_errors w (error_history s) (ticks s))) <= 10)%nat ->
  exists (new : list Event) (b : bool),
    grows err s (recovery_step w s error err) new
    /\ visited (default [] (component_recoveries s !! component error)
                ++ default [] (component_recoveries s !! "general"))
               (visits err new) b.
Proof.
  intros Hsev Hcount. unfold recovery_step.
  destruct (_should_attempt_recovery_frame w s error) as (_ & Htr & Hcr & Htk).
  assert (Hb : fst (_should_attempt_recovery w s error) = true).
  { unfold _should_attempt_recovery.
    destruct (recent_errors w (error_history s) (ticks s)) as [recent n].
    simpl in Hcount. apply Nat.ltb_ge in Hcount.
    destruct (severity error); simpl; rewrite ?Hcount; try reflexivity.
    contradiction. }
  destruct (_should_attempt_recovery w s error) as [b s0]. simpl in *. subst b.
  destruct (_attempt_recovery_grows w s0 error err) as (new & b & (G1 & G2 & G3 & G4) & V).
  exists new, b. rewrite Hcr in V. split; [|exact V].
  split; [|split; [|split]]; [congruence | exact G2 | lia | congruence].
Qed.

Lemma extends_trans (lo : nat) (s1 s2 s3 : ErrorRecoveryManager) :
  extends lo s1 s2 -> extends lo s2 s3 -> extends lo s1 s3.
Proof.
  intros (T1 & new1 & E1 & F1) (T2 & new2 & E2 & F2).
  split; [lia|]. exists (new1 ++ new2). split.
  - rewrite E2, E1, <- app_assoc. reflexivity.
  - apply Forall_app. split; assumption.
Qed.

Lemma extends_weaken (lo lo' : nat) (s s' : ErrorRecoveryManager) :
  (lo <= lo')%nat -> extends lo' s s' -> extends lo s s'.
Proof.
  intros Hlo (T & new & E & F). split; [exact T|]. exists new. split; [exact E|].
  eapply Forall_impl; [exact F|]. simpl. intros ev Hev. lia.
Qed.

Lemma extends_quiet (lo : nat) (s s' : ErrorRecoveryManager) :
  trace s' = trace s -> (ticks s <= ticks s')%nat -> extends lo s s'.
Proof.
  intros E T. split; [exact T|]. exists []. split; [now rewrite app_nil_r | constructor].
Qed.

Lemma grows_extends (err : nat) (s s' : ErrorRecoveryManager) (new : list Event) :
  grows err s s' new -> extends err s s'.
Proof.
  intros (E & F & T & _). split; [exact T|]. exists new. split; [exact E|].
  eapply Forall_impl; [exact F|]. simpl. intros ev ->. lia.
Qed.

Lemma recovery_step_extends (w : World) (s : ErrorRecoveryManager)
    (error : ErrorEvent) (err : nat) :
  extends err s (recovery_step w s error err).
Proof.
  assert (Hsev : severity error = CRITICAL \/ severity error <> CRITICAL)
    by (destruct (severity error); auto; right; discriminate).
  destruct Hsev as [Hc|Hc].
  - eapply grows_extends. apply recovery_step_refused. now left.
  - destruct (le_lt_dec (length (fst (recent_errors w (error_history s) (ticks s)))) 10)
      as [Hle|Hlt].
    + destruct (recovery_step_attempted w s error err Hc Hle) as (new & b & G & _).
      eapply grows_extends. exact G.
    + eapply grows_extends. apply recovery_step_refused. now right.
Qed.

Lemma health_probe_extends (w : World)
    (handle : string -> PyError -> ErrorSeverity -> ErrorRecoveryManager ->
              result ErrorRecoveryManager)
    (limit : Q) (text : string) (lo : nat) (s : ErrorRecoveryManager) :
  (forall c e sev s0 s1, handle c e sev s0 = Ok s1 -> extends (ticks s0) s0 s1) ->
  (lo <= S (ticks s))%nat ->
  extends lo s (snd (health_probe w handle limit text s)).
Proof.
  intros Hh Hlo. unfold health_probe.
  destruct (probe w (ticks s)) as [percent|];
    [|apply extends_quiet; simpl; [reflexivity | lia]].
  destruct (Qlt_bool limit percent);
    [|apply extends_quiet; simpl; [reflexivity | lia]].
  destruct (handle "system" _ HIGH (tick s)) as [s1|e] eqn:E; simpl.
  - apply Hh in E. eapply extends_trans.
    + apply (extends_quiet lo s (tick s)); simpl; [reflexivity | lia].
    + eapply extends_weaken; [|exact E]. simpl. exact Hlo.
  - apply extends_quiet; simpl; [reflexivity | lia].
Qed.

Lemma _check_system_health_extends (w : World)
    (handle : string -> PyError -> ErrorSeverity -> ErrorRecoveryManager ->
              result ErrorRecoveryManager)
    (lo : nat) (s : ErrorRecoveryManager) :
  (forall c e sev s0 s1, handle c e sev s0 = Ok s1 -> extends (ticks s0) s0 s1) ->
  (lo <= S (ticks s))%nat ->
  extends lo s (_check_system_health w handle s).
Proof.
  intros Hh Hlo. unfold _check_system_health.
  pose proof (health_probe_extends w handle 90 "High memory usage" lo s Hh Hlo) as H1.
  destruct (health_probe w handle 90 "High memory usage" s) as [[|] s1];
    simpl in H1; [|exact H1].
  assert (Hlo1 : (lo <= S (ticks s1))%nat) by (destruct H1 as [T _]; lia).
  pose proof (health_probe_extends w handle 95 "High CPU usage" lo s1 Hh Hlo1) as H2.
  destruct (health_probe w handle 95 "High CPU usage" s1) as [[|] s2];
    simpl in H2; [|eapply extends_trans; eassumption].
  assert (Hlo2 : (lo <= S (ticks s2))%nat) by (destruct H2 as [T _]; lia).
  pose proof (health_probe_extends w handle 95 "Low disk space" lo s2 Hh Hlo2) as H3.
  eapply extends_trans; [exact H1|]. eapply extends_trans; eassumption.
Qed.

(** Every event that a call of [handle_error] adds belongs to the error it
    reports or to a later one. *)
Lemma handle_error_extends (depth : nat) (w : World) (comp : string)
    (error : PyError) (sev : ErrorSeverity) (s s' : ErrorRecoveryManager) :
  handle_error depth w comp error sev s = Ok s' -> extends (ticks s) s s'.
Proof.
  revert comp error sev s s'.
  induction depth as [|depth IH]; intros comp error sev s s' H;
    [discriminate|].
  rewrite handle_error_S in H. injection H as <-.
  set (s1 := snd (record_error w s comp error sev)).
  set (ev := fst (record_error w s comp error sev)).
  assert (H1 : extends (ticks s) s s1) by (apply extends_quiet; simpl; [reflexivity|lia]).
  pose proof (recovery_step_extends w s1 ev (ticks s)) as H2.
  assert (Hlo : (ticks s <= S (ticks (recovery_step w s1 ev (ticks s))))%nat).
  { destruct H2 as [T _].
    destruct (record_error_frame w s comp error sev) as (_ & Ht & _).
    fold s1 in Ht. lia. }
  eapply extends_trans; [exact H1|]. eapply extends_trans; [exact H2|].
  apply _check_system_health_extends; [|exact Hlo].
  intros c e sv s0 s3 E. exact (IH c e sv s0 s3 E).
Qed.

(** The nested reports of the health check belong to later errors. *)
Lemma health_check_later (depth : nat) (w : World) (err : nat)
    (s : ErrorRecoveryManager) :
  (err < ticks s)%nat ->
  exists new : list Event,
    trace (_check_system_health w (handle_error depth w) s) = trace s ++ new
    /\ Forall (fun ev => error_of ev <> err) new.
Proof.
  intros Hlt.
  destruct (_check_system_health_extends w (handle_error depth w) (S err) s)
    as (_ & new & E & F).
  - intros c e sv s0 s1 H. exact (handle_error_extends _ _ _ _ _ _ _ H).
  - lia.
  - exists new. split; [exact E|].
    eapply Forall_impl; [exact F|]. simpl. intros ev Hev. lia.
Qed.

(** *** The pass over the registered actions *)

Lemma attempts_length (w : World) (err : nat) (refs : list nat)
    (heap heap' : list RecoveryAction) (n n' : nat) (events : list Event) (b : bool) :
  attempts w err refs heap n events b heap' n' -> length heap' = length heap.
Proof.
  induction 1; try reflexivity; try assumption.
  - apply length_insert.
  - rewrite IHattempts. apply length_insert.
Qed.

Lemma attempts_app_true (w : World) (err : nat) (refs1 refs2 : list nat)
    (heap heap' : list RecoveryAction) (n n' : nat) (events : list Event) :
  attempts w err refs1 heap n events true heap' n' ->
  attempts w err (refs1 ++ refs2) heap n events true heap' n'.
Proof.
  intros H. remember true as b eqn:Eb.
  induction H; simpl.
  - discriminate.
  - eapply attempts_skip; eauto.
  - eapply attempts_stop; eauto.
  - eapply attempts_next; eauto.
Qed.

Lemma attempts_app_false (w : World) (err : nat) (refs1 refs2 : list nat)
    (heap heap1 heap2 : list RecoveryAction) (n n1 n2 : nat)
    (events1 events2 : list Event) (b : bool) :
  attempts w err refs1 heap n events1 false heap1 n1 ->
  attempts w err refs2 heap1 n1 events2 b heap2 n2 ->
  attempts w err (refs1 ++ refs2) heap n (events1 ++ events2) b heap2 n2.
Proof.
  intros H1 H2. remember false as b1 eqn:Eb.
  induction H1; simpl.
  - exact H2.
  - eapply attempts_skip; eauto.
  - discriminate.
  - rewrite <- app_assoc. eapply attempts_next; eauto.
Qed.

Lemma attempts_visited (w : World) (err : nat) (refs : list nat)
    (heap heap' : list RecoveryAction) (n n' : nat) (events : list Event) (b : bool) :
  attempts w err refs heap n events b heap' n' ->
  visited refs (visits err events) b.
Proof.
  induction 1.
  - constructor.
  - rewrite visits_cons. simpl. rewrite Nat.eqb_refl. now constructor.
  - unfold execute_events. destruct ran; unfold visits; simpl;
      rewrite Nat.eqb_refl; constructor.
  - rewrite visits_app.
    assert (E : visits err (execute_events r err
                              (recover w (name a) (S (S (S n)))) res ran)
                = [(r, false)]).
    { unfold execute_events. destruct ran; unfold visits; simpl;
        rewrite Nat.eqb_refl; destruct res as [[|]|e]; try reflexivity;
        contradiction. }
    rewrite E. simpl. now constructor.
Qed.

Lemma try_actions_attempts (w : World) (refs : list nat) (err : nat)
    (s : ErrorRecoveryManager) :
  Forall (fun r => (r < length (actions s))%nat) refs ->
  exists new : list Event,
    trace (snd (try_actions w refs err s)) = trace s ++ new
    /\ attempts w err refs (actions s) (ticks s) new
                (fst (try_actions w refs err s))
                (actions (snd (try_actions w refs err s)))
                (ticks (snd (try_actions w refs err s))).
Proof.
  revert s. induction refs as [|r refs IH]; intros s Hrefs.
  - exists []. simpl. split; [now rewrite app_nil_r | constructor].
  - apply Forall_cons in Hrefs as [Hr Hrefs].
    destruct (lookup_lt_is_Some_2 _ _ Hr) as [a Ha].
    simpl. rewrite Ha.
    destruct (can_attempt a (clock w (ticks s))) eqn:Ec.
    + unfold run_execute.
      change (ticks (tick s)) with (S (ticks s)).
      destruct (execute a (clock w (S (ticks s))) (clock w (S (S (ticks s))))
                        (recover w (name a) (S (S (S (ticks s))))))
        as [[res a'] ran] eqn:Ee.
      assert (Hstop : res = Ok true ->
                attempts w err (r :: refs) (actions s) (ticks s)
                  (execute_events r err (recover w (name a) (S (S (S (ticks s)))))
                                  res ran)
                  true (<[r := a']> (actions s))
                  (if ran then 4 + ticks s else 2 + ticks s)%nat).
      { intros ->. eapply attempts_stop; eauto. }
      assert (Hnext : forall s1 : ErrorRecoveryManager,
                res <> Ok true ->
                actions s1 = <[r := a']> (actions s) ->
                ticks s1 = (if ran then 4 + ticks s else 2 + ticks s)%nat ->
                trace s1 = trace s
                           ++ execute_events r err
                                (recover w (name a) (S (S (S (ticks s))))) res ran ->
                exists new : list Event,
                  trace (snd (try_actions w refs err s1)) = trace s ++ new
                  /\ attempts w err (r :: refs) (actions s) (ticks s) new
                       (fst (try_actions w refs err s1))
                       (actions (snd (try_actions w refs err s1)))
                       (ticks (snd (try_actions w refs err s1)))).
      { intros s1 Hres Hact Htk Htr.
        destruct (IH s1) as (new & T & A).
        { rewrite Hact, length_insert. exact Hrefs. }
        exists (execute_events r err (recover w (name a) (S (S (S (ticks s)))))
                               res ran ++ new).
        split; [rewrite T, Htr, <- app_assoc; reflexivity|].
        rewrite Hact, Htk in A. eapply attempts_next; eauto. }
      destruct ran; destruct res as [[|]|e];
        try (eexists; split; [|apply Hstop; reflexivity]; reflexivity);
        apply Hnext; try reflexivity; discriminate.
    + destruct (IH (log (tick s) [Ineligible r err])) as (new & T & A);
        [exact Hrefs|].
      exists (Ineligible r err :: new). split.
      * rewrite T. simpl. rewrite <- app_assoc. reflexivity.
      * eapply attempts_skip; eauto.
Qed.

Lemma _attempt_recovery_attempts (w : World) (s : ErrorRecoveryManager)
    (error : ErrorEvent) (err : nat) :
  Forall (fun r => (r < length (actions s))%nat)
         (default [] (component_recoveries s !! component error)
          ++ default [] (component_recoveries s !! "general")) ->
  exists (new : list Event) (b : bool) (heap' : list RecoveryAction) (n' : nat),
    trace (_attempt_recovery w s error err) = trace s ++ new
    /\ attempts w err
         (default [] (component_recoveries s !! component error)
          ++ default [] (component_recoveries s !! "general"))
         (actions s) (ticks s) new b heap' n'.
Proof.
  intros Hrefs. apply Forall_app in Hrefs as [Hc Hg].
  unfold _attempt_recovery.
  set (component_actions := default [] (component_recoveries s !! component error)) in *.
  set (general_actions := default [] (component_recoveries s !! "general")) in *.
  destruct (try_actions_attempts w component_actions err s Hc) as (new1 & T1 & A1).
  destruct (try_actions w component_actions err s) as [[|] s1]; simpl in T1, A1.
  - exists new1, true, (actions s1), (ticks s1).
    split; [exact T1|]. now apply attempts_app_true.
  - destruct (try_actions_attempts w general_actions err s1) as (new2 & T2 & A2).
    { rewrite (attempts_length _ _ _ _ _ _ _ _ _ A1). exact Hg. }
    destruct (try_actions w general_actions err s1) as [b s2]; simpl in T2, A2.
    exists (new1 ++ new2), b, (actions s2), (ticks s2).
    split.
    + destruct b; simpl; rewrite T2, T1, <- app_assoc; reflexivity.
    + eapply attempts_app_false; eauto.
Qed.

Lemma recovery_step_attempts (w : World) (s : ErrorRecoveryManager)
    (error : ErrorEvent) (err : nat) :
  severity error <> CRITICAL ->
  (length (fst (recent_errors w (error_history s) (ticks s))) <= 10)%nat ->
  Forall (fun r => (r < length (actions s))%nat)
         (default [] (component_recoveries s !! component error)
          ++ default [] (component_recoveries s !! "general")) ->
  exists (new : list Event) (b : bool) (heap' : list RecoveryAction) (n' : nat),
    trace (recovery_step w s error err) = trace s ++ new
    /\ attempts w err
         (default [] (component_recoveries s !! component error)
          ++ default [] (component_recoveries s !! "general"))
         (actions s) (snd (recent_errors w (error_history s) (ticks s)))
         new b heap' n'.
Proof.
  intros Hsev Hcount Hrefs. unfold recovery_step.
  destruct (_should_attempt_recovery_frame w s error) as (Hac & Htr & Hcr & _).
  assert (Hb : _should_attempt_recovery w s error
               = (true, snd (_should_attempt_recovery w s error))
               /\ ticks (snd (_should_attempt_recovery w s error))
                  = snd (recent_errors w (error_history s) (ticks s))).
  { unfold _should_attempt_recovery.
    destruct (recent_errors w (error_history s) (ticks s)) as [recent n].
    simpl in Hcount. apply Nat.ltb_ge in Hcount.
    destruct (severity error); simpl; rewrite ?Hcount; try (split; reflexivity).
    contradiction. }
  destruct Hb as (Hb & Htk). rewrite Hb.
  set (s0 := snd (_should_attempt_recovery w s error)) in *.
  destruct (_attempt_recovery_attempts w s0 error err) as (new & b & heap' & n' & T & A).
  { rewrite Hac, Hcr. exact Hrefs. }
  exists new, b, heap', n'. split; [now rewrite T, Htr|].
  rewrite Hac, Hcr, Htk in A. exact A.
Qed.

(** C5 (amended).  [handle_error] attempts no recovery for an error that is
    critical or that arrives when more than 10 events of the bounded
    history, of whatever component and this one included, are younger
    than 5 minutes: no action is checked, executed or run for it.
    Otherwise (the registered references being action objects, as
    [register_recovery_action] leaves them) it goes through the actions
    registered for the error's component and then through those
    registered as general, in registration order: an action whose
    [can_attempt] answers [False] is skipped, every other one has its
    [execute] called, and the pass stops at the first whose [execute]
    returns success. *)
Theorem recovery_eligibility :
  (forall (depth : nat) (w : World) (comp : string) (error : PyError)
          (sev : ErrorSeverity) (s : ErrorRecoveryManager),
      sev = CRITICAL
      \/ (10 < length (fst (recent_errors w
                              (error_history (snd (record_error w s comp error sev)))
                              (S (ticks s)))))%nat ->
      exists (s' : ErrorRecoveryManager) (new : list Event),
        handle_error (S depth) w comp error sev s = Ok s'
        /\ trace s' = trace s ++ new
        /\ Forall (fun ev => error_of ev <> ticks s) new)
  /\ (forall (depth : nat) (w : World) (comp : string) (error : PyError)
             (sev : ErrorSeverity) (s : ErrorRecoveryManager),
        sev <> CRITICAL ->
        (length (fst (recent_errors w
                        (error_history (snd (record_error w s comp error sev)))
                        (S (ticks s)))) <= 10)%nat ->
        Forall (fun r => (r < length (actions s))%nat)
               (default [] (component_recoveries s !! comp)
                ++ default [] (component_recoveries s !! "general")) ->
        exists (s' : ErrorRecoveryManager) (new later : list Event) (b : bool)
               (heap' : list RecoveryAction) (n' : nat),
          handle_error (S depth) w comp error sev s = Ok s'
          /\ trace s' = trace s ++ new ++ later
          /\ attempts w (ticks s)
               (default [] (component_recoveries s !! comp)
                ++ default [] (component_recoveries s !! "general"))
               (actions s)
               (snd (recent_errors w
                       (error_history (snd (record_error w s comp error sev)))
                       (S (ticks s))))
               new b heap' n'
          /\ Forall (fun ev => error_of ev <> ticks s) later
          /\ visited (default [] (component_recoveries s !! comp)
                      ++ default [] (component_recoveries s !! "general"))
                     (visits (ticks s) (new ++ later)) b).
Proof.
  split.
  - intros depth w comp error sev s H.
    rewrite handle_error_S.
    set (s1 := snd (record_error w s comp error sev)).
    set (ev := fst (record_error w s comp error sev)).
    destruct (recovery_step_refused w s1 ev (ticks s)) as (E & _ & T & _).
    { destruct H as [H|H]; [left; exact H | right; exact H]. }
    destruct (health_check_later depth w (ticks s) (recovery_step w s1 ev (ticks s)))
      as (new & En & Fn).
    { destruct (record_error_frame w s comp error sev) as (_ & Ht & _).
      fold s1 in Ht. lia. }
    exists (_check_system_health w (handle_error depth w)
              (recovery_step w s1 ev (ticks s))), new.
    split; [reflexivity|]. split; [|exact Fn].
    rewrite En, E, app_nil_r. reflexivity.
  - intros depth w comp error sev s Hsev Hcount Hrefs.
    rewrite handle_error_S.
    set (s1 := snd (record_error w s comp error sev)).
    set (ev := fst (record_error w s comp error sev)).
    destruct (recovery_step_attempted w s1 ev (ticks s)) as (new0 & b0 & (_ & _ & T & _) & _).
    { exact Hsev. }
    { exact Hcount. }
    destruct (recovery_step_attempts w s1 ev (ticks s))
      as (new1 & b & heap' & n' & E & A).
    { exact Hsev. }
    { exact Hcount. }
    { exact Hrefs. }
    destruct (health_check_later depth w (ticks s) (recovery_step w s1 ev (ticks s)))
      as (new2 & En & Fn).
    { destruct (record_error_frame w s comp error sev) as (_ & Ht & _).
      fold s1 in Ht. lia. }
    exists (_check_system_health w (handle_error depth w)
              (recovery_step w s1 ev (ticks s))), new1, new2, b, heap', n'.
    split; [reflexivity|]. split.
    { rewrite En, E, <- app_assoc. reflexivity. }
    split; [exact A|]. split; [exact Fn|].
    rewrite visits_app, (visits_other _ _ Fn), app_nil_r.
    exact (attempts_visited _ _ _ _ _ _ _ _ _ A).
Qed.

Lemma recovery_eligibility_witness :
  (exists (s' : ErrorRecoveryManager) (new : list Event),
      handle_error 3 (Examples.world 1 Recovered) "wallet"
                   Examples.connection_lost CRITICAL Examples.wallet_manager = Ok s'
      /\ trace s' = trace Examples.wallet_manager ++ new
      /\ Forall (fun ev => error_of ev <> 0%nat) new)
  /\ (exists (s' : ErrorRecoveryManager) (new later : list Event) (b : bool)
             (heap' : list RecoveryAction) (n' : nat),
        handle_error 3 (Examples.world 1 Recovered) "wallet"
                     Examples.connection_lost MEDIUM Examples.wallet_manager = Ok s'
        /\ trace s' = trace Examples.wallet_manager ++ new ++ later
        /\ attempts (Examples.world 1 Recovered) 0 ([0%nat] ++ [])
                    (actions Examples.wallet_manager) 2 new b heap' n'
        /\ Forall (fun ev => error_of ev <> 0%nat) later
        /\ visited ([0%nat] ++ []) (visits 0 (new ++ later)) b).
Proof.
  split.
  - apply (proj1 recovery_eligibility 2%nat (Examples.world 1 Recovered) "wallet"
             Examples.connection_lost CRITICAL Examples.wallet_manager).
    left. reflexivity.
  - apply (proj2 recovery_eligibility 2%nat (Examples.world 1 Recovered) "wallet"
             Examples.connection_lost MEDIUM Examples.wallet_manager).
    + discriminate.
    + vm_compute. lia.
    + vm_compute. repeat constructor.
Defined.

(** C5, counterexample.  Ten errors of the network within a minute and a
    half, then the first error of the wallet, of medium severity: the
    wallet has one event in the last 5 minutes and its action could be
    attempted, yet no action is tried, because the burst count takes the
    eleven events of both components. *)
Lemma burst_counts_every_component :
  let w := Examples.world 1 Recovered in
  let busy :=
    handle_errors 5 w (replicate 10 ("network", Examples.connection_lost, MEDIUM))
                  Examples.wallet_manager in
  let after :=
    handle_errors 5 w [("wallet", Examples.connection_lost, MEDIUM)] busy in
  component_recent "wallet" (clock w (S (ticks busy))) (error_history after) = 1%nat
  /\ (exists a : RecoveryAction,
        actions busy !! 0%nat = Some a
        /\ can_attempt a (clock w (S (ticks busy))) = true)
  /\ component_recoveries busy !! "wallet" = Some [0%nat]
  /\ trace busy = [] /\ trace after = [].
Proof.
  vm_compute. split; [reflexivity|]. split; [|repeat split; reflexivity].
  eexists. split; reflexivity.
Qed.

(** *** The books of the manager *)

Lemma same_books_refl (s : ErrorRecoveryManager) : same_books s s.
Proof. repeat split. Qed.

Lemma same_books_trans (s1 s2 s3 : ErrorRecoveryManager) :
  same_books s1 s2 -> same_books s2 s3 -> same_books s1 s3.
Proof.
  intros (A1 & A2 & A3 & A4 & A5) (B1 & B2 & B3 & B4 & B5).
  repeat split; congruence.
Qed.

Lemma run_execute_books (w : World) (ref : nat) (a : RecoveryAction) (err : nat)
    (s : ErrorRecoveryManager) :
  same_books s (snd (run_execute w ref a err s)).
Proof.
  unfold run_execute. destruct (execute a _ _ _) as [[res a'] ran].
  destruct ran; repeat split.
Qed.

Lemma try_actions_books (w : World) (refs : list nat) (err : nat)
    (s : ErrorRecoveryManager) :
  same_books s (snd (try_actions w refs err s)).
Proof.
  revert s. induction refs as [|r refs IH]; intros s; simpl.
  - apply same_books_refl.
  - destruct (actions s !! r) as [a|].
    + destruct (can_attempt a (clock w (ticks s))).
      * pose proof (run_execute_books w r a err (tick s)) as H.
        destruct (run_execute w r a err (tick s)) as [res s1]. simpl in H.
        destruct res as [[|]|e]; simpl; [exact H| |];
          (eapply same_books_trans; [exact H | apply IH]).
      * eapply same_books_trans; [|apply IH]. repeat split.
    + eapply same_books_trans; [|apply IH]. repeat split.
Qed.

Lemma mark_resolved_books (s : ErrorRecoveryManager) :
  max_history (mark_resolved s) = max_history s
  /\ total_errors (mark_resolved s) = total_errors s
  /\ resolved_errors (mark_resolved s) = S (resolved_errors s)
  /\ critical_errors (mark_resolved s) = critical_errors s
  /\ length (error_history (mark_resolved s)) = length (error_history s)
  /\ last (error_history (mark_resolved s))
     = resolved_event <$> last (error_history s).
Proof.
  unfold mark_resolved. simpl. repeat split.
  - destruct (last (error_history s)); [apply length_insert | reflexivity].
  - destruct (error_history s) as [|e0 l _] using rev_ind; [reflexivity|].
    rewrite last_snoc. simpl. rewrite length_app. simpl.
    replace (Init.Nat.pred (length l + 1)) with (length l + 0)%nat by lia.
    rewrite insert_app_r. simpl. rewrite last_snoc. reflexivity.
Qed.

Lemma same_books_after (s s' : ErrorRecoveryManager) :
  same_books s s' -> books_after false s s'.
Proof.
  intros (A1 & A2 & A3 & A4 & A5). unfold books_after.
  rewrite A1, A2, A3, A4, A5, Nat.add_0_r.
  repeat split. now destruct (last (error_history s)).
Qed.

Lemma mark_resolved_after (s : ErrorRecoveryManager) :
  books_after true s (mark_resolved s).
Proof.
  destruct (mark_resolved_books s) as (M1 & M2 & M3 & M4 & _ & M6).
  unfold books_after. rewrite M1, M2, M3, M4, M6, Nat.add_1_r.
  repeat split. unfold mark_resolved. simpl.
  destruct (error_history s) as [|e0 l _] using rev_ind; [reflexivity|].
  rewrite last_snoc, length_app. simpl.
  replace (Init.Nat.pred (length l + 1)) with (length l + 0)%nat by lia.
  rewrite insert_app_r. simpl. now rewrite !removelast_last.
Qed.

Lemma books_after_same (b : bool) (s s1 s2 : ErrorRecoveryManager) :
  same_books s s1 -> books_after b s1 s2 -> books_after b s s2.
Proof.
  intros (A1 & A2 & A3 & A4 & A5) (B1 & B2 & B3 & B4 & B5 & B6).
  unfold books_after. rewrite B1, B2, B3, B4, B5, B6, A1, A2, A3, A4, A5.
  repeat split.
Qed.

Lemma succeeded_visits (err : nat) (events : list Event) :
  succeeded err events = existsb snd (visits err events).
Proof.
  induction events as [|ev events IH]; [reflexivity|].
  rewrite visits_cons. simpl. rewrite IH.
  destruct ev as [r e|r e [[|]|x]|r e o]; simpl; try reflexivity;
    destruct (e =? err)%nat; reflexivity.
Qed.

Lemma visited_succeeded (refs : list nat) (err : nat) (events : list Event)
    (b : bool) :
  visited refs (visits err events) b -> succeeded err events = b.
Proof.
  rewrite succeeded_visits. generalize (visits err events) as vs.
  intros vs H. induction H; simpl; auto.
Qed.

Lemma _attempt_recovery_after (w : World) (s : ErrorRecoveryManager)
    (error : ErrorEvent) (err : nat) :
  exists new : list Event,
    trace (_attempt_recovery w s error err) = trace s ++ new
    /\ books_after (succeeded err new) s (_attempt_recovery w s error err).
Proof.
  unfold _attempt_recovery.
  set (component_actions := default [] (component_recoveries s !! component error)).
  set (general_actions := default [] (component_recoveries s !! "general")).
  destruct (try_actions_grows w component_actions err s) as (new1 & G1 & V1).
  pose proof (try_actions_books w component_actions err s) as B1.
  destruct (try_actions w component_actions err s) as [[|] s1]; simpl in G1, V1, B1.
  - exists new1. destruct G1 as (T1 & _). split; [exact T1|].
    rewrite (visited_succeeded _ _ _ _ V1).
    eapply books_after_same; [exact B1 | apply mark_resolved_after].
  - destruct (try_actions_grows w general_actions err s1) as (new2 & G2 & V2).
    pose proof (try_actions_books w general_actions err s1) as B2.
    pose proof (same_books_trans _ _ _ B1 B2) as B.
    destruct G1 as (T1 & _).
    destruct (try_actions w general_actions err s1) as [b s2]; simpl in G2, V2, B2, B.
    destruct G2 as (T2 & _).
    exists (new1 ++ new2).
    assert (Hv : visited (component_actions ++ general_actions)
                         (visits err (new1 ++ new2)) b)
      by (rewrite visits_app; now apply visited_app_false).
    rewrite (visited_succeeded _ _ _ _ Hv).
    destruct b.
    + split; [simpl; rewrite T2, T1, <- app_assoc; reflexivity|].
      eapply books_after_same; [exact B | apply mark_resolved_after].
    + split; [rewrite T2, T1, <- app_assoc; reflexivity|].
      now apply same_books_after.
Qed.

Lemma _should_attempt_recovery_books (w : World) (s : ErrorRecoveryManager)
    (error : ErrorEvent) :
  same_books s (snd (_should_attempt_recovery w s error)).
Proof.
  unfold _should_attempt_recovery.
  destruct (recent_errors w (error_history s) (ticks s)) as [recent n].
  destruct (severity error); repeat split.
Qed.

Lemma recovery_step_after (w : World) (s : ErrorRecoveryManager)
    (error : ErrorEvent) (err : nat) :
  exists new : list Event,
    trace (recovery_step w s error err) = trace s ++ new
    /\ books_after (succeeded err new) s (recovery_step w s error err)
    /\ (severity error = CRITICAL -> new = []).
Proof.
  unfold recovery_step.
  destruct (_should_attempt_recovery_frame w s error) as (_ & Htr & _ & _).
  pose proof (_should_attempt_recovery_books w s error) as B.
  assert (Hc : severity error = CRITICAL ->
               fst (_should_attempt_recovery w s error) = false).
  { intros H. unfold _should_attempt_recovery. now rewrite H. }
  destruct (_should_attempt_recovery w s error) as [[|] s0]; simpl in *.
  - destruct (_attempt_recovery_after w s0 error err) as (new & T & A).
    exists new. split; [now rewrite T, Htr|].
    split; [eapply books_after_same; eassumption|].
    intros H. now specialize (Hc H).
  - exists []. split; [now rewrite app_nil_r|].
    split; [now apply same_books_after | reflexivity].
Qed.

Lemma books_advance_refl (s : ErrorRecoveryManager) : books_advance s s.
Proof. unfold books_advance. repeat split; auto; lia. Qed.

Lemma books_advance_trans (s1 s2 s3 : ErrorRecoveryManager) :
  books_advance s1 s2 -> books_advance s2 s3 -> books_advance s1 s3.
Proof.
  unfold books_advance.
  intros (A1 & A2 & A3 & A4 & A5) (B1 & B2 & B3 & B4 & B5).
  repeat split; try lia; auto.
Qed.

Lemma record_error_last (w : World) (s : ErrorRecoveryManager) (comp : string)
    (error : PyError) (sev : ErrorSeverity) :
  (0 < max_history s)%nat ->
  last (error_history (snd (record_error w s comp error sev)))
  = Some (fst (record_error w s comp error sev)).
Proof.
  intros Hmax. simpl. rewrite length_app. simpl.
  destruct (max_history s <? length (error_history s) + 1)%nat eqn:E.
  - apply Nat.ltb_lt in E.
    destruct (error_history s) as [|e0 l]; [simpl in E; lia|].
    simpl. apply last_snoc.
  - apply last_snoc.
Qed.

Lemma report_advance (w : World) (s : ErrorRecoveryManager) (comp : string)
    (error : PyError) (sev : ErrorSeverity) :
  books_advance s
    (recovery_step w (snd (record_error w s comp error sev))
                   (fst (record_error w s comp error sev)) (ticks s)).
Proof.
  destruct (recovery_step_after w (snd (record_error w s comp error sev))
              (fst (record_error w s comp error sev)) (ticks s))
    as (new & _ & (A1 & A2 & A3 & A4 & A5 & A6) & _).
  assert (Hlen : length (error_history
                   (recovery_step w (snd (record_error w s comp error sev))
                      (fst (record_error w s comp error sev)) (ticks s)))
                 = length (error_history (snd (record_error w s comp error sev)))).
  { revert A5 A6.
    generalize (error_history (snd (record_error w s comp error sev))) as l.
    generalize (error_history
                  (recovery_step w (snd (record_error w s comp error sev))
                     (fst (record_error w s comp error sev)) (ticks s))) as l'.
    intros l' l A5 A6.
    destruct l' as [|x' l' _] using rev_ind; destruct l as [|x l _] using rev_ind;
      try reflexivity.
    - rewrite last_snoc in A6. discriminate.
    - rewrite last_snoc in A6. discriminate.
    - rewrite !removelast_last in A5. subst l'. now rewrite !length_app. }
  unfold books_advance. rewrite A1, A2, A3, A4, Hlen. simpl.
  rewrite length_app. simpl.
  repeat split; try lia.
  - destruct (succeeded (ticks s) new); lia.
  - destruct sev; lia.
  - intros H. destruct (max_history s <? length (error_history s) + 1)%nat eqn:E.
    + destruct (error_history s) as [|e0 l]; simpl in *; [lia|].
      rewrite length_app. simpl. lia.
    + apply Nat.ltb_ge in E. rewrite length_app. simpl. lia.
Qed.

Section Health.

Variable w : World.
Variable handle : string -> PyError -> ErrorSeverity -> ErrorRecoveryManager ->
                  result ErrorRecoveryManager.
Hypothesis handle_advance :
  forall comp error sev s s', handle comp error sev s = Ok s' -> books_advance s s'.

Lemma health_probe_advance (limit : Q) (text : string) (s : ErrorRecoveryManager) :
  books_advance s (snd (health_probe w handle limit text s)).
Proof.
  unfold health_probe. destruct (probe w (ticks s)) as [percent|].
  - destruct (Qlt_bool limit percent).
    + destruct (handle "system" (mkError "Exception" text "") HIGH (tick s))
        as [s'|e] eqn:E.
      * apply handle_advance in E. simpl.
        eapply books_advance_trans; [|exact E].
        unfold books_advance. simpl. repeat split; auto; lia.
      * unfold books_advance. simpl. repeat split; auto; lia.
    + unfold books_advance. simpl. repeat split; auto; lia.
  - unfold books_advance. simpl. repeat split; auto; lia.
Qed.

Lemma _check_system_health_advance (s : ErrorRecoveryManager) :
  books_advance s (_check_system_health w handle s).
Proof.
  unfold _check_system_health.
  pose proof (health_probe_advance 90 "High memory usage" s) as H1.
  destruct (health_probe w handle 90 "High memory usage" s) as [[|] s1];
    simpl in H1; [|exact H1].
  pose proof (health_probe_advance 95 "High CPU usage" s1) as H2.
  destruct (health_probe w handle 95 "High CPU usage" s1) as [[|] s2];
    simpl in H2; [|eapply books_advance_trans; eassumption].
  pose proof (health_probe_advance 95 "Low disk space" s2) as H3.
  eapply books_advance_trans; [exact H1|].
  eapply books_advance_trans; [exact H2 | exact H3].
Qed.

End Health.

Lemma handle_error_advance (depth : nat) (w : World) (comp : string)
    (error : PyError) (sev : ErrorSeverity) (s s' : ErrorRecoveryManager) :
  handle_error depth w comp error sev s = Ok s' -> books_advance s s'.
Proof.
  revert comp error sev s s'.
  induction depth as [|depth IH]; intros comp error sev s s' H; [discriminate|].
  rewrite handle_error_S in H. injection H as <-.
  eapply books_advance_trans; [apply report_advance|].
  apply _check_system_health_advance. exact IH.
Qed.

Lemma handle_errors_advance (depth : nat) (w : World)
    (reports : list (string * PyError * ErrorSeverity))
    (s : ErrorRecoveryManager) :
  books_advance s (handle_errors depth w reports s).
Proof.
  revert s. induction reports as [|[[comp error] sev] reports IH]; intros s.
  - apply books_advance_refl.
  - simpl. destruct (handle_error depth w comp error sev s) as [s'|e] eqn:E.
    + eapply books_advance_trans; [|apply IH].
      eapply handle_error_advance. exact E.
    + apply IH.
Qed.

Lemma books_advance_counters (s s' : ErrorRecoveryManager) :
  books_advance s s' -> counters_ok s -> counters_ok s'.
Proof.
  unfold books_advance, counters_ok.
  intros (A1 & A2 & A3 & A4 & A5) (C1 & C2 & C3).
  repeat split; [lia | lia | auto].
Qed.

(** X19.  The outcome of a report, up to the health check of
    [handle_error]: with room in the history, the newest event of the
    history is the event of this report; if the [execute] of some action
    returned success for it, the event is marked resolved with one
    recovery attempt and [resolved_errors] grows by one, otherwise the
    event stays unresolved with no attempt counted, also when actions ran
    and failed.  A critical report runs no action. *)
Theorem report_outcome (w : World) (s : ErrorRecoveryManager) (comp : string)
    (error : PyError) (sev : ErrorSeverity) :
  (0 < max_history s)%nat ->
  let error_event := fst (record_error w s comp error sev) in
  let s' := recovery_step w (snd (record_error w s comp error sev))
                          error_event (ticks s) in
  exists new : list Event,
    trace s' = trace s ++ new
    /\ last (error_history s')
       = Some (if succeeded (ticks s) new
               then resolved_event error_event else error_event)
    /\ resolved_errors s'
       = (resolved_errors s + if succeeded (ticks s) new then 1 else 0)%nat
    /\ total_errors s' = S (total_errors s)
    /\ (sev = CRITICAL -> new = []).
Proof.
  intros Hmax error_event s'.
  destruct (recovery_step_after w (snd (record_error w s comp error sev))
              error_event (ticks s))
    as (new & T & (A1 & A2 & A3 & A4 & A5 & A6) & Hc).
  fold s' in T, A1, A2, A3, A4, A5, A6.
  exists new. split; [exact T|].
  split.
  { rewrite A6, (record_error_last w s comp error sev Hmax).
    fold error_event. now destruct (succeeded (ticks s) new). }
  split; [exact A4|]. split; [exact A2|]. exact Hc.
Qed.

Lemma report_outcome_witness :
  exists new : list Event,
    trace (recovery_step (Examples.world 5 Recovered)
             (snd (record_error (Examples.world 5 Recovered) Examples.wallet_manager
                     "wallet" Examples.connection_lost MEDIUM))
             (fst (record_error (Examples.world 5 Recovered) Examples.wallet_manager
                     "wallet" Examples.connection_lost MEDIUM)) 0)
    = [] ++ new
    /\ succeeded 0 new = true.
Proof.
  assert (Hmax : (0 < max_history Examples.wallet_manager)%nat) by (vm_compute; lia).
  destruct (report_outcome (Examples.world 5 Recovered) Examples.wallet_manager
              "wallet" Examples.connection_lost MEDIUM Hmax) as (new & T & _).
  exists new. split; [exact T|].
  vm_compute in T. subst new. vm_compute. reflexivity.
Defined.

(** X20.  Whatever is reported to [handle_error], nested reports of the
    health check included, the counters stay consistent: resolved errors
    and critical errors never exceed the total, and the history never
    holds more than [max_history] events. *)
Theorem counters_kept (depth : nat) (w : World)
    (reports : list (string * PyError * ErrorSeverity))
    (s : ErrorRecoveryManager) :
  counters_ok s -> counters_ok (handle_errors depth w reports s).
Proof.
  apply books_advance_counters, handle_errors_advance.
Qed.

Lemma counters_kept_witness :
  counters_ok (handle_errors 3 (Examples.world 5 Recovered)
                 [("wallet", Examples.connection_lost, MEDIUM);
                  ("mining", Examples.connection_lost, CRITICAL)]
                 Examples.wallet_manager).
Proof.
  apply counters_kept. unfold counters_ok. vm_compute. repeat split; lia.
Defined.

(** X21.  The recovery rate of [get_stats] after any reports is a
    percentage: the division does not raise, the rate lies between 0 and
    100, and it is 0 while no error has been counted. *)
Theorem recovery_rate_percentage (depth : nat) (w : World)
    (reports : list (string * PyError * ErrorSeverity))
    (s : ErrorRecoveryManager) :
  counters_ok s ->
  exists r : Q,
    recovery_rate (handle_errors depth w reports s) = Ok r
    /\ 0 <= r /\ r <= 100
    /\ (total_errors (handle_errors depth w reports s) = 0%nat -> r == 0).
Proof.
  intros H.
  pose proof (books_advance_counters _ _ (handle_errors_advance depth w reports s) H)
    as (C1 & _ & _).
  generalize dependent (handle_errors depth w reports s). clear H s.
  intros s C1. unfold recovery_rate.
  set (a := Z.of_nat (resolved_errors s)).
  set (b := Z.of_nat (Nat.max 1 (total_errors s))).
  assert (Ha : (0 <= a)%Z) by lia.
  assert (Hb : (0 < b)%Z) by lia.
  assert (Hab : (a <= b)%Z) by lia.
  assert (Hbq : 0 < inject_Z b) by (change 0 with (inject_Z 0); now rewrite <- Zlt_Qlt).
  assert (Haq : 0 <= inject_Z a) by (change 0 with (inject_Z 0); now rewrite <- Zle_Qle).
  assert (Habq : inject_Z a <= inject_Z b) by now rewrite <- Zle_Qle.
  rewrite truediv_nonzero by lra.
  exists (inject_Z a / inject_Z b * 100). split; [reflexivity|].
  assert (H0 : 0 <= inject_Z a / inject_Z b)
    by (apply Qle_shift_div_l; [exact Hbq | lra]).
  assert (H1 : inject_Z a / inject_Z b <= 1)
    by (apply Qle_shift_div_r; [exact Hbq | lra]).
  split; [lra|]. split; [lra|].
  intros Ht. assert (Ea : a = 0%Z) by lia. rewrite Ea.
  unfold Qdiv. change (inject_Z 0) with 0. ring.
Qed.

Lemma recovery_rate_percentage_witness :
  exists r : Q,
    recovery_rate (handle_errors 3 (Examples.world 5 Recovered)
                     [("wallet", Examples.connection_lost, MEDIUM);
                      ("mining", Examples.connection_lost, CRITICAL)]
                     Examples.wallet_manager) = Ok r
    /\ 0 <= r /\ r <= 100.
Proof.
  assert (H : counters_ok Examples.wallet_manager)
    by (unfold counters_ok; vm_compute; repeat split; lia).
  destruct (recovery_rate_percentage 3 (Examples.world 5 Recovered)
              [("wallet", Examples.connection_lost, MEDIUM);
               ("mining", Examples.connection_lost, CRITICAL)]
              Examples.wallet_manager H) as (r & E & H0 & H1 & _).
  exists r. auto.
Defined.

(** X22.  A run of [execute]: when [can_attempt] allows it, [_recover] is
    run, the attempt time is stored, exactly one of the two counters grows
    (the successes exactly when [_recover] returned true), and a further
    [execute] is refused without running anything as long as no more than
    the cooldown has passed since the stored time, the end of the cooldown
    included. *)
Theorem execute_run (a : RecoveryAction) (now_check now_attempt : Q)
    (outcome : RecoverOutcome) :
  can_attempt a now_check = true ->
  let '(res, a', ran) := execute a now_check now_attempt outcome in
  ran = true
  /\ last_attempt a' = now_attempt
  /\ (success_count a' + failure_count a'
      = S (success_count a + failure_count a))%nat
  /\ (res = Ok true <-> outcome = Recovered)
  /\ (success_count a' = S (success_count a) <-> outcome = Recovered)
  /\ forall (later later' : Q) (next : RecoverOutcome),
       later - now_attempt <= cooldown a ->
       execute a' later later' next = (Ok false, a', false).
Proof.
  intros H.
  assert (Hr : forall (a' : RecoveryAction) (later later' : Q) (next : RecoverOutcome),
             cooldown a' = cooldown a -> last_attempt a' = now_attempt ->
             later - now_attempt <= cooldown a ->
             execute a' later later' next = (Ok false, a', false)).
  { intros a' later later' next Hc Hl Hle.
    assert (E : can_attempt a' later = false).
    { unfold can_attempt. rewrite Hc, Hl.
      apply andb_false_iff. left. apply Qlt_bool_false_iff. exact Hle. }
    unfold execute. now rewrite E. }
  unfold execute at 1. rewrite H. cbn [negb].
  destruct outcome as [| |e]; cbv beta iota;
    cbn [last_attempt success_count failure_count];
    (split; [reflexivity|]); (split; [reflexivity|]); (split; [lia|]);
    (split; [split; intros; congruence|]);
    (split; [split; intros; try congruence; try lia|]);
    intros later later' next Hle; apply Hr; auto.
Qed.

Lemma execute_run_witness :
  let '(res, a', ran) := execute (new_action "reconnect_wallet" 5 10) 1000 1001
                                 NotRecovered in
  ran = true /\ execute a' 1011 1012 Recovered = (Ok false, a', false).
Proof.
  assert (H : can_attempt (new_action "reconnect_wallet" 5 10) 1000 = true)
    by reflexivity.
  pose proof (execute_run (new_action "reconnect_wallet" 5 10) 1000 1001
                NotRecovered H) as P.
  destruct (execute (new_action "reconnect_wallet" 5 10) 1000 1001 NotRecovered)
    as [[res a'] ran].
  destruct P as (P1 & P2 & _ & _ & _ & P6).
  split; [exact P1|]. apply P6. vm_compute. discriminate.
Defined.

(** X23.  [ReduceResourceUsageRecovery._recover] on a miner whose threads
    and intensity are within the floors of the scaling policies (at least
    1 thread, intensity at least 0.3) reports success and keeps them
    within those floors and not above their former values; the thread
    count goes down whenever it was above 1.  Without a miner it reports
    failure and changes nothing. *)
Theorem reduce_resources_floors (n : Z) (x : Q) (gc : nat) :
  (1 <= n)%Z -> 3 # 10 <= x ->
  let env := Scaling.mkEnv (Some (Scaling.mkConfig (Some n) (Some x))) gc in
  (exists (n' : Z) (x' : Q),
     reduce_resources true env
     = (true, Scaling.mkEnv (Some (Scaling.mkConfig (Some n') (Some x'))) gc)
     /\ (1 <= n' <= n)%Z /\ ((1 < n)%Z -> (n' < n)%Z)
     /\ 3 # 10 <= x' /\ x' <= x)
  /\ reduce_resources false env = (false, env).
Proof.
  intros Hn Hx env. split; [|reflexivity].
  unfold reduce_resources, env. simpl.
  exists (if (1 <? n)%Z then Z.max 1 (n / 2) else n),
         (if Qlt_bool (5 # 10) x then x * (8 # 10) else x).
  split.
  { destruct (1 <? n)%Z; destruct (Qlt_bool (5 # 10) x); reflexivity. }
  split.
  { destruct (1 <? n)%Z eqn:E; [|lia]. apply Z.ltb_lt in E.
    assert (n / 2 < n)%Z by (apply Z.div_lt; lia).
    assert (0 <= n / 2)%Z by (apply Z.div_pos; lia). lia. }
  split.
  { intros H. apply Z.ltb_lt in H. rewrite H.
    assert (n / 2 < n)%Z by (apply Z.div_lt; lia). lia. }
  destruct (Qlt_bool (5 # 10) x) eqn:E.
  - apply Qlt_bool_iff in E. split; lra.
  - split; lra.
Qed.

Lemma reduce_resources_floors_witness :
  exists (n' : Z) (x' : Q),
    reduce_resources true Examples.four_threads
    = (true, Scaling.mkEnv (Some (Scaling.mkConfig (Some n') (Some x'))) 0)
    /\ (1 <= n' <= 4)%Z /\ 3 # 10 <= x' /\ x' <= 8 # 10.
Proof.
  assert (Hn : (1 <= 4)%Z) by lia.
  assert (Hx : 3 # 10 <= 8 # 10) by (vm_compute; discriminate).
  destruct (reduce_resources_floors 4 (8 # 10) 0 Hn Hx)
    as ((n' & x' & E & H1 & _ & H2 & H3) & _).
  exists n', x'. auto.
Defined.

End RecoveryFacts.
